(** * Moon landing: the physics tick, the collision test and the landing verdict

    A shallow embedding of the lunar-lander game: [src/script.js] (the
    distance-based collision test, module [Script]) and
    [src/unnamed/part_001] (the bounding-box collision test, module
    [Part001]).  The two files share [generateMoon], [reset], [rotatePoint]
    and the body of [update] word for word and differ in a few constants and
    in [checkCollision].

    JavaScript numbers are modelled by the real numbers: rounding, overflow
    and the sign of zero are not part of the model.  Indices (the loop
    counters, [landingZoneIndex], [closestSegmentIndex]) are integers.
    [Math.random()] is a sequence of numbers handed to [generateMoon].  The
    two older games in [src/unnamed/part_000] (a flat terrain, and a disc
    without surface points) are not modelled. *)

From Stdlib Require Import Reals Lra Lia ZArith List String Bool.
Import ListNotations.
Open Scope string_scope.
Open Scope R_scope.

(** ** The fragment of the JavaScript [Math] object the game uses *)

Module JS.

Definition ltb (a b : R) : bool := if Rlt_dec a b then true else false.
Definition leb (a b : R) : bool := if Rle_dec a b then true else false.
Definition gtb (a b : R) : bool := ltb b a.
Definition geb (a b : R) : bool := leb b a.
(** [a === b] on numbers. *)
Definition eqb (a b : R) : bool := if Req_dec_T a b then true else false.

(** [Math.floor], as an integer. *)
Definition Math_floor (a : R) : Z := Int_part a.

(** Rounding towards zero, which is what [%] divides with. *)
Definition trunc (a : R) : Z :=
  if Rle_dec 0 a then Int_part a else (- Int_part (- a))%Z.

(** [a % n]: the remainder has the sign of the dividend. *)
Definition rem (a n : R) : R := a - n * IZR (trunc (a / n)).

(** [Math.atan2(y, x)], the angle of the vector [(x, y)] in [(-PI, PI]];
    [Math.atan2(0, 0)] is [0]. *)
Definition Math_atan2 (y x : R) : R :=
  if Rlt_dec 0 x then atan (y / x)
  else if Rlt_dec x 0 then
    (if Rle_dec 0 y then atan (y / x) + PI else atan (y / x) - PI)
  else if Rlt_dec 0 y then PI / 2
  else if Rlt_dec y 0 then - (PI / 2)
  else 0.

Definition Math_abs : R -> R := Rabs.
Definition Math_max : R -> R -> R := Rmax.
Definition Math_sqrt : R -> R := sqrt.
Definition Math_sin : R -> R := sin.
Definition Math_cos : R -> R := cos.
Definition Math_pow2 (a : R) : R := a * a.

End JS.

(** ** The game object *)

(** A point [{ x, y }]. *)
Module Point.
Record t : Set := mk { x : R; y : R }.
End Point.

(** [this.spacecraft]. *)
Module Spacecraft.
Record t : Set := mk {
  x : R;
  y : R;
  rotation : R;
  velocityX : R;
  velocityY : R;
  fuel : R
}.

Definition with_rotation (s : t) (v : R) : t :=
  mk (x s) (y s) v (velocityX s) (velocityY s) (fuel s).
Definition with_velocityX (s : t) (v : R) : t :=
  mk (x s) (y s) (rotation s) v (velocityY s) (fuel s).
Definition with_velocityY (s : t) (v : R) : t :=
  mk (x s) (y s) (rotation s) (velocityX s) v (fuel s).
Definition with_fuel (s : t) (v : R) : t :=
  mk (x s) (y s) (rotation s) (velocityX s) (velocityY s) v.
Definition with_x (s : t) (v : R) : t :=
  mk v (y s) (rotation s) (velocityX s) (velocityY s) (fuel s).
Definition with_y (s : t) (v : R) : t :=
  mk (x s) v (rotation s) (velocityX s) (velocityY s) (fuel s).
End Spacecraft.

(** [this.keys]. *)
Record Keys : Set := mkKeys {
  ArrowLeft : bool;
  ArrowRight : bool;
  ArrowUp : bool
}.

(** The fields of [Game] that the simulation reads or writes.  [modal] is the
    dialog [endGame] opens: [None] while it is hidden, [Some (success, reason)]
    with the two arguments of [endGame] once it is shown.  The drawing
    context, the stars and [startTime] only feed the display. *)
Record Game : Set := mkGame {
  canvas_width : R;
  canvas_height : R;
  scale : R;
  isGameActive : bool;
  isPaused : bool;
  moonPoints : list Point.t;
  landingZoneIndex : Z;
  moonRotation : R;
  moonCenter : Point.t;
  moonRadius : R;
  spacecraft : Spacecraft.t;
  keys : Keys;
  modal : option (bool * string)
}.

Definition with_spacecraft (g : Game) (s : Spacecraft.t) : Game :=
  mkGame (canvas_width g) (canvas_height g) (scale g) (isGameActive g)
    (isPaused g) (moonPoints g) (landingZoneIndex g) (moonRotation g)
    (moonCenter g) (moonRadius g) s (keys g) (modal g).

Definition with_moonRotation (g : Game) (a : R) : Game :=
  mkGame (canvas_width g) (canvas_height g) (scale g) (isGameActive g)
    (isPaused g) (moonPoints g) (landingZoneIndex g) a
    (moonCenter g) (moonRadius g) (spacecraft g) (keys g) (modal g).

Definition with_keys (g : Game) (k : Keys) : Game :=
  mkGame (canvas_width g) (canvas_height g) (scale g) (isGameActive g)
    (isPaused g) (moonPoints g) (landingZoneIndex g) (moonRotation g)
    (moonCenter g) (moonRadius g) (spacecraft g) k (modal g).

Definition with_isPaused (g : Game) (b : bool) : Game :=
  mkGame (canvas_width g) (canvas_height g) (scale g) (isGameActive g)
    b (moonPoints g) (landingZoneIndex g) (moonRotation g)
    (moonCenter g) (moonRadius g) (spacecraft g) (keys g) (modal g).

(** ** Constants the two files agree on *)

Definition MOON_RADIUS : R := 400.
Definition MOON_GRAVITY : R := 1.62.
Definition MOON_ROTATION_SPEED : R := 0.02 / 60.
Definition LANDING_ZONE_SPREAD : Z := 5.
Definition THRUST_FORCE : R := 4.
Definition ACCEPTABLE_LANDING_ANGLE : R := 4.
Definition ACCEPTABLE_LANDING_SPEED : R := 2.5.

(** [const dt = 1 / 60] in [update]. *)
Definition dt : R := 1 / 60.

(** ** Code shared by the two files *)

(** [rotatePoint(point, center, angle)]. *)
Definition rotatePoint (point center : Point.t) (angle : R) : Point.t :=
  let cos := JS.Math_cos angle in
  let sin := JS.Math_sin angle in
  Point.mk
    (cos * (Point.x point - Point.x center)
     - sin * (Point.y point - Point.y center) + Point.x center)
    (sin * (Point.x point - Point.x center)
     + cos * (Point.y point - Point.y center) + Point.y center).

(** [resizeCanvas()], for a window of the given inner size. *)
Definition resizeCanvas (innerWidth innerHeight : R) (g : Game) : Game :=
  mkGame innerWidth innerHeight (Rmin innerWidth innerHeight / 200)
    (isGameActive g) (isPaused g) (moonPoints g) (landingZoneIndex g)
    (moonRotation g) (moonCenter g) (moonRadius g) (spacecraft g) (keys g)
    (modal g).

(** [endGame(success, reason)]: the game stops and the dialog shows.  Which
    of the messages filed under the verdict is picked is left out. *)
Definition endGame (g : Game) (success : bool) (reason : string) : Game :=
  mkGame (canvas_width g) (canvas_height g) (scale g) false
    (isPaused g) (moonPoints g) (landingZoneIndex g) (moonRotation g)
    (moonCenter g) (moonRadius g) (spacecraft g) (keys g)
    (Some (success, reason)).

(** [updateDashboard()] writes the read-outs and the score into the page and
    leaves the game untouched. *)
Definition updateDashboard (g : Game) : Game := g.

Module Common.

Section Variant.

(** The constants on which the files differ. *)
Variable MOON_BUMPINESS : R.
Variable MOON_SEGMENTS : Z.
Variable FUEL_CONSUMPTION : R.
Variable ROTATION_SPEED : R.

(** The [for] loop of [generateMoon]: [n] rounds remain, [i] is the loop
    counter and [k] counts the calls of [Math.random()] made so far, the
    [k]-th of which returns [random k]. *)
Fixpoint generateMoon_loop (random : nat -> R) (radius centerX centerY : R)
    (zone : Z) (n : nat) (i : Z) (k : nat) : list Point.t :=
  match n with
  | O => []
  | S n' =>
      let angle := PI * 2 / IZR MOON_SEGMENTS * IZR i in
      let isInLandingZone := (zone <=? i)%Z && (i <=? zone + 1)%Z in
      let randomOffset :=
        if isInLandingZone then 0
        else (random k - 0.5) * radius * MOON_BUMPINESS in
      let x := centerX + JS.Math_cos angle * (radius + randomOffset) in
      let y := centerY - JS.Math_sin angle * (radius + randomOffset) in
      Point.mk x y
        :: generateMoon_loop random radius centerX centerY zone n' (i + 1)
             (if isInLandingZone then k else S k)
  end.

(** [generateMoon()], drawing its random numbers from [random]. *)
Definition generateMoon (random : nat -> R) (g : Game) : Game :=
  let radius := MOON_RADIUS * scale g in
  let centerX := canvas_width g * 0.5 in
  let centerY := canvas_height g + radius * 0.8 in
  let centerIndex := JS.Math_floor (IZR MOON_SEGMENTS / 4) in
  let spread :=
    (JS.Math_floor (random O * IZR (LANDING_ZONE_SPREAD * 2 + 1))
     - LANDING_ZONE_SPREAD)%Z in
  let zone := (centerIndex + spread)%Z in
  mkGame (canvas_width g) (canvas_height g) (scale g) (isGameActive g)
    (isPaused g)
    (generateMoon_loop random radius centerX centerY zone
       (Z.to_nat MOON_SEGMENTS) 0%Z 1%nat)
    zone (moonRotation g)
    (Point.mk centerX centerY) radius (spacecraft g) (keys g) (modal g).

(** [reset()]. *)
Definition reset (random : nat -> R) (g : Game) : Game :=
  generateMoon random
    (mkGame (canvas_width g) (canvas_height g) (scale g) true
       (isPaused g) (moonPoints g) (landingZoneIndex g) (moonRotation g)
       (moonCenter g) (moonRadius g)
       (Spacecraft.mk (canvas_width g * 0.5) (canvas_height g * 0.3)
          0 0 0 100)
       (keys g) (modal g)).

(** The body of [update()] between its guard and the call of
    [checkCollision]: the moon turns, the keys steer and burn, gravity
    pulls, the position advances. *)
Definition update_physics (g : Game) : Game :=
  let g := with_moonRotation g
             (moonRotation g + MOON_ROTATION_SPEED * dt * PI * 2) in
  let s := spacecraft g in
  let s :=
    if ArrowLeft (keys g)
    then Spacecraft.with_rotation s
           (Spacecraft.rotation s - ROTATION_SPEED * dt)
    else s in
  let s :=
    if ArrowRight (keys g)
    then Spacecraft.with_rotation s
           (Spacecraft.rotation s + ROTATION_SPEED * dt)
    else s in
  let s :=
    if ArrowUp (keys g) && JS.gtb (Spacecraft.fuel s) 0 then
      let thrustAngle := Spacecraft.rotation s * PI / 180 in
      let s := Spacecraft.with_velocityX s
                 (Spacecraft.velocityX s
                  + JS.Math_sin thrustAngle * THRUST_FORCE * dt) in
      let s := Spacecraft.with_velocityY s
                 (Spacecraft.velocityY s
                  - JS.Math_cos thrustAngle * THRUST_FORCE * dt) in
      Spacecraft.with_fuel s
        (JS.Math_max 0 (Spacecraft.fuel s - FUEL_CONSUMPTION * dt))
    else s in
  let dx := Point.x (moonCenter g) - Spacecraft.x s in
  let dy := Point.y (moonCenter g) - Spacecraft.y s in
  let distance := JS.Math_sqrt (dx * dx + dy * dy) in
  let gravityAngle := JS.Math_atan2 dy dx in
  let s := Spacecraft.with_velocityX s
             (Spacecraft.velocityX s
              + JS.Math_cos gravityAngle * MOON_GRAVITY * dt) in
  let s := Spacecraft.with_velocityY s
             (Spacecraft.velocityY s
              + JS.Math_sin gravityAngle * MOON_GRAVITY * dt) in
  let s := Spacecraft.with_x s
             (Spacecraft.x s + Spacecraft.velocityX s * dt * scale g) in
  let s := Spacecraft.with_y s
             (Spacecraft.y s + Spacecraft.velocityY s * dt * scale g) in
  with_spacecraft g s.

End Variant.

End Common.

(** ** [src/unnamed/part_001]: the lander as a rotated box *)

Module Part001.

Definition MOON_BUMPINESS : R := 0.025.
Definition MOON_SEGMENTS : Z := 280.
Definition SPACECRAFT_HEIGHT : R := 8.
Definition FUEL_CONSUMPTION : R := 1.5.
Definition ROTATION_SPEED : R := 35.

Definition generateMoon : (nat -> R) -> Game -> Game :=
  Common.generateMoon MOON_BUMPINESS MOON_SEGMENTS.
Definition reset : (nat -> R) -> Game -> Game :=
  Common.reset MOON_BUMPINESS MOON_SEGMENTS.
Definition update_physics : Game -> Game :=
  Common.update_physics FUEL_CONSUMPTION ROTATION_SPEED.

(** [lineSegmentsIntersect(x1, y1, x2, y2, x3, y3, x4, y4)]. *)
Definition lineSegmentsIntersect (x1 y1 x2 y2 x3 y3 x4 y4 : R) : bool :=
  let dx1 := x2 - x1 in
  let dy1 := y2 - y1 in
  let dx2 := x4 - x3 in
  let dy2 := y4 - y3 in
  let denominator := dx1 * dy2 - dy1 * dx2 in
  if JS.eqb denominator 0 then false
  else
    let t1 := ((x3 - x1) * dy2 - (y3 - y1) * dx2) / denominator in
    let t2 := ((x3 - x1) * dy1 - (y3 - y1) * dx1) / denominator in
    JS.geb t1 0 && JS.leb t1 1 && JS.geb t2 0 && JS.leb t2 1.

(** The four [corners] of the rotated bounding box. *)
Definition corners (g : Game) : list Point.t :=
  let s := spacecraft g in
  let halfWidth := SPACECRAFT_HEIGHT * scale g * 0.2 in
  let halfHeight := SPACECRAFT_HEIGHT * scale g * 0.4 in
  let angle := Spacecraft.rotation s * PI / 180 in
  let cos := JS.Math_cos angle in
  let sin := JS.Math_sin angle in
  [ Point.mk (Spacecraft.x s + (- halfWidth * cos - halfHeight * sin))
             (Spacecraft.y s + (- halfWidth * sin + halfHeight * cos));
    Point.mk (Spacecraft.x s + (halfWidth * cos - halfHeight * sin))
             (Spacecraft.y s + (halfWidth * sin + halfHeight * cos));
    Point.mk (Spacecraft.x s + (halfWidth * cos + halfHeight * sin))
             (Spacecraft.y s + (halfWidth * sin - halfHeight * cos));
    Point.mk (Spacecraft.x s + (- halfWidth * cos + halfHeight * sin))
             (Spacecraft.y s + (- halfWidth * sin - halfHeight * cos)) ].

(** One side of the box, [corners[j]] to [corners[(j + 1) % 4]], against
    one moon segment. *)
Definition sideIntersects (corners : list Point.t) (moonP1 moonP2 : Point.t)
    (j : nat) : bool :=
  let spacecraftP1 := nth j corners moonP1 in
  let spacecraftP2 := nth ((j + 1) mod 4) corners moonP1 in
  lineSegmentsIntersect
    (Point.x spacecraftP1) (Point.y spacecraftP1)
    (Point.x spacecraftP2) (Point.y spacecraftP2)
    (Point.x moonP1) (Point.y moonP1)
    (Point.x moonP2) (Point.y moonP2).

(** The inner loop, [j] from 0 to 3, leaving at the first hit. *)
Definition boxIntersects (corners : list Point.t) (moonP1 moonP2 : Point.t)
    : bool :=
  existsb (sideIntersects corners moonP1 moonP2) (seq 0 4).

(** The outer loop, from counter [i] on: [points] is the rest of
    [rotatedPoints] starting at index [i].  The loop runs while
    [i < rotatedPoints.length - 1], so only while a next point exists, and
    leaves with [closestSegmentIndex = i] at the first segment hit. *)
Fixpoint findCollision (corners : list Point.t) (i : Z)
    (points : list Point.t) : option Z :=
  match points with
  | moonP1 :: ((moonP2 :: _) as rest) =>
      if boxIntersects corners moonP1 moonP2 then Some i
      else findCollision corners (i + 1) rest
  | _ => None
  end.

Definition rotatedPoints (g : Game) : list Point.t :=
  map (fun point => rotatePoint point (moonCenter g) (moonRotation g))
    (moonPoints g).

(** [Some closestSegmentIndex] when the loops leave with
    [collision = true]. *)
Definition collision (g : Game) : option Z :=
  findCollision (corners g) 0 (rotatedPoints g).

Definition isInLandingZone (g : Game) (closestSegmentIndex : Z) : bool :=
  (Z.abs (closestSegmentIndex - landingZoneIndex g) <=? 1)%Z.

Definition speed (g : Game) : R :=
  let s := spacecraft g in
  JS.Math_sqrt
    (Spacecraft.velocityX s * Spacecraft.velocityX s
     + Spacecraft.velocityY s * Spacecraft.velocityY s).

Definition angleToCenter (g : Game) : R :=
  JS.Math_atan2
    (Point.y (moonCenter g) - Spacecraft.y (spacecraft g))
    (Point.x (moonCenter g) - Spacecraft.x (spacecraft g))
  * 180 / PI.

Definition relativeRotation (g : Game) : R :=
  JS.rem (Spacecraft.rotation (spacecraft g) + 90 - angleToCenter g) 360.

Definition normalizedRotation (g : Game) : R :=
  let relativeRotation := relativeRotation g in
  if JS.gtb relativeRotation 180 then relativeRotation - 360
  else if JS.ltb relativeRotation (-180) then relativeRotation + 360
  else relativeRotation.

Definition isUprightLanding (g : Game) : bool :=
  JS.leb (JS.Math_abs (normalizedRotation g)) ACCEPTABLE_LANDING_ANGLE.

Definition isSoftLanding (g : Game) : bool :=
  JS.leb (speed g) ACCEPTABLE_LANDING_SPEED.

(** [checkCollision()]. *)
Definition checkCollision (g : Game) : Game :=
  match collision g with
  | None => g
  | Some closestSegmentIndex =>
      if isInLandingZone g closestSegmentIndex
         && isUprightLanding g && isSoftLanding g
      then endGame g true "success"
      else
        let reason :=
          if negb (isInLandingZone g closestSegmentIndex) then "missedZone"
          else if negb (isUprightLanding g) then "notUpright"
          else "tooFast" in
        endGame g false reason
  end.

(** [update()]. *)
Definition update (g : Game) : Game :=
  if negb (isGameActive g) || isPaused g then g
  else updateDashboard (checkCollision (update_physics g)).

(** One frame: the key handlers have set [keys] to [k], then [update]
    runs. *)
Definition tick (g : Game) (k : Keys) : Game := update (with_keys g k).

(** A run of frames, one key state per frame. *)
Definition run (g : Game) (ks : list Keys) : Game := fold_left tick ks g.

End Part001.

(** ** [src/script.js]: the lander as its bottom point *)

Module Script.

Definition MOON_BUMPINESS : R := 0.03.
Definition MOON_SEGMENTS : Z := 250.
Definition SPACECRAFT_HEIGHT : R := 6.
Definition FUEL_CONSUMPTION : R := 0.5.
Definition ROTATION_SPEED : R := 20.

Definition generateMoon : (nat -> R) -> Game -> Game :=
  Common.generateMoon MOON_BUMPINESS MOON_SEGMENTS.
Definition reset : (nat -> R) -> Game -> Game :=
  Common.reset MOON_BUMPINESS MOON_SEGMENTS.
Definition update_physics : Game -> Game :=
  Common.update_physics FUEL_CONSUMPTION ROTATION_SPEED.

(** [distanceToLineSegment(px, py, x1, y1, x2, y2)]. *)
Definition distanceToLineSegment (px py x1 y1 x2 y2 : R) : R :=
  let A := px - x1 in
  let B := py - y1 in
  let C := x2 - x1 in
  let D := y2 - y1 in
  let dot := A * C + B * D in
  let len_sq := C * C + D * D in
  let param := if negb (JS.eqb len_sq 0) then dot / len_sq else -1 in
  let xx :=
    if JS.ltb param 0 then x1
    else if JS.gtb param 1 then x2 else x1 + param * C in
  let yy :=
    if JS.ltb param 0 then y1
    else if JS.gtb param 1 then y2 else y1 + param * D in
  let dx := px - xx in
  let dy := py - yy in
  JS.Math_sqrt (dx * dx + dy * dy).

Definition spacecraftBottom (g : Game) : Point.t :=
  Point.mk (Spacecraft.x (spacecraft g))
    (Spacecraft.y (spacecraft g) + SPACECRAFT_HEIGHT * scale g * 0.5).

Definition distanceToCenter (g : Game) : R :=
  JS.Math_sqrt
    (JS.Math_pow2 (Point.x (spacecraftBottom g) - Point.x (moonCenter g))
     + JS.Math_pow2 (Point.y (spacecraftBottom g) - Point.y (moonCenter g))).

(** [distance < minDistance], where [None] stands for [Infinity]. *)
Definition below (distance : R) (minDistance : option R) : bool :=
  match minDistance with
  | None => true
  | Some m => JS.ltb distance m
  end.

(** The search loop from counter [i] on; [points] is the rest of
    [rotatedPoints] from index [i].  Returns the final
    [closestSegmentIndex]. *)
Fixpoint closestSegment (bottom : Point.t) (i : Z) (points : list Point.t)
    (minDistance : option R) (closestSegmentIndex : Z) : Z :=
  match points with
  | p1 :: ((p2 :: _) as rest) =>
      let distance :=
        distanceToLineSegment (Point.x bottom) (Point.y bottom)
          (Point.x p1) (Point.y p1) (Point.x p2) (Point.y p2) in
      if below distance minDistance
      then closestSegment bottom (i + 1) rest (Some distance) i
      else closestSegment bottom (i + 1) rest minDistance closestSegmentIndex
  | _ => closestSegmentIndex
  end.

Definition rotatedPoints (g : Game) : list Point.t :=
  map (fun point => rotatePoint point (moonCenter g) (moonRotation g))
    (moonPoints g).

Definition closestSegmentIndex (g : Game) : Z :=
  closestSegment (spacecraftBottom g) 0 (rotatedPoints g) None (-1).

(** [rotatedPoints[closestSegmentIndex]]; [None] is [undefined]. *)
Definition surfacePoint (g : Game) : option Point.t :=
  if (closestSegmentIndex g <? 0)%Z then None
  else nth_error (rotatedPoints g) (Z.to_nat (closestSegmentIndex g)).

Definition surfaceDistance (surfacePoint : Point.t) (g : Game) : R :=
  JS.Math_sqrt
    (JS.Math_pow2 (Point.x surfacePoint - Point.x (moonCenter g))
     + JS.Math_pow2 (Point.y surfacePoint - Point.y (moonCenter g))).

Definition isInLandingZone (g : Game) : bool :=
  (Z.abs (closestSegmentIndex g - landingZoneIndex g) <=? 1)%Z.

Definition speed (g : Game) : R :=
  let s := spacecraft g in
  JS.Math_sqrt
    (Spacecraft.velocityX s * Spacecraft.velocityX s
     + Spacecraft.velocityY s * Spacecraft.velocityY s).

Definition isUprightLanding (g : Game) : bool :=
  JS.leb (JS.Math_abs (Spacecraft.rotation (spacecraft g)))
    ACCEPTABLE_LANDING_ANGLE.

Definition isSoftLanding (g : Game) : bool :=
  JS.leb (speed g) ACCEPTABLE_LANDING_SPEED.

(** [checkCollision()].  [None] is the [TypeError] of reading [.x] of an
    [undefined] [surfacePoint], which happens when [moonPoints] has fewer
    than two points. *)
Definition checkCollision (g : Game) : option Game :=
  match surfacePoint g with
  | None => None
  | Some p =>
      if JS.geb (distanceToCenter g) (surfaceDistance p g) then Some g
      else if isInLandingZone g && isUprightLanding g && isSoftLanding g
      then Some (endGame g true "")
      else
        let reason :=
          if negb (isInLandingZone g) then "Missed the landing zone!"
          else if negb (isUprightLanding g) then "Not upright!"
          else "Too fast!" in
        Some (endGame g false reason)
  end.

(** [update()]. *)
Definition update (g : Game) : option Game :=
  if negb (isGameActive g) || isPaused g then Some g
  else option_map updateDashboard (checkCollision (update_physics g)).

End Script.

(** ** Outcomes, as the specification names them *)

Inductive Reason : Set := MissedZone | NotUpright | TooFast.

Inductive OutcomeClassification : Set :=
  | Landed
  | Crashed (reason : Reason).

(** The verdict [part_001] hands to [endGame], read off the dialog: the
    [reason] is the key under which the message is looked up. *)
Definition outcome_part001 (g : Game) : option OutcomeClassification :=
  match modal g with
  | Some (true, reason) =>
      if String.eqb reason "success" then Some Landed else None
  | Some (false, reason) =>
      if String.eqb reason "missedZone" then Some (Crashed MissedZone)
      else if String.eqb reason "notUpright" then Some (Crashed NotUpright)
      else if String.eqb reason "tooFast" then Some (Crashed TooFast)
      else None
  | None => None
  end.

(** The same for [script.js], where a landing is [endGame(true)] and a
    crash carries the sentence shown to the player. *)
Definition outcome_script (g : Game) : option OutcomeClassification :=
  match modal g with
  | Some (true, _) => Some Landed
  | Some (false, reason) =>
      if String.eqb reason "Missed the landing zone!"
      then Some (Crashed MissedZone)
      else if String.eqb reason "Not upright!" then Some (Crashed NotUpright)
      else if String.eqb reason "Too fast!" then Some (Crashed TooFast)
      else None
  | None => None
  end.

(** The verdict the specification asks for: the first failing check, in the
    order zone, upright, speed. *)
Definition classify (inZone upright soft : bool) : OutcomeClassification :=
  if negb inZone then Crashed MissedZone
  else if negb upright then Crashed NotUpright
  else if negb soft then Crashed TooFast
  else Landed.

(** ** The surface, as the specification describes it *)

(** Point [i] of a ring of [segments] points lies at its angle
    [2 PI i / segments], at the moon's radius plus [offset] from the
    center. *)
Definition hasOffset (segments : Z) (g : Game) (i : nat) (p : Point.t)
    (offset : R) : Prop :=
  let angle := PI * 2 / IZR segments * IZR (Z.of_nat i) in
  p = Point.mk
        (Point.x (moonCenter g) + JS.Math_cos angle * (moonRadius g + offset))
        (Point.y (moonCenter g) - JS.Math_sin angle * (moonRadius g + offset)).

(** Index [i] is within the zone span [[zoneStart, zoneStart + 1]]. *)
Definition inZoneSpan (g : Game) (i : nat) : Prop :=
  (landingZoneIndex g <= Z.of_nat i <= landingZoneIndex g + 1)%Z.

(** The distance of a point from the moon's center. *)
Definition centerDistance (g : Game) (p : Point.t) : R :=
  JS.Math_sqrt
    (JS.Math_pow2 (Point.x p - Point.x (moonCenter g))
     + JS.Math_pow2 (Point.y p - Point.y (moonCenter g))).

(** What C5 asks of a surface with the given bumpiness. *)
Definition flatZoneBumpyElsewhere (bumpiness : R) (segments : Z) (g : Game)
    : Prop :=
  forall (i : nat) (p : Point.t),
    nth_error (moonPoints g) i = Some p ->
    exists offset : R,
      hasOffset segments g i p offset
      /\ (inZoneSpan g i -> offset = 0 /\ centerDistance g p = moonRadius g)
      /\ (~ inZoneSpan g i ->
          - (moonRadius g * bumpiness / 2) <= offset
          <= moonRadius g * bumpiness / 2).


(** ** Freefall, as the specification describes it *)

(** The [distance] of [update]: from the craft to the moon's center. *)
Definition distance (g : Game) : R :=
  let dx := Point.x (moonCenter g) - Spacecraft.x (spacecraft g) in
  let dy := Point.y (moonCenter g) - Spacecraft.y (spacecraft g) in
  JS.Math_sqrt (dx * dx + dy * dy).



(** The gravity step with the clamp the specification recommends: the
    direction is the vector to the center divided by its length, the length
    taken to be at least [epsilon].  Returns the velocity after the step. *)
Definition gravity_clamped (epsilon : R) (g : Game) : R * R :=
  let s := spacecraft g in
  let dx := Point.x (moonCenter g) - Spacecraft.x s in
  let dy := Point.y (moonCenter g) - Spacecraft.y s in
  let distance := JS.Math_max epsilon (JS.Math_sqrt (dx * dx + dy * dy)) in
  (Spacecraft.velocityX s + dx / distance * MOON_GRAVITY * dt,
   Spacecraft.velocityY s + dy / distance * MOON_GRAVITY * dt).

(** ** Upright, as the specification describes it *)

(** The direction in which a craft of rotation [r] degrees points its nose:
    the direction in which [update] accelerates it under thrust.  At
    rotation 0 this is straight up the canvas. *)
Definition noseX (r : R) : R := JS.Math_sin (r * PI / 180).
Definition noseY (r : R) : R := - JS.Math_cos (r * PI / 180).

(** ** Sample games *)

Definition noKeys : Keys := mkKeys false false false.
Definition thrustKey : Keys := mkKeys false false true.

(** The fields as the constructor and [resizeCanvas] leave them in a window
    of 800 by 600 (so [scale] is 600 / 200), before the first
    [generateMoon]. *)
Definition canvas0 : Game :=
  mkGame 800 600 3 false true [] 0 0 (Point.mk 0 0) 0
    (Spacecraft.mk 0 0 0 0 0 100) noKeys None.

(** A game of [part_001] after [reset] and the countdown. *)
Definition fresh : Game :=
  with_isPaused (Part001.reset (fun _ => 0) canvas0) false.

(** A game of [script.js] after [reset] and the countdown. *)
Definition freshScript : Game :=
  with_isPaused (Script.reset (fun _ => 0) canvas0) false.


(** [fresh] with the craft exactly at the moon's center. *)
Definition atCenter : Game :=
  with_spacecraft fresh (Spacecraft.mk 400 1560 0 0 0 100).

(** [fresh] with the craft turned nose down. *)
Definition noseDown : Game :=
  with_spacecraft fresh (Spacecraft.mk 400 180 (-180) 0 0 100).

(** [fresh] after a crash. *)
Definition ended : Game := endGame fresh false "tooFast".

(** A small scene at scale 1, the moon's center at [(0, 100)], the moon
    not rotated, the game active. *)
Definition scene (points : list Point.t) (zone : Z) (s : Spacecraft.t)
    : Game :=
  mkGame 200 200 1 true false points zone 0 (Point.mk 0 100) 400 s noKeys
    None.

(** The craft upright at the origin, 100 above the center, and a piece of
    surface crossing the lower part of its box. *)
Definition touching : Game :=
  scene [Point.mk (-10) 3; Point.mk 10 3] 0 (Spacecraft.mk 0 0 0 0 0 100).

(** A ring of four points whose closing side, from the last point back to
    the first, runs through the box, while its three stored sides do not. *)
Definition overClosingSide : Game :=
  scene [Point.mk 10 3; Point.mk 10 50; Point.mk (-10) 50; Point.mk (-10) 3]
    0 (Spacecraft.mk 0 0 0 0 0 100).

(** For [script.js]: the bottom point 3 below the craft, the surface 2
    below it. *)
Definition sunk : Game :=
  scene [Point.mk (-10) 2; Point.mk 10 2] 0 (Spacecraft.mk 0 0 0 0 0 100).




(** ** The craft of [script.js], as drawn *)


(** ** The box before it is turned *)

(** The four corners of the craft's box when the craft is upright, in the
    order of [corners]. *)
Definition uprightBox (g : Game) : list Point.t :=
  let s := spacecraft g in
  let halfWidth := Part001.SPACECRAFT_HEIGHT * scale g * 0.2 in
  let halfHeight := Part001.SPACECRAFT_HEIGHT * scale g * 0.4 in
  [ Point.mk (Spacecraft.x s - halfWidth) (Spacecraft.y s + halfHeight);
    Point.mk (Spacecraft.x s + halfWidth) (Spacecraft.y s + halfHeight);
    Point.mk (Spacecraft.x s + halfWidth) (Spacecraft.y s - halfHeight);
    Point.mk (Spacecraft.x s - halfWidth) (Spacecraft.y s - halfHeight) ].

(** The craft's position as a point. *)
Definition craftPoint (g : Game) : Point.t :=
  Point.mk (Spacecraft.x (spacecraft g)) (Spacecraft.y (spacecraft g)).

(** The squared distance between two points. *)
Definition distance2 (p q : Point.t) : R :=
  (Point.x p - Point.x q) * (Point.x p - Point.x q)
  + (Point.y p - Point.y q) * (Point.y p - Point.y q).

(** The point at parameter [t] on the segment from [(x1, y1)] to
    [(x2, y2)]. *)
Definition along (x1 y1 x2 y2 t : R) : Point.t :=
  Point.mk (x1 + t * (x2 - x1)) (y1 + t * (y2 - y1)).

(** The distance [script.js] measures from [bottom] to segment [m] of
    [points], when the ring has a segment [m]. *)
Definition segmentDistance (bottom : Point.t) (points : list Point.t)
    (m : nat) : option R :=
  match nth_error points m, nth_error points (S m) with
  | Some p1, Some p2 =>
      Some (Script.distanceToLineSegment (Point.x bottom) (Point.y bottom)
              (Point.x p1) (Point.y p1) (Point.x p2) (Point.y p2))
  | _, _ => None
  end.

(** ** The keyboard, the score and the countdown *)

(** [this.keys[code] = pressed] under the guard
    [this.keys.hasOwnProperty(code)] of the two key listeners: the object
    has the three arrow keys and no other property of its own. *)
Definition setKey (k : Keys) (code : string) (pressed : bool) : Keys :=
  if String.eqb code "ArrowLeft"
  then mkKeys pressed (ArrowRight k) (ArrowUp k)
  else if String.eqb code "ArrowRight"
  then mkKeys (ArrowLeft k) pressed (ArrowUp k)
  else if String.eqb code "ArrowUp"
  then mkKeys (ArrowLeft k) (ArrowRight k) pressed
  else k.

(** The [keydown] and [keyup] listeners, for an event with [e.code = code]. *)
Definition keydown (g : Game) (code : string) : Game :=
  with_keys g (setKey (keys g) code true).

Definition keyup (g : Game) (code : string) : Game :=
  with_keys g (setKey (keys g) code false).

(** The [score] of [updateDashboard]. *)
Definition score (g : Game) : Z :=
  let s := spacecraft g in
  Z.max 0
    (JS.Math_floor
       (1000 + Spacecraft.fuel s * 10
        - JS.Math_abs (Spacecraft.velocityX s) * 100
        - JS.Math_abs (Spacecraft.velocityY s) * 100
        - JS.Math_abs (Spacecraft.rotation s) * 10)).

(** The click listener of the restart button first hides the dialog. *)
Definition hideModal (g : Game) : Game :=
  mkGame (canvas_width g) (canvas_height g) (scale g) (isGameActive g)
    (isPaused g) (moonPoints g) (landingZoneIndex g) (moonRotation g)
    (moonCenter g) (moonRadius g) (spacecraft g) (keys g) None.

(** What the countdown element shows: [count], or ["GO!"]. *)
Inductive CountdownText : Set :=
  | Digits (count : Z)
  | Go.

(** The page: the game, the countdown element (hidden or not, and its
    text) and the intervals the calls of [startCountdown] have scheduled so
    far, in the order of the calls.  Every call schedules an interval of its
    own, with a [count] of its own, and clears none of the older ones.
    Entry [i] of [timers] is [Some count] while the interval of call [i] is
    scheduled, [count] being the variable of its closure, and [None] once
    that interval has cleared itself. *)
Record Page : Set := mkPage {
  game : Game;
  countdownHidden : bool;
  countdownText : CountdownText;
  timers : list (option Z)
}.

(** [timers] with entry [i] replaced by [t]. *)
Fixpoint setTimer (timers : list (option Z)) (i : nat) (t : option Z)
    : list (option Z) :=
  match timers, i with
  | [], _ => []
  | _ :: rest, O => t :: rest
  | t0 :: rest, S i' => t0 :: setTimer rest i' t
  end.

(** The callback of the interval of call [i], up to its last branch, which
    the two files fill differently: [finish] is what that branch does to
    the game.  An interval that is not scheduled does not fire. *)
Definition timerFire (finish : Game -> Game) (i : nat) (p : Page) : Page :=
  match nth_error (timers p) i with
  | Some (Some count) =>
      let count := (count - 1)%Z in
      if (0 <? count)%Z
      then mkPage (game p) (countdownHidden p) (Digits count)
             (setTimer (timers p) i (Some count))
      else if (count =? 0)%Z
      then mkPage (game p) (countdownHidden p) Go
             (setTimer (timers p) i (Some count))
      else mkPage (finish (game p)) true (countdownText p)
             (setTimer (timers p) i None)
  | _ => p
  end.

(** The countdown and the session of [part_001]. *)
Module Part001Page.

(** [startCountdown()]: show 3, pause, [reset()], and schedule a new
    interval. *)
Definition startCountdown (random : nat -> R) (p : Page) : Page :=
  mkPage (Part001.reset random (with_isPaused (game p) true))
    false (Digits 3) (timers p ++ [Some 3%Z]).

(** The callback of interval [i]; its last branch clears the interval,
    hides the countdown and unpauses. *)
Definition timerFire : nat -> Page -> Page :=
  timerFire (fun g => with_isPaused g false).

(** What can happen to the page: an animation frame ([gameLoop]), a key
    going down or up, the interval of call [i] firing, a click on the
    restart button. *)
Inductive Event : Type :=
  | Frame
  | KeyDown (code : string)
  | KeyUp (code : string)
  | TimerFire (i : nat)
  | TryAgain (random : nat -> R).

Definition withGame (p : Page) (g : Game) : Page :=
  mkPage g (countdownHidden p) (countdownText p) (timers p).

Definition step (p : Page) (e : Event) : Page :=
  match e with
  | Frame => withGame p (Part001.update (game p))
  | KeyDown code => withGame p (keydown (game p) code)
  | KeyUp code => withGame p (keyup (game p) code)
  | TimerFire i => timerFire i p
  | TryAgain random => startCountdown random (withGame p (hideModal (game p)))
  end.

Definition session (p : Page) (events : list Event) : Page :=
  fold_left step events p.

End Part001Page.

(** The countdown of [script.js]. *)
Module ScriptPage.

(** [startCountdown()]: show 3, pause, and schedule a new interval. *)
Definition startCountdown (p : Page) : Page :=
  mkPage (with_isPaused (game p) true) false (Digits 3)
    (timers p ++ [Some 3%Z]).

(** The callback of interval [i]; its last branch clears the interval,
    hides the countdown, unpauses and calls [reset()]. *)
Definition timerFire (random : nat -> R) : nat -> Page -> Page :=
  timerFire (fun g => Script.reset random (with_isPaused g false)).

End ScriptPage.

(** What every page of a session of [part_001] satisfies: the tank is in
    range, the moon has its 280 points with the zone near the quarter turn,
    the dialog shows exactly while the game is ended and then carries one of
    the four verdicts, and while the game is paused an interval is scheduled
    whose [count] is between 0 and 3, so that its fourth firing at the
    latest unpauses the game. *)
Definition sessionInvariant (p : Page) : Prop :=
  let g := game p in
  0 <= Spacecraft.fuel (spacecraft g) <= 100
  /\ List.length (moonPoints g) = 280%nat
  /\ (65 <= landingZoneIndex g <= 75)%Z
  /\ (isGameActive g = true <-> modal g = None)
  /\ (outcome_part001 g = None <-> modal g = None)
  /\ (isPaused g = true ->
      exists (i : nat) (count : Z),
        nth_error (timers p) i = Some (Some count) /\ (0 <= count <= 3)%Z).

(** The random numbers a restart draws are in the unit interval. *)
Definition goodEvent (e : Part001Page.Event) : Prop :=
  match e with
  | Part001Page.TryAgain random => forall k : nat, 0 <= random k < 1
  | _ => True
  end.

(** Frames and keys, as opposed to the timer and the restart button. *)
Definition isInput (e : Part001Page.Event) : Prop :=
  match e with
  | Part001Page.Frame | Part001Page.KeyDown _ | Part001Page.KeyUp _ => True
  | _ => False
  end.

(** The game with the craft turned by [a] more degrees. *)
Definition turned (g : Game) (a : R) : Game :=
  with_spacecraft g
    (Spacecraft.with_rotation (spacecraft g)
       (Spacecraft.rotation (spacecraft g) + a)).

(** ** Facts about the [Math] model *)

Lemma ltb_true (a b : R) : JS.ltb a b = true <-> a < b.
Proof. unfold JS.ltb; destruct (Rlt_dec a b); split; intros; try easy. Qed.

Lemma ltb_false (a b : R) : JS.ltb a b = false <-> b <= a.
Proof.
  unfold JS.ltb; destruct (Rlt_dec a b); split; intros; try easy; lra.
Qed.

Lemma leb_true (a b : R) : JS.leb a b = true <-> a <= b.
Proof. unfold JS.leb; destruct (Rle_dec a b); split; intros; try easy. Qed.

Lemma leb_false (a b : R) : JS.leb a b = false <-> b < a.
Proof.
  unfold JS.leb; destruct (Rle_dec a b); split; intros; try easy; lra.
Qed.

Lemma eqb_true (a b : R) : JS.eqb a b = true <-> a = b.
Proof. unfold JS.eqb; destruct (Req_dec_T a b); split; intros; try easy. Qed.

Lemma eqb_false (a b : R) : JS.eqb a b = false <-> a <> b.
Proof. unfold JS.eqb; destruct (Req_dec_T a b); split; intros; try easy. Qed.

Lemma gtb_true (a b : R) : JS.gtb a b = true <-> b < a.
Proof. apply ltb_true. Qed.

Lemma geb_true (a b : R) : JS.geb a b = true <-> b <= a.
Proof. apply leb_true. Qed.

(** [Math.floor] is pinned down by the unit interval it falls in. *)
Lemma floor_unique (a : R) (z : Z) :
  IZR z <= a < IZR z + 1 -> JS.Math_floor a = z.
Proof.
  intros H; unfold JS.Math_floor; symmetry; apply Int_part_spec; lra.
Qed.

Lemma floor_bounds (a : R) :
  IZR (JS.Math_floor a) <= a < IZR (JS.Math_floor a) + 1.
Proof.
  unfold JS.Math_floor; destruct (base_Int_part a); lra.
Qed.

Lemma trunc_nonneg (a : R) :
  0 <= a -> 0 <= a - IZR (JS.trunc a) < 1.
Proof.
  intros H; unfold JS.trunc; destruct (Rle_dec 0 a); [|lra].
  pose proof (floor_bounds a) as B; unfold JS.Math_floor in B; lra.
Qed.

Lemma trunc_neg (a : R) :
  a < 0 -> -1 < a - IZR (JS.trunc a) <= 0.
Proof.
  intros H; unfold JS.trunc; destruct (Rle_dec 0 a); [lra|].
  pose proof (floor_bounds (- a)) as B; unfold JS.Math_floor in B.
  rewrite opp_IZR; lra.
Qed.

(** [a % n] keeps the sign of [a] and is smaller than [n] in size. *)
Lemma rem_nonneg (a n : R) : 0 < n -> 0 <= a -> 0 <= JS.rem a n < n.
Proof.
  intros Hn Ha; unfold JS.rem.
  assert (Hq : 0 <= a / n).
  { apply Rmult_le_pos; [lra|left; now apply Rinv_0_lt_compat]. }
  pose proof (trunc_nonneg _ Hq) as B.
  replace (a - n * IZR (JS.trunc (a / n)))
    with (n * (a / n - IZR (JS.trunc (a / n)))) by (field; lra).
  split; [apply Rmult_le_pos; lra | nra].
Qed.

Lemma rem_neg (a n : R) : 0 < n -> a < 0 -> - n < JS.rem a n <= 0.
Proof.
  intros Hn Ha; unfold JS.rem.
  assert (Hq : a / n < 0).
  { unfold Rdiv. pose proof (Rinv_0_lt_compat n Hn). nra. }
  pose proof (trunc_neg _ Hq) as B.
  replace (a - n * IZR (JS.trunc (a / n)))
    with (n * (a / n - IZR (JS.trunc (a / n)))) by (field; lra).
  nra.
Qed.

(** [a % n] differs from [a] by a whole multiple of [n]. *)
Lemma rem_congruent (a n : R) : exists q : Z, JS.rem a n = a - n * IZR q.
Proof. exists (JS.trunc (a / n)); reflexivity. Qed.

Lemma atan2_zero_zero : JS.Math_atan2 0 0 = 0.
Proof.
  unfold JS.Math_atan2.
  destruct (Rlt_dec 0 0); [lra|]. reflexivity.
Qed.

Lemma atan2_up (y : R) : 0 < y -> JS.Math_atan2 y 0 = PI / 2.
Proof.
  intros H; unfold JS.Math_atan2.
  destruct (Rlt_dec 0 0); [lra|]. destruct (Rlt_dec 0 y); [reflexivity|lra].
Qed.

Lemma cos2_sin2 (a : R) :
  JS.Math_cos a * JS.Math_cos a + JS.Math_sin a * JS.Math_sin a = 1.
Proof.
  unfold JS.Math_cos, JS.Math_sin.
  pose proof (sin2_cos2 a) as H; unfold Rsqr in H; lra.
Qed.

(** ** The physics step, whatever the constants *)

Section Physics.

Variables FUEL_CONSUMPTION ROTATION_SPEED : R.
Hypothesis consumption_nonneg : 0 <= FUEL_CONSUMPTION.

Let physics := Common.update_physics FUEL_CONSUMPTION ROTATION_SPEED.

(** The tank after the step: only the thrust branch touches it. *)
Lemma physics_fuel (g : Game) :
  Spacecraft.fuel (spacecraft (physics g))
  = if ArrowUp (keys g) && JS.gtb (Spacecraft.fuel (spacecraft g)) 0
    then JS.Math_max 0
           (Spacecraft.fuel (spacecraft g) - FUEL_CONSUMPTION * dt)
    else Spacecraft.fuel (spacecraft g).
Proof.
  unfold physics, Common.update_physics; cbn.
  destruct (ArrowLeft (keys g)), (ArrowRight (keys g)); cbn;
    destruct (ArrowUp (keys g) && JS.gtb (Spacecraft.fuel (spacecraft g)) 0);
    reflexivity.
Qed.

Lemma physics_fuel_le (g : Game) :
  Spacecraft.fuel (spacecraft (physics g))
  <= Spacecraft.fuel (spacecraft g).
Proof.
  rewrite physics_fuel.
  destruct (ArrowUp (keys g)); cbn; [|lra].
  destruct (JS.gtb (Spacecraft.fuel (spacecraft g)) 0) eqn:E; [|lra].
  apply gtb_true in E. unfold JS.Math_max, dt.
  apply Rmax_lub; lra.
Qed.

Lemma physics_fuel_nonneg (g : Game) :
  0 <= Spacecraft.fuel (spacecraft g) ->
  0 <= Spacecraft.fuel (spacecraft (physics g)).
Proof.
  intros H; rewrite physics_fuel.
  destruct (ArrowUp (keys g) && JS.gtb (Spacecraft.fuel (spacecraft g)) 0);
    [apply Rmax_l | lra].
Qed.

End Physics.

(** ** [checkCollision] never moves the craft *)

Lemma part001_checkCollision_spacecraft (g : Game) :
  spacecraft (Part001.checkCollision g) = spacecraft g.
Proof.
  unfold Part001.checkCollision.
  destruct (Part001.collision g); [|reflexivity].
  destruct (_ && _); reflexivity.
Qed.

Lemma script_checkCollision_spacecraft (g g' : Game) :
  Script.checkCollision g = Some g' -> spacecraft g' = spacecraft g.
Proof.
  unfold Script.checkCollision.
  destruct (Script.surfacePoint g); [|discriminate].
  destruct (JS.geb _ _); [intros [= <-]; reflexivity|].
  destruct (_ && _); intros [= <-]; reflexivity.
Qed.

Lemma part001_update_inactive (g : Game) :
  isGameActive g = false -> Part001.update g = g.
Proof. intros H; unfold Part001.update; rewrite H; reflexivity. Qed.

Lemma part001_update_paused (g : Game) :
  isPaused g = true -> Part001.update g = g.
Proof.
  intros H; unfold Part001.update; rewrite H, orb_true_r; reflexivity.
Qed.

Lemma part001_update_active (g : Game) :
  isGameActive g = true -> isPaused g = false ->
  Part001.update g = Part001.checkCollision (Part001.update_physics g).
Proof. intros H1 H2; unfold Part001.update; rewrite H1, H2; reflexivity. Qed.

Lemma part001_update_spacecraft (g : Game) :
  isGameActive g = true -> isPaused g = false ->
  spacecraft (Part001.update g) = spacecraft (Part001.update_physics g).
Proof.
  intros H1 H2; rewrite part001_update_active by assumption.
  apply part001_checkCollision_spacecraft.
Qed.

Lemma script_update_spacecraft (g g' : Game) :
  isGameActive g = true -> isPaused g = false ->
  Script.update g = Some g' ->
  spacecraft g' = spacecraft (Script.update_physics g).
Proof.
  intros H1 H2; unfold Script.update; rewrite H1, H2; cbv [negb orb].
  destruct (Script.checkCollision _) eqn:E; [|discriminate].
  intros [= <-]. unfold updateDashboard.
  now apply script_checkCollision_spacecraft.
Qed.

(** ** Fuel *)

Lemma part001_update_fuel_le (g : Game) :
  Spacecraft.fuel (spacecraft (Part001.update g))
  <= Spacecraft.fuel (spacecraft g).
Proof.
  destruct (isGameActive g) eqn:A;
    [|rewrite part001_update_inactive by assumption; lra].
  destruct (isPaused g) eqn:P;
    [rewrite part001_update_paused by assumption; lra|].
  rewrite part001_update_spacecraft by assumption.
  apply physics_fuel_le. unfold Part001.FUEL_CONSUMPTION; lra.
Qed.

Lemma part001_update_fuel_nonneg (g : Game) :
  0 <= Spacecraft.fuel (spacecraft g) ->
  0 <= Spacecraft.fuel (spacecraft (Part001.update g)).
Proof.
  intros H.
  destruct (isGameActive g) eqn:A;
    [|rewrite part001_update_inactive by assumption; lra].
  destruct (isPaused g) eqn:P;
    [rewrite part001_update_paused by assumption; lra|].
  rewrite part001_update_spacecraft by assumption.
  now apply physics_fuel_nonneg.
Qed.

Lemma script_update_fuel_le (g g' : Game) :
  Script.update g = Some g' ->
  Spacecraft.fuel (spacecraft g') <= Spacecraft.fuel (spacecraft g).
Proof.
  intros U.
  destruct (isGameActive g) eqn:A.
  2:{ unfold Script.update in U; rewrite A in U; injection U as <-; lra. }
  destruct (isPaused g) eqn:P.
  { unfold Script.update in U; rewrite A, P in U; injection U as <-; lra. }
  rewrite (script_update_spacecraft g g') by assumption.
  apply physics_fuel_le. unfold Script.FUEL_CONSUMPTION; lra.
Qed.

Lemma script_update_fuel_nonneg (g g' : Game) :
  Script.update g = Some g' ->
  0 <= Spacecraft.fuel (spacecraft g) ->
  0 <= Spacecraft.fuel (spacecraft g').
Proof.
  intros U H.
  destruct (isGameActive g) eqn:A.
  2:{ unfold Script.update in U; rewrite A in U; injection U as <-; lra. }
  destruct (isPaused g) eqn:P.
  { unfold Script.update in U; rewrite A, P in U; injection U as <-; lra. }
  rewrite (script_update_spacecraft g g') by assumption.
  now apply physics_fuel_nonneg.
Qed.

Lemma part001_tick_fuel_le (g : Game) (k : Keys) :
  Spacecraft.fuel (spacecraft (Part001.tick g k))
  <= Spacecraft.fuel (spacecraft g).
Proof. apply (part001_update_fuel_le (with_keys g k)). Qed.

Lemma part001_tick_fuel_range (g : Game) (k : Keys) :
  0 <= Spacecraft.fuel (spacecraft g) <= 100 ->
  0 <= Spacecraft.fuel (spacecraft (Part001.tick g k)) <= 100.
Proof.
  intros [H0 H1]; split.
  - now apply (part001_update_fuel_nonneg (with_keys g k)).
  - pose proof (part001_tick_fuel_le g k); lra.
Qed.

Lemma part001_run_fuel_range (ks : list Keys) (g : Game) :
  0 <= Spacecraft.fuel (spacecraft g) <= 100 ->
  0 <= Spacecraft.fuel (spacecraft (Part001.run g ks)) <= 100.
Proof.
  revert g; induction ks as [|k ks IH]; intros g H; [exact H|].
  apply IH, part001_tick_fuel_range, H.
Qed.

Lemma part001_run_fuel_le (ks : list Keys) (g : Game) :
  Spacecraft.fuel (spacecraft (Part001.run g ks))
  <= Spacecraft.fuel (spacecraft g).
Proof.
  revert g; induction ks as [|k ks IH]; intros g; [cbn; lra|].
  cbn. pose proof (IH (Part001.tick g k)).
  pose proof (part001_tick_fuel_le g k). unfold Part001.run in *. lra.
Qed.

(** C4. Fuel never rises and stays in the tank's range.  In [part_001] a
    frame, whatever the keys and whatever the state, leaves at most the fuel
    it found, and so does any run of frames; fuel that was between 0 and the
    100 of a fresh tank stays there, so after [reset] and any run of frames
    it is between 0 and 100, never negative.  [script.js] has the same
    step: whenever its [update] returns, fuel has not risen and has stayed
    in range. *)
Theorem fuel_never_rises_and_stays_in_range :
  (forall (g : Game) (k : Keys),
      Spacecraft.fuel (spacecraft (Part001.tick g k))
      <= Spacecraft.fuel (spacecraft g))
  /\ (forall (g : Game) (ks : list Keys),
      Spacecraft.fuel (spacecraft (Part001.run g ks))
      <= Spacecraft.fuel (spacecraft g))
  /\ (forall (g : Game) (k : Keys),
      0 <= Spacecraft.fuel (spacecraft g) <= 100 ->
      0 <= Spacecraft.fuel (spacecraft (Part001.tick g k)) <= 100)
  /\ (forall (random : nat -> R) (g : Game) (ks : list Keys),
      0 <= Spacecraft.fuel
             (spacecraft (Part001.run (Part001.reset random g) ks)) <= 100)
  /\ (forall g g' : Game,
      Script.update g = Some g' ->
      Spacecraft.fuel (spacecraft g') <= Spacecraft.fuel (spacecraft g)
      /\ (0 <= Spacecraft.fuel (spacecraft g) <= 100 ->
          0 <= Spacecraft.fuel (spacecraft g') <= 100)).
Proof.
  split; [exact part001_tick_fuel_le|].
  split; [intros g ks; apply part001_run_fuel_le|].
  split; [exact part001_tick_fuel_range|].
  split.
  - intros random g ks. apply part001_run_fuel_range. cbn. lra.
  - intros g g' U.
    pose proof (script_update_fuel_le g g' U) as L.
    split; [exact L|]. intros [H0 H1]; split; [|lra].
    now apply (script_update_fuel_nonneg g g' U).
Qed.

(** ** The intersection test on degenerate input *)

(** C6. [lineSegmentsIntersect] answers [false], without dividing, when the
    determinant of the two direction vectors is zero, and in particular when
    either segment has no length. *)
Theorem lineSegmentsIntersect_degenerate (x1 y1 x2 y2 x3 y3 x4 y4 : R) :
  (x2 - x1) * (y4 - y3) - (y2 - y1) * (x4 - x3) = 0
  \/ (x1 = x2 /\ y1 = y2)
  \/ (x3 = x4 /\ y3 = y4) ->
  Part001.lineSegmentsIntersect x1 y1 x2 y2 x3 y3 x4 y4 = false.
Proof.
  intros H.
  assert (D : (x2 - x1) * (y4 - y3) - (y2 - y1) * (x4 - x3) = 0).
  { destruct H as [H|[[-> ->]|[-> ->]]]; [exact H|ring|ring]. }
  unfold Part001.lineSegmentsIntersect.
  apply eqb_true in D. cbv zeta. rewrite D. reflexivity.
Qed.

(** Two parallel unit diagonals, then a segment of no length. *)
Lemma lineSegmentsIntersect_degenerate_witness :
  Part001.lineSegmentsIntersect 0 0 1 1 0 1 1 2 = false
  /\ Part001.lineSegmentsIntersect 0 0 0 0 (-1) (-1) 1 1 = false.
Proof.
  split.
  - apply lineSegmentsIntersect_degenerate. left. lra.
  - apply lineSegmentsIntersect_degenerate. right. left. split; reflexivity.
Defined.

(** ** After the end *)

Lemma part001_tick_inactive (g : Game) (k : Keys) :
  isGameActive g = false -> Part001.tick g k = with_keys g k.
Proof. intros H; unfold Part001.tick. now apply part001_update_inactive. Qed.

(** C9. Once [endGame] has cleared [isGameActive], [update] returns at its
    guard: over any further run of frames, whatever keys are pressed, the
    craft (position, velocity, rotation, fuel), the moon's rotation and the
    verdict on the dialog stay as the last active frame left them, and the
    game stays ended.  Only [reset], which the restart button reaches,
    sets [isGameActive] again. *)
Theorem ended_game_is_frozen (g : Game) (ks : list Keys) :
  isGameActive g = false ->
  spacecraft (Part001.run g ks) = spacecraft g
  /\ moonRotation (Part001.run g ks) = moonRotation g
  /\ modal (Part001.run g ks) = modal g
  /\ isGameActive (Part001.run g ks) = false.
Proof.
  revert g; induction ks as [|k ks IH]; intros g H; [now repeat split|].
  cbn. rewrite (part001_tick_inactive g k H).
  destruct (IH (with_keys g k) H) as (S & M & D & A).
  unfold Part001.run in *. rewrite S, M, D, A. now repeat split.
Qed.

Lemma fuel_never_rises_and_stays_in_range_witness :
  0 <= Spacecraft.fuel (spacecraft (Part001.tick fresh thrustKey)) <= 100
  /\ 0 <= Spacecraft.fuel (spacecraft ended) <= 100.
Proof.
  destruct fuel_never_rises_and_stays_in_range as (_ & _ & T & _ & S).
  split.
  - apply (T fresh thrustKey). cbn. lra.
  - apply (S ended ended); [reflexivity|]. cbn. lra.
Defined.

Lemma ended_game_is_frozen_witness :
  spacecraft (Part001.run ended [thrustKey; noKeys]) = spacecraft ended
  /\ moonRotation (Part001.run ended [thrustKey; noKeys]) = moonRotation ended
  /\ modal (Part001.run ended [thrustKey; noKeys]) = modal ended
  /\ isGameActive (Part001.run ended [thrustKey; noKeys]) = false.
Proof.
  apply (ended_game_is_frozen ended [thrustKey; noKeys]). reflexivity.
Defined.

(** ** The verdict *)

Lemma part001_verdict (g : Game) (s : Z) :
  Part001.collision g = Some s ->
  outcome_part001 (Part001.checkCollision g)
  = Some (classify (Part001.isInLandingZone g s) (Part001.isUprightLanding g)
            (Part001.isSoftLanding g))
  /\ isGameActive (Part001.checkCollision g) = false.
Proof.
  intros H; unfold Part001.checkCollision; rewrite H.
  destruct (Part001.isInLandingZone g s), (Part001.isUprightLanding g),
    (Part001.isSoftLanding g); split; reflexivity.
Qed.

Lemma script_verdict (g : Game) (p : Point.t) :
  Script.surfacePoint g = Some p ->
  Script.distanceToCenter g < Script.surfaceDistance p g ->
  exists g', Script.checkCollision g = Some g'
    /\ outcome_script g'
       = Some (classify (Script.isInLandingZone g) (Script.isUprightLanding g)
                 (Script.isSoftLanding g))
    /\ isGameActive g' = false.
Proof.
  intros H D; unfold Script.checkCollision; rewrite H.
  assert (E : JS.geb (Script.distanceToCenter g) (Script.surfaceDistance p g)
              = false) by (apply leb_false; exact D).
  rewrite E.
  destruct (Script.isInLandingZone g), (Script.isUprightLanding g),
    (Script.isSoftLanding g); eexists; repeat split; reflexivity.
Qed.

(** The four verdicts in terms of the three checks. *)
Lemma classify_cases (inZone upright soft : bool) (Pz Pu Ps : Prop) :
  (inZone = true <-> Pz) -> (upright = true <-> Pu) -> (soft = true <-> Ps) ->
  let o := Some (classify inZone upright soft) in
  (o = Some Landed <-> Pz /\ Pu /\ Ps)
  /\ (o = Some (Crashed MissedZone) <-> ~ Pz)
  /\ (o = Some (Crashed NotUpright) <-> Pz /\ ~ Pu)
  /\ (o = Some (Crashed TooFast) <-> Pz /\ Pu /\ ~ Ps).
Proof.
  intros HZ HU HS.
  destruct inZone, upright, soft; cbn;
    repeat split; intros; try discriminate; try reflexivity;
    intuition (try discriminate; auto).
Qed.

(** C1. On a collision with segment [s], [checkCollision] of [part_001]
    ends the game with exactly one verdict: [Landed] exactly when the zone
    test [|s - landingZoneIndex| <= 1], the upright test and the speed test
    [speed <= 2.5] all pass, otherwise the crash named after the first test
    that fails in the order zone, upright, speed.  [checkCollision] of
    [script.js] does the same with its own collision and upright tests. *)
Theorem verdict_is_first_failing_check :
  (forall (g : Game) (s : Z),
      Part001.collision g = Some s ->
      let inZone := (Z.abs (s - landingZoneIndex g) <= 1)%Z in
      let upright :=
        Rabs (Part001.normalizedRotation g) <= ACCEPTABLE_LANDING_ANGLE in
      let soft := Part001.speed g <= ACCEPTABLE_LANDING_SPEED in
      let o := outcome_part001 (Part001.checkCollision g) in
      (o = Some Landed <-> inZone /\ upright /\ soft)
      /\ (o = Some (Crashed MissedZone) <-> ~ inZone)
      /\ (o = Some (Crashed NotUpright) <-> inZone /\ ~ upright)
      /\ (o = Some (Crashed TooFast) <-> inZone /\ upright /\ ~ soft)
      /\ isGameActive (Part001.checkCollision g) = false)
  /\ (forall (g : Game) (p : Point.t),
      Script.surfacePoint g = Some p ->
      Script.distanceToCenter g < Script.surfaceDistance p g ->
      let inZone :=
        (Z.abs (Script.closestSegmentIndex g - landingZoneIndex g) <= 1)%Z in
      let upright :=
        Rabs (Spacecraft.rotation (spacecraft g))
        <= ACCEPTABLE_LANDING_ANGLE in
      let soft := Script.speed g <= ACCEPTABLE_LANDING_SPEED in
      exists g', Script.checkCollision g = Some g'
        /\ (outcome_script g' = Some Landed <-> inZone /\ upright /\ soft)
        /\ (outcome_script g' = Some (Crashed MissedZone) <-> ~ inZone)
        /\ (outcome_script g' = Some (Crashed NotUpright)
            <-> inZone /\ ~ upright)
        /\ (outcome_script g' = Some (Crashed TooFast)
            <-> inZone /\ upright /\ ~ soft)
        /\ isGameActive g' = false).
Proof.
  split.
  - intros g s H inZone upright soft o.
    destruct (part001_verdict g s H) as [V A].
    subst o; rewrite V.
    pose proof (classify_cases (Part001.isInLandingZone g s)
                  (Part001.isUprightLanding g) (Part001.isSoftLanding g)
                  inZone upright soft) as C.
    cbv zeta in C.
    destruct C as (C1 & C2 & C3 & C4).
    + apply Z.leb_le.
    + apply leb_true.
    + apply leb_true.
    + repeat split; try tauto.
  - intros g p H D inZone upright soft.
    destruct (script_verdict g p H D) as (g' & E & V & A).
    exists g'. rewrite V.
    pose proof (classify_cases (Script.isInLandingZone g)
                  (Script.isUprightLanding g) (Script.isSoftLanding g)
                  inZone upright soft) as C.
    cbv zeta in C.
    destruct C as (C1 & C2 & C3 & C4).
    + apply Z.leb_le.
    + apply leb_true.
    + apply leb_true.
    + repeat split; try tauto.
Qed.

(** ** The scan over the moon's segments *)

Lemma rotatePoint_zero (p c : Point.t) : rotatePoint p c 0 = p.
Proof.
  unfold rotatePoint, JS.Math_cos, JS.Math_sin. rewrite cos_0, sin_0.
  destruct p as [px py]; cbn. f_equal; ring.
Qed.

Lemma part001_rotatedPoints_zero (g : Game) :
  moonRotation g = 0 -> Part001.rotatedPoints g = moonPoints g.
Proof.
  intros H; unfold Part001.rotatedPoints; rewrite H.
  induction (moonPoints g) as [|p l IH]; [reflexivity|].
  cbn. now rewrite rotatePoint_zero, IH.
Qed.

Lemma part001_rotatedPoints_length (g : Game) :
  List.length (Part001.rotatedPoints g) = List.length (moonPoints g).
Proof. apply length_map. Qed.

Lemma lineSegmentsIntersect_true (x1 y1 x2 y2 x3 y3 x4 y4 : R) :
  Part001.lineSegmentsIntersect x1 y1 x2 y2 x3 y3 x4 y4 = true
  <-> let d := (x2 - x1) * (y4 - y3) - (y2 - y1) * (x4 - x3) in
      d <> 0
      /\ 0 <= ((x3 - x1) * (y4 - y3) - (y3 - y1) * (x4 - x3)) / d <= 1
      /\ 0 <= ((x3 - x1) * (y2 - y1) - (y3 - y1) * (x2 - x1)) / d <= 1.
Proof.
  unfold Part001.lineSegmentsIntersect; cbv zeta.
  destruct (JS.eqb _ 0) eqn:E.
  - apply eqb_true in E. split; [discriminate|]. intros [D _]. now destruct D.
  - apply eqb_false in E.
    rewrite !andb_true_iff, !geb_true, !leb_true. tauto.
Qed.

Lemma boxIntersects_true (cs : list Point.t) (p1 p2 : Point.t) :
  Part001.boxIntersects cs p1 p2 = true
  <-> exists j, (j < 4)%nat /\ Part001.sideIntersects cs p1 p2 j = true.
Proof.
  unfold Part001.boxIntersects. rewrite existsb_exists. split.
  - intros (j & I & H). exists j. split; [|exact H].
    apply in_seq in I. lia.
  - intros (j & I & H). exists j. split; [|exact H].
    apply in_seq. lia.
Qed.

Lemma findCollision_some (cs : list Point.t) (points : list Point.t) :
  forall (i s : Z),
    Part001.findCollision cs i points = Some s ->
    exists (n : nat) (p1 p2 : Point.t),
      s = (i + Z.of_nat n)%Z
      /\ nth_error points n = Some p1
      /\ nth_error points (S n) = Some p2
      /\ Part001.boxIntersects cs p1 p2 = true
      /\ forall (m : nat) (q1 q2 : Point.t),
           (m < n)%nat ->
           nth_error points m = Some q1 ->
           nth_error points (S m) = Some q2 ->
           Part001.boxIntersects cs q1 q2 = false.
Proof.
  induction points as [|p1 rest IH]; intros i s H; [discriminate|].
  destruct rest as [|p2 rest]; [discriminate|].
  change (Part001.findCollision cs i (p1 :: p2 :: rest))
    with (if Part001.boxIntersects cs p1 p2 then Some i
          else Part001.findCollision cs (i + 1) (p2 :: rest)) in H.
  destruct (Part001.boxIntersects cs p1 p2) eqn:B.
  - injection H as <-. exists O, p1, p2.
    repeat split; [lia|exact B|]. intros m q1 q2 Hm; lia.
  - destruct (IH _ _ H) as (n & a & b & -> & Ha & Hb & Hab & Hfirst).
    exists (S n), a, b. repeat split; [lia|exact Ha|exact Hb|exact Hab|].
    intros [|m] q1 q2 Hm H1 H2.
    + cbn in H1, H2. now injection H1 as <-; injection H2 as <-.
    + apply (Hfirst m q1 q2); [lia|exact H1|exact H2].
Qed.

Lemma findCollision_none (cs : list Point.t) (points : list Point.t) :
  forall i : Z,
    Part001.findCollision cs i points = None
    <-> forall (m : nat) (q1 q2 : Point.t),
          nth_error points m = Some q1 ->
          nth_error points (S m) = Some q2 ->
          Part001.boxIntersects cs q1 q2 = false.
Proof.
  induction points as [|p1 rest IH]; intros i.
  - split; [|reflexivity]. intros _ [|m]; discriminate.
  - destruct rest as [|p2 rest].
    + split; [|reflexivity]. intros _ [|[|m]]; discriminate.
    + change (Part001.findCollision cs i (p1 :: p2 :: rest))
        with (if Part001.boxIntersects cs p1 p2 then Some i
              else Part001.findCollision cs (i + 1) (p2 :: rest)).
      destruct (Part001.boxIntersects cs p1 p2) eqn:B.
      * split; [discriminate|]. intros H.
        specialize (H O p1 p2 eq_refl eq_refl). congruence.
      * rewrite IH. split.
        -- intros H [|m] q1 q2 H1 H2.
           ++ cbn in H1, H2. now injection H1 as <-; injection H2 as <-.
           ++ apply (H m q1 q2); assumption.
        -- intros H m q1 q2 H1 H2. apply (H (S m) q1 q2); assumption.
Qed.

(** ** Velocity and position after the physics step *)

Section PhysicsVelocity.

Variables FUEL_CONSUMPTION ROTATION_SPEED : R.

Let physics := Common.update_physics FUEL_CONSUMPTION ROTATION_SPEED.

(** The velocity after the step: the thrust term, when the key is down
    and fuel is left, and the gravity term, whose direction is the angle
    [Math.atan2] returns for the vector from the craft to the center. *)
Lemma physics_velocity (g : Game) :
  let s := spacecraft g in
  let r0 := if ArrowLeft (keys g)
            then Spacecraft.rotation s - ROTATION_SPEED * dt
            else Spacecraft.rotation s in
  let r := if ArrowRight (keys g) then r0 + ROTATION_SPEED * dt else r0 in
  let thrust :=
    if ArrowUp (keys g) && JS.gtb (Spacecraft.fuel s) 0
    then THRUST_FORCE * dt else 0 in
  let gravityAngle :=
    JS.Math_atan2 (Point.y (moonCenter g) - Spacecraft.y s)
      (Point.x (moonCenter g) - Spacecraft.x s) in
  Spacecraft.velocityX (spacecraft (physics g))
  = Spacecraft.velocityX s + JS.Math_sin (r * PI / 180) * thrust
    + JS.Math_cos gravityAngle * MOON_GRAVITY * dt
  /\ Spacecraft.velocityY (spacecraft (physics g))
     = Spacecraft.velocityY s - JS.Math_cos (r * PI / 180) * thrust
       + JS.Math_sin gravityAngle * MOON_GRAVITY * dt.
Proof.
  unfold physics, Common.update_physics. cbn.
  destruct (ArrowLeft (keys g)), (ArrowRight (keys g)); cbn;
    destruct (ArrowUp (keys g) && JS.gtb (Spacecraft.fuel (spacecraft g)) 0);
    cbn; split; ring.
Qed.

Lemma physics_no_thrust (g : Game) :
  ArrowUp (keys g) = false ->
  let s := spacecraft g in
  let gravityAngle :=
    JS.Math_atan2 (Point.y (moonCenter g) - Spacecraft.y s)
      (Point.x (moonCenter g) - Spacecraft.x s) in
  let vx :=
    Spacecraft.velocityX s + JS.Math_cos gravityAngle * MOON_GRAVITY * dt in
  let vy :=
    Spacecraft.velocityY s + JS.Math_sin gravityAngle * MOON_GRAVITY * dt in
  Spacecraft.velocityX (spacecraft (physics g)) = vx
  /\ Spacecraft.velocityY (spacecraft (physics g)) = vy
  /\ Spacecraft.x (spacecraft (physics g))
     = Spacecraft.x s + vx * dt * scale g
  /\ Spacecraft.y (spacecraft (physics g))
     = Spacecraft.y s + vy * dt * scale g.
Proof.
  intros U. unfold physics, Common.update_physics. cbn. rewrite U.
  destruct (ArrowLeft (keys g)), (ArrowRight (keys g)); cbn;
    repeat split; reflexivity.
Qed.

End PhysicsVelocity.

(** ** The sample scenes, evaluated *)

Ltac side_true :=
  apply lineSegmentsIntersect_true; cbv zeta; split; [lra | split; lra].

Ltac side_false :=
  let H := fresh "H" in
  let D := fresh "D" in
  apply not_true_iff_false; intros H;
  apply lineSegmentsIntersect_true in H; cbv zeta in H;
  destruct H as (D & ? & ?); first [lra | apply D; lra].

Ltac pick_side :=
  cbn [nth Nat.add Nat.modulo Nat.divmod fst snd Nat.sub Point.x Point.y].

Lemma scene_corners (points : list Point.t) (zone : Z) :
  Part001.corners (scene points zone (Spacecraft.mk 0 0 0 0 0 100))
  = [ Point.mk (-1.6) 3.2; Point.mk 1.6 3.2;
      Point.mk 1.6 (-3.2); Point.mk (-1.6) (-3.2) ].
Proof.
  unfold Part001.corners, scene, JS.Math_cos, JS.Math_sin; cbn.
  replace (0 * PI / 180) with 0 by lra. rewrite cos_0, sin_0.
  unfold Part001.SPACECRAFT_HEIGHT.
  repeat (f_equal; try lra).
Qed.

Lemma findCollision_first (cs : list Point.t) (i : Z) (p1 p2 : Point.t)
    (rest : list Point.t) :
  Part001.boxIntersects cs p1 p2 = true ->
  Part001.findCollision cs i (p1 :: p2 :: rest) = Some i.
Proof. intros H; cbn [Part001.findCollision]; now rewrite H. Qed.

Lemma touching_collision : Part001.collision touching = Some 0%Z.
Proof.
  unfold Part001.collision. rewrite part001_rotatedPoints_zero by reflexivity.
  unfold touching. rewrite scene_corners. cbn [moonPoints scene].
  apply findCollision_first, boxIntersects_true.
  exists 1%nat. split; [lia|].
  unfold Part001.sideIntersects. pick_side. side_true.
Qed.

(** The three stored sides of the ring miss the box. *)
Lemma overClosingSide_no_collision :
  Part001.collision overClosingSide = None.
Proof.
  unfold Part001.collision. rewrite part001_rotatedPoints_zero by reflexivity.
  unfold overClosingSide. rewrite scene_corners. cbn [moonPoints scene].
  apply findCollision_none. intros m q1 q2 H1 H2.
  apply not_true_iff_false. intros B. apply boxIntersects_true in B.
  destruct B as (j & Hj & B). revert B. apply not_true_iff_false.
  unfold Part001.sideIntersects.
  destruct m as [|[|[|[|m]]]]; cbn in H1, H2; try discriminate;
    injection H1 as <-; injection H2 as <-;
    destruct j as [|[|[|[|j]]]]; try lia; pick_side; side_false.
Qed.

(** Its closing side, from the last stored point back to the first, cuts
    the box. *)
Lemma overClosingSide_closing_side_cuts :
  Part001.boxIntersects (Part001.corners overClosingSide)
    (Point.mk (-10) 3) (Point.mk 10 3) = true.
Proof.
  unfold overClosingSide. rewrite scene_corners.
  apply boxIntersects_true. exists 1%nat. split; [lia|].
  unfold Part001.sideIntersects. pick_side. side_true.
Qed.

Lemma trunc_small (a : R) : -1 < a < 1 -> JS.trunc a = 0%Z.
Proof.
  intros H; unfold JS.trunc. destruct (Rle_dec 0 a).
  - symmetry; apply Int_part_spec; cbn; lra.
  - destruct (Req_dec_T a 0) as [->|N]; [lra|].
    replace (Int_part (- a)) with 0%Z; [reflexivity|].
    apply Int_part_spec; cbn; lra.
Qed.

(** A dividend smaller than the divisor is its own remainder. *)
Lemma rem_small (a n : R) : 0 < n -> - n < a < n -> JS.rem a n = a.
Proof.
  intros Hn H; unfold JS.rem. rewrite trunc_small; [cbn; ring|].
  pose proof (Rinv_0_lt_compat n Hn) as I.
  assert (E : a / n * n = a) by (field; lra).
  split; nra.
Qed.

(** Straight above the center (smaller [y] is higher on the canvas) the
    center lies at 90 degrees. *)
Lemma angleToCenter_above (g : Game) :
  Spacecraft.x (spacecraft g) = Point.x (moonCenter g) ->
  Spacecraft.y (spacecraft g) < Point.y (moonCenter g) ->
  Part001.angleToCenter g = 90.
Proof.
  intros Hx Hy; unfold Part001.angleToCenter. rewrite Hx.
  replace (Point.x (moonCenter g) - Point.x (moonCenter g)) with 0 by ring.
  rewrite atan2_up by lra. field. apply PI_neq0.
Qed.

Lemma normalizedRotation_above (g : Game) :
  Spacecraft.x (spacecraft g) = Point.x (moonCenter g) ->
  Spacecraft.y (spacecraft g) < Point.y (moonCenter g) ->
  -180 <= Spacecraft.rotation (spacecraft g) <= 180 ->
  Part001.normalizedRotation g = Spacecraft.rotation (spacecraft g).
Proof.
  intros Hx Hy Hr. unfold Part001.normalizedRotation, Part001.relativeRotation.
  rewrite (angleToCenter_above g Hx Hy).
  replace (Spacecraft.rotation (spacecraft g) + 90 - 90)
    with (Spacecraft.rotation (spacecraft g)) by ring.
  rewrite rem_small by lra.
  unfold JS.gtb. rewrite (proj2 (ltb_false _ _)) by lra.
  rewrite (proj2 (ltb_false _ _)) by lra. reflexivity.
Qed.

Lemma script_rotatedPoints_zero (g : Game) :
  moonRotation g = 0 -> Script.rotatedPoints g = moonPoints g.
Proof.
  intros H; unfold Script.rotatedPoints; rewrite H.
  induction (moonPoints g) as [|p l IH]; [reflexivity|].
  cbn. now rewrite rotatePoint_zero, IH.
Qed.

Lemma sunk_surfacePoint : Script.surfacePoint sunk = Some (Point.mk (-10) 2).
Proof.
  unfold Script.surfacePoint, Script.closestSegmentIndex.
  rewrite script_rotatedPoints_zero by reflexivity. reflexivity.
Qed.

Lemma sunk_closestSegmentIndex : Script.closestSegmentIndex sunk = 0%Z.
Proof.
  unfold Script.closestSegmentIndex.
  rewrite script_rotatedPoints_zero by reflexivity. reflexivity.
Qed.

Lemma sunk_below_surface :
  Script.distanceToCenter sunk
  < Script.surfaceDistance (Point.mk (-10) 2) sunk.
Proof.
  unfold Script.distanceToCenter, Script.surfaceDistance, JS.Math_sqrt,
    JS.Math_pow2, Script.spacecraftBottom, Script.SPACECRAFT_HEIGHT; cbn.
  apply sqrt_lt_1; lra.
Qed.

(** An upright craft at rest on the zone lands, in either file. *)
Lemma verdict_is_first_failing_check_witness :
  outcome_part001 (Part001.checkCollision touching) = Some Landed
  /\ exists g', Script.checkCollision sunk = Some g'
                /\ outcome_script g' = Some Landed.
Proof.
  destruct verdict_is_first_failing_check as [P S]. split.
  - destruct (P touching 0%Z touching_collision) as (L & _).
    apply L. split; [cbn; lia|]. split.
    + rewrite normalizedRotation_above; cbn; try lra.
      rewrite Rabs_R0. unfold ACCEPTABLE_LANDING_ANGLE. lra.
    + unfold Part001.speed, JS.Math_sqrt; cbn.
      replace (0 * 0 + 0 * 0) with 0 by ring. rewrite sqrt_0.
      unfold ACCEPTABLE_LANDING_SPEED. lra.
  - destruct (S sunk (Point.mk (-10) 2) sunk_surfacePoint sunk_below_surface)
      as (g' & E & L & _).
    exists g'. split; [exact E|]. apply L.
    split; [rewrite sunk_closestSegmentIndex; cbn; lia|]. split.
    + cbn. rewrite Rabs_R0. unfold ACCEPTABLE_LANDING_ANGLE. lra.
    + unfold Script.speed, JS.Math_sqrt; cbn.
      replace (0 * 0 + 0 * 0) with 0 by ring. rewrite sqrt_0.
      unfold ACCEPTABLE_LANDING_SPEED. lra.
Defined.

(** ** No collision, no verdict *)

(** When no side of the box intersects a segment, the scan of [part_001]
    reports nothing. *)
Lemma part001_no_collision (g : Game) :
  (forall (m : nat) (p1 p2 : Point.t) (j : nat),
      nth_error (Part001.rotatedPoints g) m = Some p1 ->
      nth_error (Part001.rotatedPoints g) (S m) = Some p2 ->
      (j < 4)%nat ->
      Part001.sideIntersects (Part001.corners g) p1 p2 j = false) ->
  Part001.collision g = None.
Proof.
  intros H. apply findCollision_none. intros m q1 q2 H1 H2.
  apply not_true_iff_false. intros B. apply boxIntersects_true in B.
  destruct B as (j & Hj & B). rewrite (H m q1 q2 j H1 H2 Hj) in B.
  discriminate.
Qed.

(** [script.js] has a test of its own: when the bottom point is at least
    as far from the center as the start of the closest segment,
    [checkCollision] returns the game as it found it. *)
Lemma script_no_collision (g : Game) (p : Point.t) :
  Script.surfacePoint g = Some p ->
  Script.surfaceDistance p g <= Script.distanceToCenter g ->
  Script.checkCollision g = Some g.
Proof.
  intros H D; unfold Script.checkCollision; rewrite H.
  now rewrite (proj2 (geb_true _ _) D).
Qed.

(** ** The closing side of the ring *)

(** C10. The scan of [part_001] pairs each stored point with the next
    stored point only.  A collision it reports is with a segment [s]
    between 0 and [moonPoints.length - 2], the first such segment a side of
    the box intersects; and if no side of the box intersects any of these
    segments, no collision is reported and [checkCollision] changes nothing,
    whatever the box does to the closing side from the last stored point
    back to the first (index [moonPoints.length - 1]). *)
Theorem closing_side_is_never_tested (g : Game) :
  (forall s : Z,
      Part001.collision g = Some s ->
      (0 <= s <= Z.of_nat (List.length (moonPoints g)) - 2)%Z
      /\ exists p1 p2 : Point.t,
           nth_error (Part001.rotatedPoints g) (Z.to_nat s) = Some p1
           /\ nth_error (Part001.rotatedPoints g) (S (Z.to_nat s)) = Some p2
           /\ Part001.boxIntersects (Part001.corners g) p1 p2 = true)
  /\ ((forall (m : nat) (p1 p2 : Point.t),
          nth_error (Part001.rotatedPoints g) m = Some p1 ->
          nth_error (Part001.rotatedPoints g) (S m) = Some p2 ->
          Part001.boxIntersects (Part001.corners g) p1 p2 = false) ->
      Part001.collision g = None /\ Part001.checkCollision g = g).
Proof.
  split.
  - intros s H. unfold Part001.collision in H.
    destruct (findCollision_some _ _ _ _ H)
      as (n & p1 & p2 & -> & H1 & H2 & B & _).
    assert (L : (S n < List.length (Part001.rotatedPoints g))%nat).
    { apply nth_error_Some. congruence. }
    rewrite part001_rotatedPoints_length in L.
    split; [lia|]. exists p1, p2.
    replace (Z.to_nat (0 + Z.of_nat n)) with n by lia. now repeat split.
  - intros H.
    assert (N : Part001.collision g = None)
      by (apply findCollision_none; exact H).
    split; [exact N|]. unfold Part001.checkCollision. now rewrite N.
Qed.

(** The ring whose closing side cuts the box: nothing is reported.  And the
    scene with one segment under the box: segment 0 is reported. *)
Lemma closing_side_is_never_tested_witness :
  Part001.boxIntersects (Part001.corners overClosingSide)
    (Point.mk (-10) 3) (Point.mk 10 3) = true
  /\ nth_error (moonPoints overClosingSide) 3 = Some (Point.mk (-10) 3)
  /\ nth_error (moonPoints overClosingSide) 0 = Some (Point.mk 10 3)
  /\ Part001.collision overClosingSide = None
  /\ Part001.checkCollision overClosingSide = overClosingSide
  /\ (0 <= 0 <= Z.of_nat (List.length (moonPoints touching)) - 2)%Z.
Proof.
  split; [exact overClosingSide_closing_side_cuts|].
  split; [reflexivity|]. split; [reflexivity|].
  destruct (closing_side_is_never_tested overClosingSide) as [_ N].
  destruct (closing_side_is_never_tested touching) as [S _].
  split; [|split].
  - apply N. apply (proj1 (findCollision_none _ _ 0%Z)).
    exact overClosingSide_no_collision.
  - apply N. apply (proj1 (findCollision_none _ _ 0%Z)).
    exact overClosingSide_no_collision.
  - apply (S 0%Z touching_collision).
Defined.

(** ** The generated surface *)

Section Surface.

Variable MOON_BUMPINESS : R.
Variable MOON_SEGMENTS : Z.
Variable random : nat -> R.
Hypothesis random_unit : forall k : nat, 0 <= random k < 1.
Variables radius centerX centerY : R.
Hypothesis bump_nonneg : 0 <= radius * MOON_BUMPINESS.
Variable zone : Z.

Let loop :=
  Common.generateMoon_loop MOON_BUMPINESS MOON_SEGMENTS random radius
    centerX centerY zone.

Lemma generateMoon_loop_length (n : nat) :
  forall (i : Z) (k : nat), List.length (loop n i k) = n.
Proof.
  induction n as [|n IH]; intros i k; [reflexivity|].
  cbn. now rewrite IH.
Qed.

(** Every point the loop pushes sits at its angle, at the radius plus an
    offset that is zero in the zone and within half the bumpiness
    elsewhere. *)
Lemma generateMoon_loop_nth (n : nat) :
  forall (i : Z) (k j : nat) (p : Point.t),
    nth_error (loop n i k) j = Some p ->
    exists offset : R,
      p = Point.mk
            (centerX
             + JS.Math_cos (PI * 2 / IZR MOON_SEGMENTS * IZR (i + Z.of_nat j))
               * (radius + offset))
            (centerY
             - JS.Math_sin (PI * 2 / IZR MOON_SEGMENTS * IZR (i + Z.of_nat j))
               * (radius + offset))
      /\ ((zone <= i + Z.of_nat j <= zone + 1)%Z -> offset = 0)
      /\ (~ (zone <= i + Z.of_nat j <= zone + 1)%Z ->
          - (radius * MOON_BUMPINESS / 2) <= offset
          <= radius * MOON_BUMPINESS / 2).
Proof.
  induction n as [|n IH]; intros i k j p H; [destruct j; discriminate|].
  destruct j as [|j].
  - cbn in H. injection H as <-.
    replace (i + Z.of_nat 0)%Z with i by lia.
    destruct ((zone <=? i)%Z && (i <=? zone + 1)%Z) eqn:E.
    + exists 0. split; [reflexivity|]. split; [reflexivity|].
      intros _. lra.
    + exists ((random k - 0.5) * radius * MOON_BUMPINESS).
      split; [reflexivity|]. split.
      * intros [Z1 Z2]. apply Z.leb_le in Z1, Z2.
        rewrite Z1, Z2 in E. discriminate.
      * intros _. pose proof (random_unit k). nra.
  - cbn in H. apply IH in H. destruct H as (offset & -> & Hz & Hn).
    replace (i + 1 + Z.of_nat j)%Z with (i + Z.of_nat (S j))%Z in * by lia.
    exists offset. split; [reflexivity|]. split; assumption.
Qed.

End Surface.

(** A point at angle [a] and distance [r] from the center is at distance
    [r]. *)
Lemma on_circle (centerX centerY a r : R) :
  0 <= r ->
  JS.Math_sqrt
    (JS.Math_pow2 (centerX + JS.Math_cos a * r - centerX)
     + JS.Math_pow2 (centerY - JS.Math_sin a * r - centerY))
  = r.
Proof.
  intros H. unfold JS.Math_sqrt, JS.Math_pow2.
  replace ((centerX + JS.Math_cos a * r - centerX)
           * (centerX + JS.Math_cos a * r - centerX)
           + (centerY - JS.Math_sin a * r - centerY)
             * (centerY - JS.Math_sin a * r - centerY))
    with (r * r * (JS.Math_cos a * JS.Math_cos a
                   + JS.Math_sin a * JS.Math_sin a)) by ring.
  rewrite cos2_sin2, Rmult_1_r. now apply sqrt_square.
Qed.

Lemma generateMoon_surface (bumpiness : R) (segments : Z)
    (random : nat -> R) (g : Game) :
  0 <= bumpiness ->
  (forall k : nat, 0 <= random k < 1) ->
  0 <= scale g ->
  flatZoneBumpyElsewhere bumpiness segments
    (Common.generateMoon bumpiness segments random g).
Proof.
  intros Hb Hr Hs i p H.
  assert (R0 : 0 <= MOON_RADIUS * scale g)
    by (unfold MOON_RADIUS; lra).
  cbn [moonPoints Common.generateMoon] in H.
  apply generateMoon_loop_nth in H; [|exact Hr|nra].
  destruct H as (offset & -> & Hz & Hn).
  replace (0 + Z.of_nat i)%Z with (Z.of_nat i) in * by lia.
  exists offset. split; [reflexivity|]. split.
  - intros Z. specialize (Hz Z). subst offset. split; [reflexivity|].
    unfold centerDistance.
    cbn [moonCenter moonRadius Common.generateMoon Point.x Point.y].
    rewrite Rplus_0_r. now apply on_circle.
  - intros N. apply (Hn N).
Qed.

Lemma generateMoon_length (bumpiness : R) (segments : Z)
    (random : nat -> R) (g : Game) :
  List.length (moonPoints (Common.generateMoon bumpiness segments random g))
  = Z.to_nat segments.
Proof. apply generateMoon_loop_length. Qed.

(** The zone starts within [LANDING_ZONE_SPREAD] of a quarter turn. *)
Lemma generateMoon_zone (bumpiness : R) (segments : Z)
    (random : nat -> R) (g : Game) :
  (forall k : nat, 0 <= random k < 1) ->
  let zone :=
    landingZoneIndex (Common.generateMoon bumpiness segments random g) in
  (JS.Math_floor (IZR segments / 4) - 5 <= zone
   <= JS.Math_floor (IZR segments / 4) + 5)%Z.
Proof.
  intros Hr. cbn [landingZoneIndex Common.generateMoon].
  pose proof (Hr O) as H0.
  pose proof (floor_bounds (random O * IZR (LANDING_ZONE_SPREAD * 2 + 1))) as B.
  change (IZR (LANDING_ZONE_SPREAD * 2 + 1)) with 11 in *.
  set (f := JS.Math_floor (random O * 11)) in *.
  assert (L : (-1 < f)%Z) by (apply lt_IZR; cbn; lra).
  assert (U : (f < 11)%Z) by (apply lt_IZR; cbn; lra).
  unfold LANDING_ZONE_SPREAD. lia.
Qed.

Lemma part001_zone_in_range (random : nat -> R) (g : Game) :
  (forall k : nat, 0 <= random k < 1) ->
  (65 <= landingZoneIndex (Part001.generateMoon random g) <= 75)%Z
  /\ List.length (moonPoints (Part001.generateMoon random g)) = 280%nat.
Proof.
  intros Hr. split; [|apply generateMoon_length].
  pose proof (generateMoon_zone Part001.MOON_BUMPINESS Part001.MOON_SEGMENTS
                random g Hr) as H. cbv zeta in H.
  assert (F : JS.Math_floor (IZR Part001.MOON_SEGMENTS / 4) = 70%Z)
    by (apply floor_unique; unfold Part001.MOON_SEGMENTS; lra).
  rewrite F in H. unfold Part001.generateMoon. lia.
Qed.


(** The scale [resizeCanvas] sets is never negative, and [canvas0] has the
    scale of its window. *)
Lemma resizeCanvas_scale (innerWidth innerHeight : R) (g : Game) :
  0 <= innerWidth -> 0 <= innerHeight ->
  0 <= scale (resizeCanvas innerWidth innerHeight g).
Proof.
  intros W H. cbn [scale resizeCanvas].
  pose proof (Rmin_glb _ _ _ W H). lra.
Qed.

Lemma canvas0_resized : resizeCanvas 800 600 canvas0 = canvas0.
Proof.
  unfold resizeCanvas, canvas0; cbn.
  replace (Rmin 800 600 / 200) with 3; [reflexivity|].
  rewrite Rmin_right by lra. lra.
Qed.




(** ** The direction [Math.atan2] encodes *)

Lemma sqrt_unique (a b : R) : 0 <= b -> b * b = a -> sqrt a = b.
Proof. intros Hb <-. now apply sqrt_square. Qed.





(** ** Speed under gravity alone *)



Section Freefall.

Variables FUEL_CONSUMPTION ROTATION_SPEED : R.

Let physics := Common.update_physics FUEL_CONSUMPTION ROTATION_SPEED.


End Freefall.

(** ** The search of [script.js] *)

Lemma closestSegment_range (bottom : Point.t) (points : list Point.t) :
  forall (i : Z) (minDistance : option R) (index : Z),
    let r := Script.closestSegment bottom i points minDistance index in
    r = index \/ (i <= r <= i + Z.of_nat (List.length points) - 2)%Z.
Proof.
  induction points as [|p1 rest IH]; intros i m index; [now left|].
  destruct rest as [|p2 rest]; [now left|].
  cbv zeta.
  change (Script.closestSegment bottom i (p1 :: p2 :: rest) m index)
    with (let distance :=
            Script.distanceToLineSegment (Point.x bottom) (Point.y bottom)
              (Point.x p1) (Point.y p1) (Point.x p2) (Point.y p2) in
          if Script.below distance m
          then Script.closestSegment bottom (i + 1) (p2 :: rest)
                 (Some distance) i
          else Script.closestSegment bottom (i + 1) (p2 :: rest) m index).
  cbv zeta. destruct (Script.below _ m).
  - pose proof (IH (i + 1)%Z
                  (Some (Script.distanceToLineSegment (Point.x bottom)
                           (Point.y bottom) (Point.x p1) (Point.y p1)
                           (Point.x p2) (Point.y p2))) i) as H.
    cbv zeta in H. cbn [List.length] in *. right. lia.
  - pose proof (IH (i + 1)%Z m index) as H.
    cbv zeta in H. cbn [List.length] in *. destruct H; [now left|right; lia].
Qed.

(** The search of [script.js] too stops at the last stored point: with two
    points or more, the segment it settles on starts at one of the indices
    0 to [moonPoints.length - 2]. *)
Lemma script_closestSegmentIndex_range (g : Game) :
  (2 <= List.length (moonPoints g))%nat ->
  (0 <= Script.closestSegmentIndex g
   <= Z.of_nat (List.length (moonPoints g)) - 2)%Z.
Proof.
  intros L. unfold Script.closestSegmentIndex.
  assert (E : List.length (Script.rotatedPoints g) = List.length (moonPoints g))
    by apply length_map.
  rewrite <- E in *.
  destruct (Script.rotatedPoints g) as [|p1 [|p2 rest]];
    [cbn in L; lia | cbn in L; lia |].
  change (Script.closestSegment (Script.spacecraftBottom g) 0
            (p1 :: p2 :: rest) None (-1))
    with (Script.closestSegment (Script.spacecraftBottom g) (0 + 1)
            (p2 :: rest)
            (Some (Script.distanceToLineSegment
                     (Point.x (Script.spacecraftBottom g))
                     (Point.y (Script.spacecraftBottom g))
                     (Point.x p1) (Point.y p1) (Point.x p2) (Point.y p2)))
            0).
  pose proof (closestSegment_range (Script.spacecraftBottom g) (p2 :: rest)
                (0 + 1)%Z
                (Some (Script.distanceToLineSegment
                         (Point.x (Script.spacecraftBottom g))
                         (Point.y (Script.spacecraftBottom g))
                         (Point.x p1) (Point.y p1) (Point.x p2) (Point.y p2)))
                0%Z) as H.
  cbv zeta in H. cbn [List.length] in *. lia.
Qed.

(** With two points or more, [checkCollision] and [update] of [script.js]
    return. *)
Lemma script_checkCollision_total (g : Game) :
  (2 <= List.length (moonPoints g))%nat ->
  exists g', Script.checkCollision g = Some g'.
Proof.
  intros L. pose proof (script_closestSegmentIndex_range g L) as Rg.
  unfold Script.checkCollision, Script.surfacePoint.
  destruct (Script.closestSegmentIndex g <? 0)%Z eqn:N;
    [apply Z.ltb_lt in N; lia|].
  destruct (nth_error (Script.rotatedPoints g)
              (Z.to_nat (Script.closestSegmentIndex g))) eqn:E.
  - destruct (JS.geb _ _); [now eexists|].
    destruct (_ && _); now eexists.
  - apply nth_error_None in E. unfold Script.rotatedPoints in E.
    rewrite length_map in E. lia.
Qed.

Lemma script_update_total (g : Game) :
  (2 <= List.length (moonPoints g))%nat ->
  exists g', Script.update g = Some g'.
Proof.
  intros L. unfold Script.update.
  destruct (negb (isGameActive g) || isPaused g); [now eexists|].
  destruct (script_checkCollision_total (Script.update_physics g) L)
    as [g' E].
  rewrite E. now eexists.
Qed.

(** ** Freefall *)


Lemma script_reset_length (random : nat -> R) (g : Game) :
  List.length (moonPoints (Script.reset random g)) = 250%nat.
Proof. unfold Script.reset, Common.reset. apply generateMoon_length. Qed.

Lemma freshScript_length : List.length (moonPoints freshScript) = 250%nat.
Proof. apply (script_reset_length (fun _ => 0) canvas0). Qed.



(** ** Gravity at and near the center *)

Section Gravity.

Variables FUEL_CONSUMPTION ROTATION_SPEED : R.

Let physics := Common.update_physics FUEL_CONSUMPTION ROTATION_SPEED.

(** Whatever the position and the keys, a step changes the velocity by at
    most what thrust and gravity can add together. *)
Lemma physics_velocity_bounded (g : Game) :
  let s := spacecraft g in
  let s' := spacecraft (physics g) in
  (Spacecraft.velocityX s' - Spacecraft.velocityX s)
  * (Spacecraft.velocityX s' - Spacecraft.velocityX s)
  + (Spacecraft.velocityY s' - Spacecraft.velocityY s)
    * (Spacecraft.velocityY s' - Spacecraft.velocityY s)
  <= ((THRUST_FORCE + MOON_GRAVITY) * dt)
     * ((THRUST_FORCE + MOON_GRAVITY) * dt).
Proof.
  cbv zeta.
  destruct (physics_velocity FUEL_CONSUMPTION ROTATION_SPEED g) as [VX VY].
  fold physics in VX, VY. cbv zeta in VX, VY. rewrite VX, VY.
  set (a := _ * PI / 180).
  set (b := JS.Math_atan2 _ _).
  pose proof (cos2_sin2 a) as A. pose proof (cos2_sin2 b) as B.
  set (t := if ArrowUp (keys g) && JS.gtb _ 0 then THRUST_FORCE * dt else 0).
  assert (T : 0 <= t <= THRUST_FORCE * dt).
  { unfold t. destruct (_ && _); unfold THRUST_FORCE, dt; lra. }
  set (G := MOON_GRAVITY * dt).
  assert (Gp : 0 < G) by (unfold G, MOON_GRAVITY, dt; lra).
  set (sa := JS.Math_sin a) in *. set (ca := JS.Math_cos a) in *.
  set (sb := JS.Math_sin b) in *. set (cb := JS.Math_cos b) in *.
  assert (X : sa * cb - ca * sb <= 1).
  { set (u := sa * cb - ca * sb). set (w := ca * cb + sa * sb).
    assert (E : u * u + w * w = 1).
    { unfold u, w.
      transitivity ((ca * ca + sa * sa) * (cb * cb + sb * sb));
        [ring | rewrite A, B; ring]. }
    destruct (Rle_dec u 1) as [L|N]; [exact L|]. exfalso.
    assert (1 < u * u) by nra. nra. }
  replace ((THRUST_FORCE + MOON_GRAVITY) * dt) with (THRUST_FORCE * dt + G)
    by (unfold G; ring).
  replace (cb * MOON_GRAVITY * dt) with (cb * G) by (unfold G; ring).
  replace (sb * MOON_GRAVITY * dt) with (sb * G) by (unfold G; ring).
  transitivity (t * t + G * G + 2 * t * G);
    [|nra].
  replace ((Spacecraft.velocityX (spacecraft g) + sa * t + cb * G
            - Spacecraft.velocityX (spacecraft g))
           * (Spacecraft.velocityX (spacecraft g) + sa * t + cb * G
              - Spacecraft.velocityX (spacecraft g))
           + (Spacecraft.velocityY (spacecraft g) - ca * t + sb * G
              - Spacecraft.velocityY (spacecraft g))
             * (Spacecraft.velocityY (spacecraft g) - ca * t + sb * G
                - Spacecraft.velocityY (spacecraft g)))
    with (t * t * (ca * ca + sa * sa) + G * G * (cb * cb + sb * sb)
          + 2 * t * G * (sa * cb - ca * sb)) by ring.
  rewrite A, B.
  assert (0 <= t * G) by nra.
  nra.
Qed.

(** With the thrust key up, gravity adds a vector of length
    [MOON_GRAVITY * dt], wherever the craft is. *)
Lemma physics_gravity_unit (g : Game) :
  ArrowUp (keys g) = false ->
  let s := spacecraft g in
  let s' := spacecraft (physics g) in
  (Spacecraft.velocityX s' - Spacecraft.velocityX s)
  * (Spacecraft.velocityX s' - Spacecraft.velocityX s)
  + (Spacecraft.velocityY s' - Spacecraft.velocityY s)
    * (Spacecraft.velocityY s' - Spacecraft.velocityY s)
  = (MOON_GRAVITY * dt) * (MOON_GRAVITY * dt).
Proof.
  intros U. cbv zeta.
  destruct (physics_no_thrust FUEL_CONSUMPTION ROTATION_SPEED g U)
    as (VX & VY & _).
  fold physics in VX, VY. rewrite VX, VY.
  set (b := JS.Math_atan2 _ _). pose proof (cos2_sin2 b) as B.
  set (sb := JS.Math_sin b) in *. set (cb := JS.Math_cos b) in *.
  transitivity ((MOON_GRAVITY * dt) * (MOON_GRAVITY * dt)
                * (cb * cb + sb * sb)); [ring | rewrite B; ring].
Qed.

(** At the center itself [Math.atan2(0, 0)] is 0 and gravity pulls along
    the x axis. *)
Lemma physics_gravity_center (g : Game) :
  ArrowUp (keys g) = false ->
  Spacecraft.x (spacecraft g) = Point.x (moonCenter g) ->
  Spacecraft.y (spacecraft g) = Point.y (moonCenter g) ->
  Spacecraft.velocityX (spacecraft (physics g))
  = Spacecraft.velocityX (spacecraft g) + MOON_GRAVITY * dt
  /\ Spacecraft.velocityY (spacecraft (physics g))
     = Spacecraft.velocityY (spacecraft g).
Proof.
  intros U X Y.
  destruct (physics_no_thrust FUEL_CONSUMPTION ROTATION_SPEED g U)
    as (VX & VY & _).
  fold physics in VX, VY. rewrite VX, VY, X, Y.
  replace (Point.x (moonCenter g) - Point.x (moonCenter g)) with 0 by ring.
  replace (Point.y (moonCenter g) - Point.y (moonCenter g)) with 0 by ring.
  rewrite atan2_zero_zero. unfold JS.Math_cos, JS.Math_sin.
  rewrite cos_0, sin_0. split; ring.
Qed.

End Gravity.

(** C7 fails as stated: no positive [epsilon] makes [update] agree with a
    gravity step that divides by the distance clamped to [epsilon].  For the
    craft at the center the clamped step adds nothing, while [update] adds
    the full [MOON_GRAVITY * dt] along x. *)
Lemma gravity_is_not_clamped :
  ~ exists epsilon : R,
      0 < epsilon
      /\ forall g : Game,
           isGameActive g = true ->
           isPaused g = false ->
           ArrowUp (keys g) = false ->
           (Spacecraft.velocityX (spacecraft (Part001.update g)),
            Spacecraft.velocityY (spacecraft (Part001.update g)))
           = gravity_clamped epsilon g.
Proof.
  intros (epsilon & He & H).
  specialize (H atCenter eq_refl eq_refl eq_refl).
  rewrite part001_update_spacecraft in H by reflexivity.
  destruct (physics_gravity_center Part001.FUEL_CONSUMPTION
              Part001.ROTATION_SPEED atCenter eq_refl) as [VX VY];
    [cbn; lra | cbn; unfold MOON_RADIUS; lra |].
  unfold Part001.update_physics in H. rewrite VX, VY in H.
  unfold gravity_clamped in H.
  change (moonCenter atCenter)
    with (Point.mk (800 * 0.5) (600 + MOON_RADIUS * 3 * 0.8)) in H.
  change (spacecraft atCenter) with (Spacecraft.mk 400 1560 0 0 0 100) in H.
  cbn [Point.x Point.y Spacecraft.x Spacecraft.y Spacecraft.velocityX
       Spacecraft.velocityY] in H.
  replace (800 * 0.5 - 400) with 0 in H by lra.
  injection H as HX _. unfold Rdiv in HX. rewrite Rmult_0_l in HX.
  unfold MOON_GRAVITY, dt in HX. lra.
Qed.

(** C7, amended. [update] applies no clamp and needs none: the direction of
    gravity is the cosine and sine of [Math.atan2(dy, dx)], which is defined
    for every craft position, and nothing is divided by the distance.  For
    every position and every key state the velocity changes in a frame by a
    vector no longer than [(THRUST_FORCE + MOON_GRAVITY) * dt]; with the
    thrust key up the change has length exactly [MOON_GRAVITY * dt]; and for
    a craft exactly at the center it is [MOON_GRAVITY * dt] along x.  The
    bound holds for [script.js] too whenever its [update] returns. *)
Theorem gravity_needs_no_clamp :
  (forall g : Game,
      isGameActive g = true ->
      isPaused g = false ->
      let s := spacecraft g in
      let s' := spacecraft (Part001.update g) in
      let dvx := Spacecraft.velocityX s' - Spacecraft.velocityX s in
      let dvy := Spacecraft.velocityY s' - Spacecraft.velocityY s in
      dvx * dvx + dvy * dvy
      <= ((THRUST_FORCE + MOON_GRAVITY) * dt)
         * ((THRUST_FORCE + MOON_GRAVITY) * dt)
      /\ (ArrowUp (keys g) = false ->
          dvx * dvx + dvy * dvy = (MOON_GRAVITY * dt) * (MOON_GRAVITY * dt))
      /\ (ArrowUp (keys g) = false ->
          Spacecraft.x s = Point.x (moonCenter g) ->
          Spacecraft.y s = Point.y (moonCenter g) ->
          dvx = MOON_GRAVITY * dt /\ dvy = 0))
  /\ (forall g g' : Game,
      isGameActive g = true ->
      isPaused g = false ->
      Script.update g = Some g' ->
      let s := spacecraft g in
      let s' := spacecraft g' in
      let dvx := Spacecraft.velocityX s' - Spacecraft.velocityX s in
      let dvy := Spacecraft.velocityY s' - Spacecraft.velocityY s in
      dvx * dvx + dvy * dvy
      <= ((THRUST_FORCE + MOON_GRAVITY) * dt)
         * ((THRUST_FORCE + MOON_GRAVITY) * dt)).
Proof.
  split.
  - intros g A P. cbv zeta.
    rewrite part001_update_spacecraft by assumption.
    split; [apply physics_velocity_bounded|].
    split; [apply physics_gravity_unit|].
    intros U X Y.
    destruct (physics_gravity_center Part001.FUEL_CONSUMPTION
                Part001.ROTATION_SPEED g U X Y) as [VX VY].
    unfold Part001.update_physics. rewrite VX, VY. split; ring.
  - intros g g' A P E. cbv zeta.
    rewrite (script_update_spacecraft g g') by assumption.
    apply physics_velocity_bounded.
Qed.

(** The craft at the center, and a craft of [script.js] as [reset] leaves
    it. *)
Lemma gravity_needs_no_clamp_witness :
  Spacecraft.velocityX (spacecraft (Part001.update atCenter))
  - Spacecraft.velocityX (spacecraft atCenter) = MOON_GRAVITY * dt
  /\ Spacecraft.velocityY (spacecraft (Part001.update atCenter))
     - Spacecraft.velocityY (spacecraft atCenter) = 0
  /\ exists g',
       Script.update freshScript = Some g'
       /\ (Spacecraft.velocityX (spacecraft g')
           - Spacecraft.velocityX (spacecraft freshScript))
          * (Spacecraft.velocityX (spacecraft g')
             - Spacecraft.velocityX (spacecraft freshScript))
          + (Spacecraft.velocityY (spacecraft g')
             - Spacecraft.velocityY (spacecraft freshScript))
            * (Spacecraft.velocityY (spacecraft g')
               - Spacecraft.velocityY (spacecraft freshScript))
          <= (THRUST_FORCE + MOON_GRAVITY) * dt
             * ((THRUST_FORCE + MOON_GRAVITY) * dt).
Proof.
  destruct gravity_needs_no_clamp as [P S].
  destruct (P atCenter eq_refl eq_refl) as (_ & _ & C).
  split; [|split].
  - apply C; [reflexivity | cbn; lra | cbn; unfold MOON_RADIUS; lra].
  - apply C; [reflexivity | cbn; lra | cbn; unfold MOON_RADIUS; lra].
  - destruct (script_update_total freshScript) as [g' E];
      [rewrite freshScript_length; lia|].
    exists g'. split; [exact E|].
    apply (S freshScript g' eq_refl eq_refl E).
Defined.

(** ** The upright test *)

Lemma rem_range (a n : R) : 0 < n -> - n < JS.rem a n < n.
Proof.
  intros Hn. destruct (Rle_dec 0 a) as [P|N].
  - pose proof (rem_nonneg a n Hn P). lra.
  - pose proof (rem_neg a n Hn). lra.
Qed.

Lemma normalizedRotation_range (g : Game) :
  -180 <= Part001.normalizedRotation g <= 180.
Proof.
  unfold Part001.normalizedRotation. cbv zeta.
  pose proof (rem_range (Spacecraft.rotation (spacecraft g) + 90
                         - Part001.angleToCenter g) 360) as H.
  fold (Part001.relativeRotation g) in H.
  assert (H' : -360 < Part001.relativeRotation g < 360) by (apply H; lra).
  destruct (JS.gtb _ 180) eqn:E1.
  - apply gtb_true in E1. lra.
  - apply ltb_false in E1. destruct (JS.ltb _ (-180)) eqn:E2.
    + apply ltb_true in E2. lra.
    + apply ltb_false in E2. lra.
Qed.

Lemma normalizedRotation_congruent (g : Game) :
  exists q : Z,
    Part001.normalizedRotation g
    = Spacecraft.rotation (spacecraft g) + 90 - Part001.angleToCenter g
      + 360 * IZR q.
Proof.
  unfold Part001.normalizedRotation. cbv zeta.
  destruct (rem_congruent (Spacecraft.rotation (spacecraft g) + 90
                           - Part001.angleToCenter g) 360) as [q Hq].
  fold (Part001.relativeRotation g) in Hq. rewrite Hq.
  destruct (JS.gtb _ 180); [|destruct (JS.ltb _ (-180))].
  - exists (- q - 1)%Z. rewrite minus_IZR, opp_IZR. ring.
  - exists (- q + 1)%Z. rewrite plus_IZR, opp_IZR. ring.
  - exists (- q)%Z. rewrite opp_IZR. ring.
Qed.

Lemma tan_shift (x : R) :
  cos x <> 0 -> tan (x - PI) = tan x /\ tan (x + PI) = tan x.
Proof.
  intros C. unfold tan, Rminus.
  rewrite sin_plus, cos_plus, neg_sin, neg_cos, cos_neg, sin_neg, cos_PI,
    sin_PI.
  split; field; lra.
Qed.

Lemma scaled_ratio (d s c : R) : 0 < d -> c <> 0 -> d * s / (d * c) = s / c.
Proof. intros; field; lra. Qed.

(** [Math.atan2] returns the angle of a vector given in polar form, when
    that angle is in [(-PI, PI]]. *)
Lemma atan2_principal (d phi : R) :
  0 < d -> - PI < phi <= PI ->
  JS.Math_atan2 (d * sin phi) (d * cos phi) = phi.
Proof.
  intros Hd [L U]. pose proof PI_RGT_0 as Pp.
  unfold JS.Math_atan2.
  destruct (Rlt_dec phi (- (PI / 2))) as [E|E].
  - assert (C : cos phi < 0).
    { rewrite <- cos_neg. apply cos_lt_0; lra. }
    assert (S : sin phi < 0).
    { assert (H : 0 < sin (- phi)) by (apply sin_gt_0; lra).
      rewrite sin_neg in H. lra. }
    destruct (Rlt_dec 0 (d * cos phi)); [nra|].
    destruct (Rlt_dec (d * cos phi) 0); [|nra].
    destruct (Rle_dec 0 (d * sin phi)); [nra|].
    rewrite scaled_ratio by lra.
    change (sin phi / cos phi) with (tan phi).
    destruct (tan_shift phi) as [_ T]; [lra|]. rewrite <- T.
    rewrite atan_tan by lra. ring.
  - destruct (Req_dec_T phi (- (PI / 2))) as [Q|Q].
    + subst phi. rewrite cos_neg, sin_neg, cos_PI2, sin_PI2.
      replace (d * 0) with 0 by ring.
      destruct (Rlt_dec 0 0); [lra|].
      destruct (Rlt_dec 0 (d * - (1))); [lra|].
      destruct (Rlt_dec (d * - (1)) 0); [reflexivity|lra].
    + destruct (Rlt_dec phi (PI / 2)) as [F|F].
      * assert (C : 0 < cos phi) by (apply cos_gt_0; lra).
        destruct (Rlt_dec 0 (d * cos phi)); [|nra].
        rewrite scaled_ratio by lra.
        change (sin phi / cos phi) with (tan phi).
        apply atan_tan. lra.
      * destruct (Req_dec_T phi (PI / 2)) as [Q2|Q2].
        -- subst phi. rewrite cos_PI2, sin_PI2.
           replace (d * 0) with 0 by ring.
           destruct (Rlt_dec 0 0); [lra|].
           destruct (Rlt_dec 0 (d * 1)); [reflexivity|lra].
        -- assert (C : cos phi < 0) by (apply cos_lt_0; lra).
           assert (S : 0 <= sin phi) by (apply sin_ge_0; lra).
           destruct (Rlt_dec 0 (d * cos phi)); [nra|].
           destruct (Rlt_dec (d * cos phi) 0); [|nra].
           destruct (Rle_dec 0 (d * sin phi)); [|nra].
           rewrite scaled_ratio by lra.
           change (sin phi / cos phi) with (tan phi).
           destruct (tan_shift phi) as [T _]; [lra|]. rewrite <- T.
           rewrite atan_tan by lra. ring.
Qed.

Lemma trig_period (x : R) (m : Z) :
  cos (x + 2 * IZR m * PI) = cos x /\ sin (x + 2 * IZR m * PI) = sin x.
Proof.
  destruct (Z_le_gt_dec 0 m) as [P|N].
  - rewrite <- (Z2Nat.id m P), <- INR_IZR_INZ.
    split; [apply cos_period | apply sin_period].
  - pose proof (cos_period (x + 2 * IZR m * PI) (Z.to_nat (- m))) as C.
    pose proof (sin_period (x + 2 * IZR m * PI) (Z.to_nat (- m))) as S.
    rewrite INR_IZR_INZ, Z2Nat.id, opp_IZR in C, S by lia.
    replace (x + 2 * IZR m * PI + 2 * - IZR m * PI) with x in C, S by ring.
    split; congruence.
Qed.

(** Every angle has a representative in [(-PI, PI]]. *)
Lemma principal_angle (x : R) :
  exists m : Z, - PI < x + 2 * IZR m * PI <= PI.
Proof.
  pose proof PI_RGT_0 as Pp.
  exists (- Int_part ((x + PI) / (2 * PI))
          + (if Req_dec_T (IZR (Int_part ((x + PI) / (2 * PI))) * (2 * PI))
                  (x + PI)
             then 1 else 0))%Z.
  destruct (base_Int_part ((x + PI) / (2 * PI))) as [L U].
  set (f := Int_part ((x + PI) / (2 * PI))) in *.
  assert (E : (x + PI) / (2 * PI) * (2 * PI) = x + PI) by (field; lra).
  assert (L' : IZR f * (2 * PI) <= x + PI) by (rewrite <- E; nra).
  assert (U' : x + PI < (IZR f + 1) * (2 * PI)) by (rewrite <- E; nra).
  destruct (Req_dec_T _ _) as [Q|Q]; rewrite plus_IZR, opp_IZR; cbn [IZR];
    nra.
Qed.

Lemma atan2_polar (d phi : R) :
  0 < d ->
  exists m : Z,
    JS.Math_atan2 (d * sin phi) (d * cos phi) = phi + 2 * IZR m * PI.
Proof.
  intros Hd. destruct (principal_angle phi) as [m Hm]. exists m.
  destruct (trig_period phi m) as [C S]. rewrite <- C, <- S.
  now apply atan2_principal.
Qed.

(** If the craft sits at distance [d] from the center in the direction in
    which a nose of rotation [r - tilt] points, so that its own nose is
    turned by [tilt] degrees from the local vertical, then the normalized
    rotation is [tilt]. *)
Lemma normalizedRotation_is_tilt (g : Game) (d tilt : R) :
  0 < d ->
  -180 < tilt < 180 ->
  Spacecraft.x (spacecraft g)
  = Point.x (moonCenter g)
    + d * noseX (Spacecraft.rotation (spacecraft g) - tilt) ->
  Spacecraft.y (spacecraft g)
  = Point.y (moonCenter g)
    + d * noseY (Spacecraft.rotation (spacecraft g) - tilt) ->
  Part001.normalizedRotation g = tilt.
Proof.
  intros Hd Ht HX HY. pose proof PI_RGT_0 as Pp.
  destruct (normalizedRotation_congruent g) as [q Hq].
  pose proof (normalizedRotation_range g) as Rg.
  set (r := Spacecraft.rotation (spacecraft g)) in *.
  assert (A : exists m : Z,
             Part001.angleToCenter g = r - tilt + 90 + 360 * IZR m).
  { unfold Part001.angleToCenter. rewrite HX, HY.
    unfold noseX, noseY, JS.Math_sin, JS.Math_cos.
    set (phi := (r - tilt) * PI / 180 + PI / 2).
    replace (Point.y (moonCenter g)
             - (Point.y (moonCenter g)
                + d * - cos ((r - tilt) * PI / 180)))
      with (d * sin phi).
    2:{ unfold phi. rewrite sin_plus, cos_PI2, sin_PI2. ring. }
    replace (Point.x (moonCenter g)
             - (Point.x (moonCenter g) + d * sin ((r - tilt) * PI / 180)))
      with (d * cos phi).
    2:{ unfold phi. rewrite cos_plus, cos_PI2, sin_PI2. ring. }
    destruct (atan2_polar d phi Hd) as [m Hm]. exists m. rewrite Hm.
    unfold phi. field. lra. }
  destruct A as [m Hm]. rewrite Hm in Hq.
  assert (E : Part001.normalizedRotation g = tilt + 360 * IZR (q - m)).
  { rewrite Hq, minus_IZR. ring. }
  assert (Z0 : (q - m = 0)%Z).
  { assert (H : -1 < IZR (q - m) < 1) by lra.
    destruct H as [H1 H2]. apply lt_IZR in H1, H2. lia. }
  rewrite E, Z0. cbn. ring.
Qed.

(** C2 fails as stated: a craft straight above the center with rotation
    -180 has normalized rotation -180, outside [(-180, 180]]. *)
Lemma normalized_rotation_reaches_minus_180 :
  Part001.normalizedRotation noseDown = -180
  /\ ~ (-180 < Part001.normalizedRotation noseDown <= 180).
Proof.
  assert (E : Part001.normalizedRotation noseDown = -180).
  { rewrite normalizedRotation_above; cbn; unfold MOON_RADIUS; lra. }
  split; [exact E|]. rewrite E. lra.
Qed.

(** C2, amended. The upright test of [part_001] takes the craft's rotation
    relative to the direction from the moon's center through the craft:
    when the nose is turned by [tilt] degrees, [tilt] strictly between -180
    and 180, from that direction (wherever around the moon the craft is and
    however it is rotated in the canvas), the normalized rotation is
    [tilt].  The normalized rotation always lies in the closed range from
    -180 to 180, both ends included, and the test passes exactly when its
    absolute value is at most [ACCEPTABLE_LANDING_ANGLE]. *)
Theorem upright_test_is_radial (g : Game) :
  -180 <= Part001.normalizedRotation g <= 180
  /\ (Part001.isUprightLanding g = true
      <-> Rabs (Part001.normalizedRotation g) <= ACCEPTABLE_LANDING_ANGLE)
  /\ (forall d tilt : R,
        0 < d ->
        -180 < tilt < 180 ->
        Spacecraft.x (spacecraft g)
        = Point.x (moonCenter g)
          + d * noseX (Spacecraft.rotation (spacecraft g) - tilt) ->
        Spacecraft.y (spacecraft g)
        = Point.y (moonCenter g)
          + d * noseY (Spacecraft.rotation (spacecraft g) - tilt) ->
        Part001.normalizedRotation g = tilt
        /\ (Part001.isUprightLanding g = true
            <-> Rabs tilt <= ACCEPTABLE_LANDING_ANGLE)).
Proof.
  split; [apply normalizedRotation_range|].
  split; [apply leb_true|].
  intros d tilt Hd Ht HX HY.
  pose proof (normalizedRotation_is_tilt g d tilt Hd Ht HX HY) as E.
  split; [exact E|]. rewrite <- E. apply leb_true.
Qed.

(** The upright craft 100 above the center has no tilt. *)
Lemma upright_test_is_radial_witness :
  Part001.normalizedRotation touching = 0
  /\ (Part001.isUprightLanding touching = true
      <-> Rabs 0 <= ACCEPTABLE_LANDING_ANGLE).
Proof.
  destruct (upright_test_is_radial touching) as (_ & _ & T).
  apply (T 100 0).
  - lra.
  - lra.
  - unfold noseX, JS.Math_sin; cbn.
    replace ((0 - 0) * PI / 180) with 0 by lra. rewrite sin_0. ring.
  - unfold noseY, JS.Math_cos; cbn.
    replace ((0 - 0) * PI / 180) with 0 by lra. rewrite cos_0. ring.
Defined.

(** [script.js] compares the rotation with the canvas's vertical, wherever
    the craft is. *)
Lemma script_upright_is_fixed_axis (g : Game) :
  Script.isUprightLanding g = true
  <-> Rabs (Spacecraft.rotation (spacecraft g)) <= ACCEPTABLE_LANDING_ANGLE.
Proof. apply leb_true. Qed.

(** ** A craft high above the moon *)

(** Where two intersecting segments meet. *)
Lemma lineSegmentsIntersect_point (x1 y1 x2 y2 x3 y3 x4 y4 : R) :
  Part001.lineSegmentsIntersect x1 y1 x2 y2 x3 y3 x4 y4 = true ->
  exists t1 t2 : R,
    0 <= t1 <= 1 /\ 0 <= t2 <= 1
    /\ x1 + t1 * (x2 - x1) = x3 + t2 * (x4 - x3)
    /\ y1 + t1 * (y2 - y1) = y3 + t2 * (y4 - y3).
Proof.
  intros H. apply lineSegmentsIntersect_true in H. cbv zeta in H.
  destruct H as (D & T1 & T2).
  eexists; eexists. split; [exact T1|]. split; [exact T2|].
  split; field; exact D.
Qed.

(** Segments on either side of a horizontal line do not intersect. *)
Lemma separated_no_intersection (x1 y1 x2 y2 x3 y3 x4 y4 Y : R) :
  y1 < Y -> y2 < Y -> Y <= y3 -> Y <= y4 ->
  Part001.lineSegmentsIntersect x1 y1 x2 y2 x3 y3 x4 y4 = false.
Proof.
  intros A B C D. apply not_true_iff_false. intros H.
  apply lineSegmentsIntersect_point in H.
  destruct H as (t1 & t2 & T1 & T2 & _ & E).
  assert (L : y1 + t1 * (y2 - y1) < Y).
  { assert (M : y1 <= Rmax y1 y2 /\ y2 <= Rmax y1 y2 /\ Rmax y1 y2 < Y).
    { split; [apply Rmax_l|]. split; [apply Rmax_r|].
      now apply Rmax_lub_lt. }
    destruct M as (M1 & M2 & M3).
    assert (0 <= (1 - t1) * (Rmax y1 y2 - y1)) by (apply Rmult_le_pos; lra).
    assert (0 <= t1 * (Rmax y1 y2 - y2)) by (apply Rmult_le_pos; lra).
    lra. }
  assert (U : Y <= y3 + t2 * (y4 - y3)).
  { assert (0 <= (1 - t2) * (y3 - Y)) by (apply Rmult_le_pos; lra).
    assert (0 <= t2 * (y4 - Y)) by (apply Rmult_le_pos; lra).
    lra. }
  lra.
Qed.

(** [rotatePoint] keeps the distance from the center. *)
Lemma rotatePoint_distance (p c : Point.t) (a : R) :
  (Point.x (rotatePoint p c a) - Point.x c)
  * (Point.x (rotatePoint p c a) - Point.x c)
  + (Point.y (rotatePoint p c a) - Point.y c)
    * (Point.y (rotatePoint p c a) - Point.y c)
  = (Point.x p - Point.x c) * (Point.x p - Point.x c)
    + (Point.y p - Point.y c) * (Point.y p - Point.y c).
Proof.
  unfold rotatePoint. cbn [Point.x Point.y]. pose proof (cos2_sin2 a) as H.
  set (u := Point.x p - Point.x c). set (v := Point.y p - Point.y c).
  set (ca := JS.Math_cos a) in *. set (sa := JS.Math_sin a) in *.
  transitivity ((u * u + v * v) * (ca * ca + sa * sa));
    [ring | rewrite H; ring].
Qed.

Lemma in_disc_above (c q : Point.t) (D : R) :
  0 <= D ->
  (Point.x q - Point.x c) * (Point.x q - Point.x c)
  + (Point.y q - Point.y c) * (Point.y q - Point.y c) <= D * D ->
  Point.y c - D <= Point.y q.
Proof.
  intros HD H.
  destruct (Rle_dec (Point.y c - D) (Point.y q)) as [L|N]; [exact L|].
  exfalso.
  set (u := Point.x q - Point.x c) in *. set (v := Point.y c - Point.y q).
  assert (V : D < v) by (unfold v; lra).
  assert (D * D < v * v) by nra.
  replace ((Point.y q - Point.y c) * (Point.y q - Point.y c)) with (v * v)
    in H by (unfold v; ring).
  nra.
Qed.

(** No corner of the box is further down the canvas than the craft's
    center by more than the half width plus the half height. *)
Lemma corners_y (g : Game) (j : nat) (d : Point.t) :
  0 <= scale g ->
  (j < 4)%nat ->
  Point.y (nth j (Part001.corners g) d)
  <= Spacecraft.y (spacecraft g) + Part001.SPACECRAFT_HEIGHT * scale g * 0.6.
Proof.
  intros Hs Hj. unfold Part001.corners. cbv zeta.
  set (a := Spacecraft.rotation (spacecraft g) * PI / 180).
  pose proof (cos2_sin2 a) as H.
  set (ca := JS.Math_cos a) in *. set (sa := JS.Math_sin a) in *.
  assert (C : -1 <= ca <= 1) by nra. assert (S : -1 <= sa <= 1) by nra.
  set (hw := Part001.SPACECRAFT_HEIGHT * scale g * 0.2).
  set (hh := Part001.SPACECRAFT_HEIGHT * scale g * 0.4).
  assert (W : 0 <= hw) by (unfold hw, Part001.SPACECRAFT_HEIGHT; nra).
  assert (Hh : 0 <= hh) by (unfold hh, Part001.SPACECRAFT_HEIGHT; nra).
  replace (Part001.SPACECRAFT_HEIGHT * scale g * 0.6) with (hw + hh)
    by (unfold hw, hh, Part001.SPACECRAFT_HEIGHT; lra).
  destruct j as [|[|[|[|j]]]]; try lia; cbn [nth Point.y]; nra.
Qed.

(** A box wholly above the disc that holds the moon's points meets no
    segment of the rotated moon. *)
Lemma high_above_no_side_intersects (g : Game) (D : R) :
  0 <= D ->
  0 <= scale g ->
  (forall p : Point.t, In p (moonPoints g) ->
     (Point.x p - Point.x (moonCenter g))
     * (Point.x p - Point.x (moonCenter g))
     + (Point.y p - Point.y (moonCenter g))
       * (Point.y p - Point.y (moonCenter g))
     <= D * D) ->
  Spacecraft.y (spacecraft g) + Part001.SPACECRAFT_HEIGHT * scale g * 0.6
  < Point.y (moonCenter g) - D ->
  forall (m : nat) (p1 p2 : Point.t) (j : nat),
    nth_error (Part001.rotatedPoints g) m = Some p1 ->
    nth_error (Part001.rotatedPoints g) (S m) = Some p2 ->
    (j < 4)%nat ->
    Part001.sideIntersects (Part001.corners g) p1 p2 j = false.
Proof.
  intros HD Hs Hp Hy m p1 p2 j H1 H2 Hj.
  assert (Q : forall (n : nat) (q : Point.t),
             nth_error (Part001.rotatedPoints g) n = Some q ->
             Point.y (moonCenter g) - D <= Point.y q).
  { intros n q Hq. unfold Part001.rotatedPoints in Hq.
    rewrite nth_error_map in Hq.
    destruct (nth_error (moonPoints g) n) as [p|] eqn:E; [|discriminate].
    injection Hq as <-. apply in_disc_above; [exact HD|].
    rewrite rotatePoint_distance. apply Hp.
    eapply nth_error_In; eassumption. }
  unfold Part001.sideIntersects.
  apply separated_no_intersection with (Y := Point.y (moonCenter g) - D).
  - pose proof (corners_y g j p1 Hs Hj). lra.
  - pose proof (corners_y g ((j + 1) mod 4) p1 Hs) as C.
    assert (M : ((j + 1) mod 4 < 4)%nat) by (apply Nat.mod_upper_bound; lia).
    specialize (C M). lra.
  - apply (Q m p1 H1).
  - apply (Q (S m) p2 H2).
Qed.

(** The points of a generated surface lie in the disc of the radius grown
    by half the bumpiness. *)
Lemma surface_in_disc (bumpiness : R) (segments : Z) (g : Game) :
  0 <= bumpiness ->
  0 <= moonRadius g ->
  flatZoneBumpyElsewhere bumpiness segments g ->
  forall p : Point.t, In p (moonPoints g) ->
    (Point.x p - Point.x (moonCenter g))
    * (Point.x p - Point.x (moonCenter g))
    + (Point.y p - Point.y (moonCenter g))
      * (Point.y p - Point.y (moonCenter g))
    <= (moonRadius g * (1 + bumpiness / 2))
       * (moonRadius g * (1 + bumpiness / 2)).
Proof.
  intros Hb Hr F p I.
  destruct (In_nth_error _ _ I) as [i Hi].
  destruct (F i p Hi) as (offset & O & Zn & Nz).
  assert (B : - (moonRadius g * bumpiness / 2) <= offset
              <= moonRadius g * bumpiness / 2).
  { destruct (Z_le_dec (landingZoneIndex g) (Z.of_nat i)) as [A|A];
      [destruct (Z_le_dec (Z.of_nat i) (landingZoneIndex g + 1)) as [A'|A']|].
    - destruct Zn as [-> _]; [split; assumption|]. nra.
    - apply Nz. unfold inZoneSpan. lia.
    - apply Nz. unfold inZoneSpan. lia. }
  unfold hasOffset in O. cbv zeta in O. rewrite O. cbn [Point.x Point.y].
  set (a := PI * 2 / IZR segments * IZR (Z.of_nat i)).
  pose proof (cos2_sin2 a) as H.
  set (ca := JS.Math_cos a) in *. set (sa := JS.Math_sin a) in *.
  set (r := moonRadius g) in *.
  replace ((Point.x (moonCenter g) + ca * (r + offset)
            - Point.x (moonCenter g))
           * (Point.x (moonCenter g) + ca * (r + offset)
              - Point.x (moonCenter g))
           + (Point.y (moonCenter g) - sa * (r + offset)
              - Point.y (moonCenter g))
             * (Point.y (moonCenter g) - sa * (r + offset)
                - Point.y (moonCenter g)))
    with ((r + offset) * (r + offset) * (ca * ca + sa * sa)) by ring.
  rewrite H, Rmult_1_r.
  assert (0 <= r * bumpiness) by nra.
  nra.
Qed.

Section Position.

Variables FUEL_CONSUMPTION ROTATION_SPEED : R.

Let physics := Common.update_physics FUEL_CONSUMPTION ROTATION_SPEED.

(** The position advances by the new velocity. *)
Lemma physics_position (g : Game) :
  Spacecraft.x (spacecraft (physics g))
  = Spacecraft.x (spacecraft g)
    + Spacecraft.velocityX (spacecraft (physics g)) * dt * scale g
  /\ Spacecraft.y (spacecraft (physics g))
     = Spacecraft.y (spacecraft g)
       + Spacecraft.velocityY (spacecraft (physics g)) * dt * scale g.
Proof.
  unfold physics, Common.update_physics. cbn.
  destruct (ArrowLeft (keys g)), (ArrowRight (keys g)); cbn;
    destruct (ArrowUp (keys g) && JS.gtb (Spacecraft.fuel (spacecraft g)) 0);
    cbn; split; reflexivity.
Qed.

End Position.

(** ** The first frames of a game *)



(** ** No collision keeps flying *)





(** ** A craft hovering over a piece of surface, in [script.js] *)

















(** ** Turning points and crossing segments *)

(** X1. [rotatePoint] about one center composes by adding the angles: turning
    by [a] and then by [b] is turning by [a + b], turning back by [- a]
    returns the point, and the center itself never moves. *)
Theorem rotatePoint_composes (p c : Point.t) (a b : R) :
  rotatePoint (rotatePoint p c a) c b = rotatePoint p c (a + b)
  /\ rotatePoint (rotatePoint p c a) c (- a) = p
  /\ rotatePoint c c a = c.
Proof.
  assert (E : forall q u v, rotatePoint (rotatePoint q c u) c v = rotatePoint q c (u + v)).
  { intros q u v. unfold rotatePoint, JS.Math_cos, JS.Math_sin.
    cbn [Point.x Point.y]. rewrite cos_plus, sin_plus. f_equal; ring. }
  split; [apply E|]. split.
  - rewrite E. replace (a + - a) with 0 by ring. apply rotatePoint_zero.
  - unfold rotatePoint. destruct c as [cx cy]; cbn. f_equal; ring.
Qed.

(** X2. [rotatePoint] is rigid: a turned point is as far from the
    center as before, and two points turned about the same center by the
    same angle keep their distance.  Distances are compared squared. *)
Theorem rotatePoint_keeps_distance (p q c : Point.t) (a : R) :
  distance2 (rotatePoint p c a) c = distance2 p c
  /\ distance2 (rotatePoint p c a) (rotatePoint q c a) = distance2 p q.
Proof.
  split; [apply rotatePoint_distance|].
  unfold distance2, rotatePoint. cbn [Point.x Point.y].
  pose proof (cos2_sin2 a) as H.
  set (ca := JS.Math_cos a) in *. set (sa := JS.Math_sin a) in *.
  set (u := Point.x p - Point.x q). set (v := Point.y p - Point.y q).
  transitivity ((u * u + v * v) * (ca * ca + sa * sa)); [unfold u, v; ring | rewrite H; ring].
Qed.

Lemma lineSegmentsIntersect_along (x1 y1 x2 y2 x3 y3 x4 y4 : R) :
  Part001.lineSegmentsIntersect x1 y1 x2 y2 x3 y3 x4 y4 = true
  <-> (x2 - x1) * (y4 - y3) - (y2 - y1) * (x4 - x3) <> 0
      /\ exists t1 t2 : R,
           0 <= t1 <= 1 /\ 0 <= t2 <= 1
           /\ along x1 y1 x2 y2 t1 = along x3 y3 x4 y4 t2.
Proof.
  split.
  - intros H. split.
    + apply lineSegmentsIntersect_true in H. cbv zeta in H. tauto.
    + destruct (lineSegmentsIntersect_point _ _ _ _ _ _ _ _ H)
        as (t1 & t2 & T1 & T2 & EX & EY).
      exists t1, t2. split; [exact T1|]. split; [exact T2|].
      unfold along. now rewrite EX, EY.
  - intros (D & t1 & t2 & T1 & T2 & E).
    unfold along in E. injection E as EX EY.
    apply lineSegmentsIntersect_true. cbv zeta. split; [exact D|].
    assert (RX : x3 - x1 = t1 * (x2 - x1) - t2 * (x4 - x3)) by lra.
    assert (RY : y3 - y1 = t1 * (y2 - y1) - t2 * (y4 - y3)) by lra.
    set (d := (x2 - x1) * (y4 - y3) - (y2 - y1) * (x4 - x3)) in *.
    assert (A : ((x3 - x1) * (y4 - y3) - (y3 - y1) * (x4 - x3)) / d = t1).
    { rewrite RX, RY.
      replace ((t1 * (x2 - x1) - t2 * (x4 - x3)) * (y4 - y3)
               - (t1 * (y2 - y1) - t2 * (y4 - y3)) * (x4 - x3))
        with (t1 * d) by (unfold d; ring).
      field. exact D. }
    assert (B : ((x3 - x1) * (y2 - y1) - (y3 - y1) * (x2 - x1)) / d = t2).
    { rewrite RX, RY.
      replace ((t1 * (x2 - x1) - t2 * (x4 - x3)) * (y2 - y1)
               - (t1 * (y2 - y1) - t2 * (y4 - y3)) * (x2 - x1))
        with (t2 * d) by (unfold d; ring).
      field. exact D. }
    rewrite A, B. split; assumption.
Qed.

(** X3. [lineSegmentsIntersect] answers [true] exactly when the two
    segments are not parallel and share a point, each segment taken with
    both of its end points.  So the answer does not change when the two
    segments are swapped or when the first one is walked backwards. *)
Theorem lineSegmentsIntersect_is_a_crossing (x1 y1 x2 y2 x3 y3 x4 y4 : R) :
  (Part001.lineSegmentsIntersect x1 y1 x2 y2 x3 y3 x4 y4 = true
   <-> (x2 - x1) * (y4 - y3) - (y2 - y1) * (x4 - x3) <> 0
       /\ exists t1 t2 : R,
            0 <= t1 <= 1 /\ 0 <= t2 <= 1
            /\ along x1 y1 x2 y2 t1 = along x3 y3 x4 y4 t2)
  /\ Part001.lineSegmentsIntersect x3 y3 x4 y4 x1 y1 x2 y2
     = Part001.lineSegmentsIntersect x1 y1 x2 y2 x3 y3 x4 y4
  /\ Part001.lineSegmentsIntersect x2 y2 x1 y1 x3 y3 x4 y4
     = Part001.lineSegmentsIntersect x1 y1 x2 y2 x3 y3 x4 y4.
Proof.
  split; [apply lineSegmentsIntersect_along|].
  split; apply eq_true_iff_eq; rewrite !lineSegmentsIntersect_along.
  - split; intros (D & t1 & t2 & T1 & T2 & E).
    + split; [lra|]. exists t2, t1. now repeat split.
    + split; [lra|]. exists t2, t1. now repeat split.
  - split; intros (D & t1 & t2 & T1 & T2 & E).
    + split; [lra|]. exists (1 - t1), t2.
      split; [lra|]. split; [exact T2|]. rewrite <- E.
      unfold along. f_equal; ring.
    + split; [lra|]. exists (1 - t1), t2.
      split; [lra|]. split; [exact T2|]. rewrite <- E.
      unfold along. f_equal; ring.
Qed.

(** The diagonals of a square cross at its middle. *)
Lemma lineSegmentsIntersect_is_a_crossing_witness :
  Part001.lineSegmentsIntersect 0 0 2 2 0 2 2 0 = true.
Proof.
  apply (proj1 (lineSegmentsIntersect_is_a_crossing 0 0 2 2 0 2 2 0)).
  split; [lra|]. exists (1 / 2), (1 / 2).
  split; [lra|]. split; [lra|]. unfold along. f_equal; lra.
Defined.

(** X4. The four corners [checkCollision] of [part_001] computes are the
    corners of the upright box, 0.2 of the craft's height to either side
    and 0.4 up and down, each turned about the craft by its rotation; all
    four are equally far from the craft. *)
Theorem corners_are_the_turned_box (g : Game) :
  Part001.corners g
  = map (fun q => rotatePoint q (craftPoint g)
                    (Spacecraft.rotation (spacecraft g) * PI / 180))
      (uprightBox g)
  /\ forall q : Point.t, In q (Part001.corners g) ->
       distance2 q (craftPoint g)
       = (Part001.SPACECRAFT_HEIGHT * scale g * 0.2)
         * (Part001.SPACECRAFT_HEIGHT * scale g * 0.2)
         + (Part001.SPACECRAFT_HEIGHT * scale g * 0.4)
           * (Part001.SPACECRAFT_HEIGHT * scale g * 0.4).
Proof.
  assert (E : Part001.corners g
              = map (fun q => rotatePoint q (craftPoint g)
                        (Spacecraft.rotation (spacecraft g) * PI / 180))
                  (uprightBox g)).
  { unfold Part001.corners, uprightBox, rotatePoint, craftPoint.
    cbn [map Point.x Point.y]. repeat (f_equal; try ring). }
  split; [exact E|].
  intros q I. rewrite E in I. apply in_map_iff in I.
  destruct I as (u & <- & U).
  unfold distance2. rewrite rotatePoint_distance.
  unfold uprightBox in U. cbn [In] in U. unfold craftPoint.
  destruct U as [<-|[<-|[<-|[<-|[]]]]]; cbn [Point.x Point.y]; ring.
Qed.

(** The first corner of the box of [touching]. *)
Lemma corners_are_the_turned_box_witness :
  distance2 (hd (Point.mk 0 0) (Part001.corners touching))
    (craftPoint touching)
  = (Part001.SPACECRAFT_HEIGHT * scale touching * 0.2)
    * (Part001.SPACECRAFT_HEIGHT * scale touching * 0.2)
    + (Part001.SPACECRAFT_HEIGHT * scale touching * 0.4)
      * (Part001.SPACECRAFT_HEIGHT * scale touching * 0.4).
Proof.
  apply (proj2 (corners_are_the_turned_box touching)).
  left. reflexivity.
Defined.

(** ** The nearest segment *)

(** The point of the segment the function measures to is nearest. *)
Lemma distanceToLineSegment_foot (px py x1 y1 x2 y2 : R) :
  exists t : R,
    0 <= t <= 1
    /\ Script.distanceToLineSegment px py x1 y1 x2 y2
       = sqrt (distance2 (Point.mk px py) (along x1 y1 x2 y2 t))
    /\ forall u : R, 0 <= u <= 1 ->
         distance2 (Point.mk px py) (along x1 y1 x2 y2 t)
         <= distance2 (Point.mk px py) (along x1 y1 x2 y2 u).
Proof.
  unfold Script.distanceToLineSegment, distance2, along, JS.Math_sqrt.
  cbv zeta. cbn [Point.x Point.y].
  set (A := px - x1). set (B := py - y1).
  set (C := x2 - x1). set (D := y2 - y1).
  set (len := C * C + D * D). set (dot := A * C + B * D).
  assert (F : forall u, (px - (x1 + u * C)) * (px - (x1 + u * C))
                        + (py - (y1 + u * D)) * (py - (y1 + u * D))
                        = A * A + B * B - 2 * u * dot + u * u * len).
  { intros u. unfold len, dot, A, B, C, D. ring. }
  assert (Ln : 0 <= len) by (unfold len; nra).
  destruct (JS.eqb len 0) eqn:E; cbn [negb].
  - (* a segment of no length *)
    apply eqb_true in E.
    assert (C0 : C = 0) by (unfold len in E; nra).
    assert (D0 : D = 0) by (unfold len in E; nra).
    rewrite (proj2 (ltb_true (-1) 0)) by lra.
    exists 0. split; [lra|]. split.
    + f_equal. ring.
    + intros u Hu. rewrite !F. unfold dot. rewrite E, C0, D0. lra.
  - apply eqb_false in E. assert (Lp : 0 < len) by lra.
    assert (P : dot / len * len = dot) by (field; lra).
    destruct (JS.ltb (dot / len) 0) eqn:E1.
    + apply ltb_true in E1. assert (dot < 0) by nra.
      exists 0. split; [lra|]. split.
      * f_equal. ring.
      * intros u Hu. rewrite !F. nra.
    + apply ltb_false in E1.
      destruct (JS.gtb (dot / len) 1) eqn:E2.
      * apply gtb_true in E2. assert (len < dot) by nra.
        exists 1. split; [lra|]. split.
        -- f_equal. unfold C, D. ring.
        -- intros u Hu. rewrite !F.
           assert (U : u * len <= len).
           { assert (0 <= (1 - u) * len) by (apply Rmult_le_pos; lra). lra. }
           assert (0 <= (1 - u) * (2 * dot - (1 + u) * len))
             by (apply Rmult_le_pos; lra).
           lra.
      * apply ltb_false in E2.
        exists (dot / len). split; [lra|]. split; [reflexivity|].
        intros u Hu. rewrite !F.
        set (t := dot / len) in *.
        assert (0 <= (u - t) * (u - t) * len)
          by (apply Rmult_le_pos; [apply (Rle_0_sqr (u - t)) | lra]).
        rewrite <- P. nra.
Qed.

(** X5. [distanceToLineSegment] returns the distance from the point to
    some point of the segment, and no point of the segment is nearer.  This
    includes a segment whose two ends coincide. *)
Theorem distanceToLineSegment_is_nearest (px py x1 y1 x2 y2 : R) :
  (exists t : R,
      0 <= t <= 1
      /\ Script.distanceToLineSegment px py x1 y1 x2 y2
         = sqrt (distance2 (Point.mk px py) (along x1 y1 x2 y2 t)))
  /\ (forall u : R, 0 <= u <= 1 ->
        Script.distanceToLineSegment px py x1 y1 x2 y2
        <= sqrt (distance2 (Point.mk px py) (along x1 y1 x2 y2 u))).
Proof.
  destruct (distanceToLineSegment_foot px py x1 y1 x2 y2) as (t & T & E & M).
  split; [exists t; split; assumption|].
  intros u Hu. rewrite E. apply sqrt_le_1_alt. now apply M.
Qed.

(** A point above the middle of a segment, against the point a quarter
    along it. *)
Lemma distanceToLineSegment_is_nearest_witness :
  Script.distanceToLineSegment 0 1 (-1) 0 1 0
  <= sqrt (distance2 (Point.mk 0 1) (along (-1) 0 1 0 (1 / 4))).
Proof.
  apply (proj2 (distanceToLineSegment_is_nearest 0 1 (-1) 0 1 0)). lra.
Defined.

Lemma segmentDistance_tail (b p : Point.t) (l : list Point.t) (k : nat) :
  segmentDistance b (p :: l) (S k) = segmentDistance b l k.
Proof. reflexivity. Qed.

Lemma closestSegment_step (b p1 p2 : Point.t) (rest : list Point.t)
    (i : Z) (m : option R) (index : Z) :
  Script.closestSegment b i (p1 :: p2 :: rest) m index
  = let distance :=
      Script.distanceToLineSegment (Point.x b) (Point.y b)
        (Point.x p1) (Point.y p1) (Point.x p2) (Point.y p2) in
    if Script.below distance m
    then Script.closestSegment b (i + 1) (p2 :: rest) (Some distance) i
    else Script.closestSegment b (i + 1) (p2 :: rest) m index.
Proof. reflexivity. Qed.

Lemma closestSegment_invariant (b : Point.t) (points : list Point.t) :
  forall (i : Z) (d0 : R) (index : Z),
    let r := Script.closestSegment b i points (Some d0) index in
    (r = index
     /\ forall (k : nat) (dk : R),
          segmentDistance b points k = Some dk -> d0 <= dk)
    \/ (exists (n : nat) (d : R),
          r = (i + Z.of_nat n)%Z
          /\ segmentDistance b points n = Some d
          /\ d < d0
          /\ forall (k : nat) (dk : R),
               segmentDistance b points k = Some dk ->
               d <= dk /\ ((k < n)%nat -> d < dk)).
Proof.
  induction points as [|p1 rest IH]; intros i d0 index.
  - left. split; [reflexivity|]. intros [|k] dk; discriminate.
  - destruct rest as [|p2 rest].
    + left. split; [reflexivity|]. intros [|[|k]] dk; discriminate.
    + cbv zeta. rewrite closestSegment_step. cbv zeta.
      set (dist := Script.distanceToLineSegment (Point.x b) (Point.y b)
                     (Point.x p1) (Point.y p1) (Point.x p2) (Point.y p2)).
      assert (S0 : segmentDistance b (p1 :: p2 :: rest) 0 = Some dist)
        by reflexivity.
      unfold Script.below. destruct (JS.ltb dist d0) eqn:E.
      * apply ltb_true in E. right.
        destruct (IH (i + 1)%Z dist i) as [[-> A]|(n & d & -> & Sn & Ld & A)].
        -- exists O, dist. split; [lia|]. split; [exact S0|]. split; [exact E|].
           intros [|k] dk Hk.
           ++ rewrite S0 in Hk. injection Hk as <-. split; [lra|lia].
           ++ rewrite segmentDistance_tail in Hk. split; [now apply (A k)|lia].
        -- exists (S n), d. split; [lia|]. split; [exact Sn|]. split; [lra|].
           intros [|k] dk Hk.
           ++ rewrite S0 in Hk. injection Hk as <-. split; [lra|intros _; lra].
           ++ rewrite segmentDistance_tail in Hk.
              destruct (A k dk Hk) as [A1 A2]. split; [exact A1|].
              intros Hl. apply A2. lia.
      * apply ltb_false in E.
        destruct (IH (i + 1)%Z d0 index) as [[-> A]|(n & d & -> & Sn & Ld & A)].
        -- left. split; [reflexivity|]. intros [|k] dk Hk.
           ++ rewrite S0 in Hk. injection Hk as <-. exact E.
           ++ rewrite segmentDistance_tail in Hk. now apply (A k).
        -- right. exists (S n), d. split; [lia|]. split; [exact Sn|].
           split; [exact Ld|].
           intros [|k] dk Hk.
           ++ rewrite S0 in Hk. injection Hk as <-. split; [lra|intros _; lra].
           ++ rewrite segmentDistance_tail in Hk.
              destruct (A k dk Hk) as [A1 A2]. split; [exact A1|].
              intros Hl. apply A2. lia.
Qed.

(** X6. With two or more surface points, the search of [script.js] ends
    on an existing segment whose distance from the craft's bottom point is
    the least of all segments; among segments at that least distance it is
    the first, every earlier segment being strictly farther. *)
Theorem closest_segment_is_first_nearest (g : Game) :
  (2 <= List.length (moonPoints g))%nat ->
  exists d : R,
    segmentDistance (Script.spacecraftBottom g) (Script.rotatedPoints g)
      (Z.to_nat (Script.closestSegmentIndex g)) = Some d
    /\ forall (k : nat) (dk : R),
         segmentDistance (Script.spacecraftBottom g) (Script.rotatedPoints g) k
         = Some dk ->
         d <= dk /\ ((k < Z.to_nat (Script.closestSegmentIndex g))%nat -> d < dk).
Proof.
  intros L. unfold Script.closestSegmentIndex.
  assert (E : List.length (Script.rotatedPoints g) = List.length (moonPoints g))
    by apply length_map.
  rewrite <- E in L. clear E.
  set (b := Script.spacecraftBottom g).
  destruct (Script.rotatedPoints g) as [|p1 [|p2 rest]];
    [cbn in L; lia | cbn in L; lia |].
  rewrite closestSegment_step. cbv zeta. cbn [Script.below].
  set (dist := Script.distanceToLineSegment (Point.x b) (Point.y b)
                 (Point.x p1) (Point.y p1) (Point.x p2) (Point.y p2)).
  assert (S0 : segmentDistance b (p1 :: p2 :: rest) 0 = Some dist)
    by reflexivity.
  destruct (closestSegment_invariant b (p2 :: rest) (0 + 1)%Z dist 0%Z)
    as [[-> A]|(n & d & -> & Sn & Ld & A)].
  - exists dist. split; [exact S0|]. intros [|k] dk Hk.
    + rewrite S0 in Hk. injection Hk as <-. split; [lra|cbn; lia].
    + rewrite segmentDistance_tail in Hk. split; [now apply (A k)|cbn; lia].
  - replace (Z.to_nat (0 + 1 + Z.of_nat n)) with (S n) by lia.
    exists d. split; [exact Sn|]. intros [|k] dk Hk.
    + rewrite S0 in Hk. injection Hk as <-. split; [lra|intros _; lra].
    + rewrite segmentDistance_tail in Hk.
      destruct (A k dk Hk) as [A1 A2]. split; [exact A1|].
      intros Hl. apply A2. lia.
Qed.

(** The one segment of [sunk]. *)
Lemma closest_segment_is_first_nearest_witness :
  exists d : R,
    segmentDistance (Script.spacecraftBottom sunk) (Script.rotatedPoints sunk)
      (Z.to_nat (Script.closestSegmentIndex sunk)) = Some d
    /\ forall (k : nat) (dk : R),
         segmentDistance (Script.spacecraftBottom sunk)
           (Script.rotatedPoints sunk) k = Some dk ->
         d <= dk
         /\ ((k < Z.to_nat (Script.closestSegmentIndex sunk))%nat -> d < dk).
Proof. apply (closest_segment_is_first_nearest sunk). simpl. lia. Defined.

(** X7. [checkCollision] of [script.js] throws exactly when the moon has
    fewer than two points; with two or more it always returns. *)
Theorem script_checkCollision_throws_iff (g : Game) :
  Script.checkCollision g = None <-> (List.length (moonPoints g) < 2)%nat.
Proof.
  split.
  - intros H. destruct (le_lt_dec 2 (List.length (moonPoints g))) as [L|L]; [|exact L].
    destruct (script_checkCollision_total g L) as [g' E]. congruence.
  - intros L. unfold Script.checkCollision, Script.surfacePoint,
      Script.closestSegmentIndex.
    assert (E : List.length (Script.rotatedPoints g) = List.length (moonPoints g))
      by apply length_map.
    rewrite <- E in L.
    destruct (Script.rotatedPoints g) as [|p1 [|p2 rest]];
      [reflexivity | reflexivity | cbn in L; lia].
Qed.

(** Before the first [generateMoon] the moon has no points. *)
Lemma script_checkCollision_throws_iff_witness :
  Script.checkCollision canvas0 = None.
Proof.
  apply (proj2 (script_checkCollision_throws_iff canvas0)). simpl. lia.
Defined.

(** ** Keys and score *)

Lemma with_keys_same (g : Game) : with_keys g (keys g) = g.
Proof. destruct g; reflexivity. Qed.

(** X8. The key listeners change nothing for a key other than the three
    arrows.  For any key, releasing after pressing is the same as
    releasing, pressing after releasing the same as pressing, and neither
    listener touches the craft. *)
Theorem listeners_ignore_other_keys (g : Game) (code : string) :
  (code <> "ArrowLeft" -> code <> "ArrowRight" -> code <> "ArrowUp" ->
   keydown g code = g /\ keyup g code = g)
  /\ keyup (keydown g code) code = keyup g code
  /\ keydown (keyup g code) code = keydown g code
  /\ spacecraft (keydown g code) = spacecraft g
  /\ spacecraft (keyup g code) = spacecraft g.
Proof.
  split; [|split; [|split; [|split; reflexivity]]].
  - intros L Rt U. unfold keydown, keyup, setKey.
    apply String.eqb_neq in L, Rt, U. rewrite L, Rt, U.
    split; apply with_keys_same.
  - unfold keyup, keydown, setKey. cbn [keys with_keys].
    destruct (String.eqb code "ArrowLeft"); [reflexivity|].
    destruct (String.eqb code "ArrowRight"); [reflexivity|].
    destruct (String.eqb code "ArrowUp"); reflexivity.
  - unfold keyup, keydown, setKey. cbn [keys with_keys].
    destruct (String.eqb code "ArrowLeft"); [reflexivity|].
    destruct (String.eqb code "ArrowRight"); [reflexivity|].
    destruct (String.eqb code "ArrowUp"); reflexivity.
Qed.

(** The space bar. *)
Lemma listeners_ignore_other_keys_witness :
  keydown fresh "Space" = fresh /\ keyup fresh "Space" = fresh.
Proof.
  apply (proj1 (listeners_ignore_other_keys fresh "Space")); discriminate.
Defined.

(** X9. The score shown on the dashboard is never negative, is at most
    2000 while the fuel is at most 100, is 0 once the penalties for speed
    and tilt reach 1000 plus ten times the fuel, and is 2000 right after
    [reset]. *)
Theorem score_bounds (g : Game) :
  (0 <= score g)%Z
  /\ (Spacecraft.fuel (spacecraft g) <= 100 -> (score g <= 2000)%Z)
  /\ (1000 + Spacecraft.fuel (spacecraft g) * 10
      <= Rabs (Spacecraft.velocityX (spacecraft g)) * 100
         + Rabs (Spacecraft.velocityY (spacecraft g)) * 100
         + Rabs (Spacecraft.rotation (spacecraft g)) * 10 ->
      score g = 0%Z)
  /\ forall random : nat -> R, score (Part001.reset random g) = 2000%Z.
Proof.
  unfold score. cbv zeta. unfold JS.Math_abs.
  set (x := 1000 + _ - _ - _ - _).
  pose proof (floor_bounds x) as B.
  pose proof (Rabs_pos (Spacecraft.velocityX (spacecraft g))).
  pose proof (Rabs_pos (Spacecraft.velocityY (spacecraft g))).
  pose proof (Rabs_pos (Spacecraft.rotation (spacecraft g))).
  split; [lia|]. split; [|split].
  - intros F. assert (IZR (JS.Math_floor x) <= 2000) by (unfold x in *; lra).
    apply le_IZR in H2. lia.
  - intros F. assert (IZR (JS.Math_floor x) <= 0) by (unfold x in *; lra).
    apply le_IZR in H2. lia.
  - intros random. cbn [spacecraft Part001.reset Common.reset Common.generateMoon
      Spacecraft.fuel Spacecraft.velocityX Spacecraft.velocityY Spacecraft.rotation].
    rewrite Rabs_R0.
    rewrite (floor_unique _ 2000); [reflexivity|lra].
Qed.

(** A full tank at rest. *)
Lemma score_bounds_witness : (score fresh <= 2000)%Z.
Proof.
  apply (proj1 (proj2 (score_bounds fresh))). simpl. lra.
Defined.

(** ** A session of [part_001] *)

Lemma part001_checkCollision_frame (g : Game) :
  moonPoints (Part001.checkCollision g) = moonPoints g
  /\ landingZoneIndex (Part001.checkCollision g) = landingZoneIndex g
  /\ isPaused (Part001.checkCollision g) = isPaused g
  /\ moonRotation (Part001.checkCollision g) = moonRotation g
  /\ keys (Part001.checkCollision g) = keys g.
Proof.
  unfold Part001.checkCollision.
  destruct (Part001.collision g); [|now repeat split].
  destruct (_ && _); now repeat split.
Qed.

Lemma part001_update_frame (g : Game) :
  moonPoints (Part001.update g) = moonPoints g
  /\ landingZoneIndex (Part001.update g) = landingZoneIndex g
  /\ isPaused (Part001.update g) = isPaused g
  /\ keys (Part001.update g) = keys g.
Proof.
  unfold Part001.update.
  destruct (negb (isGameActive g) || isPaused g); [now repeat split|].
  unfold updateDashboard.
  destruct (part001_checkCollision_frame (Part001.update_physics g))
    as (A & B & C & _ & D).
  rewrite A, B, C, D. now repeat split.
Qed.

(** A frame either leaves the verdict alone or ends the game with one. *)
Lemma part001_update_verdict (g : Game) :
  (isGameActive g = true <-> modal g = None) ->
  (outcome_part001 g = None <-> modal g = None) ->
  (isGameActive (Part001.update g) = true <-> modal (Part001.update g) = None)
  /\ (outcome_part001 (Part001.update g) = None
      <-> modal (Part001.update g) = None).
Proof.
  intros A O. unfold Part001.update.
  destruct (negb (isGameActive g) || isPaused g) eqn:E; [split; assumption|].
  apply orb_false_iff in E. destruct E as [E _].
  apply negb_false_iff in E.
  unfold updateDashboard, Part001.checkCollision.
  set (g1 := Part001.update_physics g).
  assert (M : modal g1 = None) by (apply A; exact E).
  assert (A1 : isGameActive g1 = true) by exact E.
  destruct (Part001.collision g1).
  - destruct (Part001.isInLandingZone g1 z), (Part001.isUprightLanding g1),
      (Part001.isSoftLanding g1); cbn; split; split; discriminate.
  - split; [rewrite A1, M; tauto|].
    unfold outcome_part001. rewrite M. tauto.
Qed.

(** The intervals: the one scheduled last has the length of the list of
    the earlier ones for its index. *)
Lemma nth_error_last (l : list (option Z)) (t : option Z) :
  nth_error (l ++ [t]) (List.length l) = Some t.
Proof. induction l as [|t0 l IH]; [reflexivity|exact IH]. Qed.

Lemma setTimer_last (l : list (option Z)) (t t' : option Z) :
  setTimer (l ++ [t]) (List.length l) t' = (l ++ [t'])%list.
Proof.
  induction l as [|t0 l IH]; [reflexivity|].
  cbn [List.length app setTimer]. now rewrite IH.
Qed.

Lemma nth_error_setTimer_same (l : list (option Z)) (t t' : option Z) :
  forall i : nat,
    nth_error l i = Some t -> nth_error (setTimer l i t') i = Some t'.
Proof.
  induction l as [|t0 l IH]; intros [|i] H; try discriminate.
  - reflexivity.
  - cbn [setTimer nth_error]. now apply IH.
Qed.

Lemma nth_error_setTimer_other (l : list (option Z)) (t : option Z) :
  forall i j : nat,
    i <> j -> nth_error (setTimer l i t) j = nth_error l j.
Proof.
  induction l as [|t0 l IH]; intros [|i] [|j] H; try reflexivity.
  - contradiction.
  - cbn [setTimer nth_error]. apply IH. congruence.
Qed.

(** The callback of the interval scheduled last. *)
Lemma timerFire_last (finish : Game -> Game) (g : Game) (h : bool)
    (t : CountdownText) (l : list (option Z)) (c : Z) :
  timerFire finish (List.length l) (mkPage g h t (l ++ [Some c]))
  = if (0 <? c - 1)%Z
    then mkPage g h (Digits (c - 1)) (l ++ [Some (c - 1)%Z])
    else if (c - 1 =? 0)%Z
    then mkPage g h Go (l ++ [Some (c - 1)%Z])
    else mkPage (finish g) true t (l ++ [None]).
Proof.
  unfold timerFire. cbn [timers game countdownHidden countdownText].
  rewrite nth_error_last. cbv zeta. rewrite !setTimer_last. reflexivity.
Qed.

Lemma timerFire_cleared (finish : Game -> Game) (g : Game) (h : bool)
    (t : CountdownText) (l : list (option Z)) :
  timerFire finish (List.length l) (mkPage g h t (l ++ [None]))
  = mkPage g h t (l ++ [None]).
Proof.
  unfold timerFire. cbn [timers]. now rewrite nth_error_last.
Qed.

Lemma invariant_start (random : nat -> R) (p : Page) :
  (forall k : nat, 0 <= random k < 1) ->
  modal (game p) = None ->
  sessionInvariant (Part001Page.startCountdown random p).
Proof.
  intros U M. unfold sessionInvariant, Part001Page.startCountdown.
  cbn [game timers].
  set (g0 := with_isPaused (game p) true).
  destruct (part001_zone_in_range random
              (mkGame (canvas_width g0) (canvas_height g0) (scale g0) true
                 (isPaused g0) (moonPoints g0) (landingZoneIndex g0)
                 (moonRotation g0) (moonCenter g0) (moonRadius g0)
                 (Spacecraft.mk (canvas_width g0 * 0.5)
                    (canvas_height g0 * 0.3) 0 0 0 100)
                 (keys g0) (modal g0)) U) as [Z L].
  split; [cbn; lra|]. split; [exact L|]. split; [exact Z|].
  split; [|split].
  - cbn. rewrite M. tauto.
  - unfold outcome_part001. cbn. rewrite M. tauto.
  - intros _. exists (List.length (timers p)), 3%Z.
    split; [apply nth_error_last|lia].
Qed.

Lemma invariant_step (p : Page) (e : Part001Page.Event) :
  sessionInvariant p -> goodEvent e -> sessionInvariant (Part001Page.step p e).
Proof.
  intros (F & L & Zn & A & O & T) G. destruct e as [|code|code|i|random].
  - (* frame *)
    unfold sessionInvariant.
    cbn [Part001Page.step Part001Page.withGame game timers].
    destruct (part001_update_frame (game p)) as (U1 & U2 & U3 & _).
    destruct (part001_update_verdict (game p) A O) as [A' O'].
    rewrite U1, U2, U3.
    split;
      [|split; [exact L|split; [exact Zn|split; [exact A'|split;
                                                 [exact O'|exact T]]]]].
    split.
    + apply part001_update_fuel_nonneg, F.
    + pose proof (part001_update_fuel_le (game p)). lra.
  - unfold sessionInvariant.
    cbn [Part001Page.step Part001Page.withGame game timers].
    exact (conj F (conj L (conj Zn (conj A (conj O T))))).
  - unfold sessionInvariant.
    cbn [Part001Page.step Part001Page.withGame game timers].
    exact (conj F (conj L (conj Zn (conj A (conj O T))))).
  - (* an interval fires *)
    unfold sessionInvariant.
    cbn [Part001Page.step]. unfold Part001Page.timerFire, timerFire.
    destruct (nth_error (timers p) i) as [[c|]|] eqn:N;
      [|exact (conj F (conj L (conj Zn (conj A (conj O T)))))
       |exact (conj F (conj L (conj Zn (conj A (conj O T)))))].
    cbv zeta.
    assert (K : forall c' : Z,
               (0 <= c' <= 3)%Z ->
               isPaused (game p) = true ->
               exists (j : nat) (count : Z),
                 nth_error (setTimer (timers p) i (Some c')) j
                 = Some (Some count)
                 /\ (0 <= count <= 3)%Z).
    { intros c' C' Pa. exists i, c'.
      split; [now apply (nth_error_setTimer_same _ (Some c))|exact C']. }
    destruct (0 <? c - 1)%Z eqn:E1; [|destruct (c - 1 =? 0)%Z eqn:E2];
      cbn [game timers].
    + apply Z.ltb_lt in E1.
      split; [exact F|]. split; [exact L|]. split; [exact Zn|].
      split; [exact A|]. split; [exact O|].
      intros Pa. destruct (T Pa) as (j & cj & Nj & Cj).
      destruct (Nat.eq_dec i j) as [<-|D].
      * apply K; [|exact Pa]. rewrite N in Nj. injection Nj as <-. lia.
      * exists j, cj. split; [|exact Cj].
        now rewrite nth_error_setTimer_other.
    + apply Z.eqb_eq in E2.
      split; [exact F|]. split; [exact L|]. split; [exact Zn|].
      split; [exact A|]. split; [exact O|].
      intros Pa. apply K; [lia|exact Pa].
    + split; [exact F|]. split; [exact L|]. split; [exact Zn|].
      split; [exact A|]. split; [exact O|].
      cbn. discriminate.
  - (* restart *)
    cbn [Part001Page.step]. apply invariant_start; [exact G|reflexivity].
Qed.

(** X10. From [startCountdown] on a page whose dialog is hidden, through
    any sequence of frames, key events, firings of any of the intervals
    and restarts, also restarts during a countdown, the game of [part_001]
    keeps: fuel between 0 and 100; 280 moon points; the landing zone
    between 65 and 75; the game active exactly when the dialog is hidden; a
    dialog that always carries one of the four verdicts; and, while the
    game is paused, a scheduled interval with a count between 0 and 3,
    whose fourth firing at the latest unpauses it. *)
Theorem session_keeps_the_invariant (random : nat -> R) (p : Page)
    (events : list Part001Page.Event) :
  (forall k : nat, 0 <= random k < 1) ->
  modal (game p) = None ->
  Forall goodEvent events ->
  sessionInvariant
    (Part001Page.session (Part001Page.startCountdown random p) events).
Proof.
  intros U M G.
  pose proof (invariant_start random p U M) as I.
  unfold Part001Page.session.
  revert I. generalize (Part001Page.startCountdown random p).
  induction G as [|e events Ge _ IH]; intros q I; [exact I|].
  cbn. apply IH. now apply invariant_step.
Qed.

(** A restart during the countdown: the first interval unpauses the game
    while the second is still scheduled; then a frame with the thrust key
    held, and the second interval. *)
Lemma session_keeps_the_invariant_witness :
  sessionInvariant
    (Part001Page.session
       (Part001Page.startCountdown (fun _ => 0)
          (mkPage canvas0 true Go []))
       [Part001Page.TimerFire 0; Part001Page.TimerFire 0;
        Part001Page.TryAgain (fun _ => 0);
        Part001Page.TimerFire 0; Part001Page.TimerFire 0;
        Part001Page.KeyDown "ArrowUp"; Part001Page.Frame;
        Part001Page.TimerFire 1; Part001Page.TimerFire 1;
        Part001Page.TimerFire 1; Part001Page.TimerFire 1]).
Proof.
  apply session_keeps_the_invariant.
  - intros k. lra.
  - reflexivity.
  - repeat (apply Forall_cons; [first [exact I | intros k; simpl; lra]|]).
    apply Forall_nil.
Defined.

(** A restart while the countdown runs leaves two intervals scheduled.
    When the older one has fired four times in all it unpauses the game and
    hides the countdown, although the newer one has not fired yet and is
    still scheduled. *)
Lemma restart_during_the_countdown (random random' : nat -> R) :
  let q := Part001Page.session
             (Part001Page.startCountdown random (mkPage canvas0 true Go []))
             [Part001Page.TimerFire 0; Part001Page.TimerFire 0;
              Part001Page.TryAgain random';
              Part001Page.TimerFire 0; Part001Page.TimerFire 0] in
  isPaused (game q) = false
  /\ isGameActive (game q) = true
  /\ countdownHidden q = true
  /\ timers q = [None; Some 3%Z].
Proof. cbv zeta. repeat split; reflexivity. Qed.

(** X11. The countdown of [part_001] resets the game at once, shows 3, 2,
    1 and GO! on successive firings of its interval with the game paused,
    and on the fourth firing hides itself, clears its interval and unpauses
    the game, which is otherwise the game as reset; a further firing does
    not happen.  The intervals of earlier countdowns are left as they
    are. *)
Theorem countdown_takes_four_ticks (random : nat -> R) (p : Page) :
  let i := List.length (timers p) in
  let p0 := Part001Page.startCountdown random p in
  let p1 := Part001Page.timerFire i p0 in
  let p2 := Part001Page.timerFire i p1 in
  let p3 := Part001Page.timerFire i p2 in
  let p4 := Part001Page.timerFire i p3 in
  map countdownText [p0; p1; p2; p3] = [Digits 3; Digits 2; Digits 1; Go]
  /\ map countdownHidden [p0; p1; p2; p3; p4]
     = [false; false; false; false; true]
  /\ map timers [p0; p1; p2; p3; p4]
     = [(timers p ++ [Some 3%Z])%list; (timers p ++ [Some 2%Z])%list;
        (timers p ++ [Some 1%Z])%list; (timers p ++ [Some 0%Z])%list;
        (timers p ++ [None])%list]
  /\ map (fun q => isPaused (game q)) [p0; p1; p2; p3; p4]
     = [true; true; true; true; false]
  /\ map game [p1; p2; p3] = [game p0; game p0; game p0]
  /\ game p4 = with_isPaused (game p0) false
  /\ isGameActive (game p4) = true
  /\ Spacecraft.fuel (spacecraft (game p4)) = 100
  /\ Part001Page.timerFire i p4 = p4.
Proof.
  cbv zeta. unfold Part001Page.startCountdown, Part001Page.timerFire.
  rewrite timerFire_last. cbn [Z.sub Z.add Z.opp Z.pos_sub Z.ltb Z.eqb
    Z.compare Pos.compare Pos.compare_cont Pos.pred_double Z.succ_double
    Z.pred_double Z.double].
  rewrite timerFire_last. cbn [Z.sub Z.add Z.opp Z.pos_sub Z.ltb Z.eqb
    Z.compare Pos.compare Pos.compare_cont Pos.pred_double Z.succ_double
    Z.pred_double Z.double].
  rewrite timerFire_last. cbn [Z.sub Z.add Z.opp Z.pos_sub Z.ltb Z.eqb
    Z.compare Pos.compare Pos.compare_cont Pos.pred_double Z.succ_double
    Z.pred_double Z.double].
  rewrite timerFire_last. cbn [Z.sub Z.add Z.opp Z.pos_sub Z.ltb Z.eqb
    Z.compare Pos.compare Pos.compare_cont Pos.pred_double Z.succ_double
    Z.pred_double Z.double].
  rewrite timerFire_cleared.
  repeat split; reflexivity.
Qed.

(** X12. The countdown of [script.js] leaves the game as it was, only
    paused, while it shows 3, 2, 1 and GO!, and resets the game on the
    fourth firing of its interval, when it also unpauses it and clears the
    interval.  The intervals of earlier countdowns are left as they are. *)
Theorem script_countdown_resets_at_the_end (random : nat -> R) (p : Page) :
  let i := List.length (timers p) in
  let p0 := ScriptPage.startCountdown p in
  let p1 := ScriptPage.timerFire random i p0 in
  let p2 := ScriptPage.timerFire random i p1 in
  let p3 := ScriptPage.timerFire random i p2 in
  let p4 := ScriptPage.timerFire random i p3 in
  map countdownText [p0; p1; p2; p3] = [Digits 3; Digits 2; Digits 1; Go]
  /\ map timers [p0; p1; p2; p3; p4]
     = [(timers p ++ [Some 3%Z])%list; (timers p ++ [Some 2%Z])%list;
        (timers p ++ [Some 1%Z])%list; (timers p ++ [Some 0%Z])%list;
        (timers p ++ [None])%list]
  /\ map game [p0; p1; p2; p3]
     = [with_isPaused (game p) true; with_isPaused (game p) true;
        with_isPaused (game p) true; with_isPaused (game p) true]
  /\ game p4 = Script.reset random (with_isPaused (game p) false)
  /\ isGameActive (game p4) = true
  /\ isPaused (game p4) = false
  /\ ScriptPage.timerFire random i p4 = p4.
Proof.
  cbv zeta. unfold ScriptPage.startCountdown, ScriptPage.timerFire.
  rewrite timerFire_last. cbn [Z.sub Z.add Z.opp Z.pos_sub Z.ltb Z.eqb
    Z.compare Pos.compare Pos.compare_cont Pos.pred_double Z.succ_double
    Z.pred_double Z.double].
  rewrite timerFire_last. cbn [Z.sub Z.add Z.opp Z.pos_sub Z.ltb Z.eqb
    Z.compare Pos.compare Pos.compare_cont Pos.pred_double Z.succ_double
    Z.pred_double Z.double].
  rewrite timerFire_last. cbn [Z.sub Z.add Z.opp Z.pos_sub Z.ltb Z.eqb
    Z.compare Pos.compare Pos.compare_cont Pos.pred_double Z.succ_double
    Z.pred_double Z.double].
  rewrite timerFire_last. cbn [Z.sub Z.add Z.opp Z.pos_sub Z.ltb Z.eqb
    Z.compare Pos.compare Pos.compare_cont Pos.pred_double Z.succ_double
    Z.pred_double Z.double].
  rewrite timerFire_cleared.
  repeat split; reflexivity.
Qed.

(** X13. While the game of [part_001] is paused, frames and key events
    leave the craft, the moon, its rotation, the dialog and the active flag
    as they are, and the game stays paused: only the keys are recorded. *)
Theorem paused_game_is_frozen (p : Page) (events : list Part001Page.Event) :
  isPaused (game p) = true ->
  Forall isInput events ->
  let q := Part001Page.session p events in
  spacecraft (game q) = spacecraft (game p)
  /\ moonPoints (game q) = moonPoints (game p)
  /\ moonRotation (game q) = moonRotation (game p)
  /\ modal (game q) = modal (game p)
  /\ isGameActive (game q) = isGameActive (game p)
  /\ isPaused (game q) = true.
Proof.
  intros P I. cbv zeta. unfold Part001Page.session.
  revert p P. induction I as [|e events Ie _ IH]; intros p P;
    [now repeat split|].
  cbn [fold_left].
  assert (S : spacecraft (game (Part001Page.step p e)) = spacecraft (game p)
              /\ moonPoints (game (Part001Page.step p e)) = moonPoints (game p)
              /\ moonRotation (game (Part001Page.step p e)) = moonRotation (game p)
              /\ modal (game (Part001Page.step p e)) = modal (game p)
              /\ isGameActive (game (Part001Page.step p e)) = isGameActive (game p)
              /\ isPaused (game (Part001Page.step p e)) = true).
  { destruct e; try contradiction; cbn [Part001Page.step Part001Page.withGame game].
    - rewrite part001_update_paused by exact P. now repeat split.
    - now repeat split.
    - now repeat split. }
  destruct S as (S1 & S2 & S3 & S4 & S5 & S6).
  destruct (IH _ S6) as (I1 & I2 & I3 & I4 & I5 & I6).
  rewrite I1, I2, I3, I4, I5, I6. now repeat split.
Qed.

(** Two frames and a key pressed and released during the countdown of a
    game that was just reset, so that it is active and paused. *)
Lemma paused_game_is_frozen_witness :
  let p := Part001Page.startCountdown (fun _ => 0)
             (mkPage canvas0 true Go []) in
  let q := Part001Page.session p
             [Part001Page.KeyDown "ArrowUp"; Part001Page.Frame;
              Part001Page.KeyUp "ArrowUp"; Part001Page.Frame] in
  spacecraft (game q) = spacecraft (game p)
  /\ moonPoints (game q) = moonPoints (game p)
  /\ moonRotation (game q) = moonRotation (game p)
  /\ modal (game q) = modal (game p)
  /\ isGameActive (game q) = isGameActive (game p)
  /\ isPaused (game q) = true.
Proof.
  apply (paused_game_is_frozen
           (Part001Page.startCountdown (fun _ => 0)
              (mkPage canvas0 true Go []))).
  - reflexivity.
  - repeat (apply Forall_cons; [exact I|]). apply Forall_nil.
Defined.

(** ** The first frame of a new game *)

Lemma part001_reset_surface (random : nat -> R) (g : Game) :
  (forall k : nat, 0 <= random k < 1) ->
  0 <= scale g ->
  flatZoneBumpyElsewhere Part001.MOON_BUMPINESS Part001.MOON_SEGMENTS
    (Part001.reset random g).
Proof.
  intros U S. unfold Part001.reset, Common.reset.
  apply generateMoon_surface; [unfold Part001.MOON_BUMPINESS; lra|exact U|exact S].
Qed.

Lemma reset_game_is_high_above (random : nat -> R) (c : Game) (k : Keys) :
  (forall n : nat, 0 <= random n < 1) ->
  0 <= scale c <= canvas_height c / 200 ->
  0 < canvas_height c ->
  let g0 := with_isPaused (Part001.reset random c) false in
  Part001.collision g0 = None
  /\ Part001.collision (Part001.update_physics (with_keys g0 k)) = None.
Proof.
  intros U Sc H. cbv zeta.
  set (g0 := with_isPaused (Part001.reset random c) false).
  set (s := scale c) in *. set (h := canvas_height c) in *.
  assert (Disc : forall p : Point.t, In p (moonPoints g0) ->
                 (Point.x p - Point.x (moonCenter g0)) * (Point.x p - Point.x (moonCenter g0))
                 + (Point.y p - Point.y (moonCenter g0)) * (Point.y p - Point.y (moonCenter g0))
                 <= (405 * s) * (405 * s)).
  { intros p I.
    pose proof (surface_in_disc Part001.MOON_BUMPINESS Part001.MOON_SEGMENTS
                  (Part001.reset random c)) as D.
    replace (405 * s) with (moonRadius (Part001.reset random c)
                            * (1 + Part001.MOON_BUMPINESS / 2)).
    2:{ cbn [moonRadius Part001.reset Common.reset Common.generateMoon scale].
        fold s. unfold MOON_RADIUS, Part001.MOON_BUMPINESS. lra. }
    apply D.
    - unfold Part001.MOON_BUMPINESS; lra.
    - cbn [moonRadius Part001.reset Common.reset Common.generateMoon scale].
      fold s. unfold MOON_RADIUS. lra.
    - apply part001_reset_surface; [exact U|]. apply Sc.
    - exact I. }
  split.
  - apply part001_no_collision.
    apply high_above_no_side_intersects with (D := 405 * s).
    + lra.
    + apply Sc.
    + exact Disc.
    + change (Spacecraft.y (spacecraft g0)) with (h * 0.3).
      change (scale g0) with s.
      change (Point.y (moonCenter g0)) with (h + MOON_RADIUS * s * 0.8).
      unfold Part001.SPACECRAFT_HEIGHT, MOON_RADIUS. lra.
  - set (g1 := with_keys g0 k).
    apply part001_no_collision.
    apply high_above_no_side_intersects with (D := 405 * s).
    + lra.
    + apply Sc.
    + exact Disc.
    + destruct (physics_position Part001.FUEL_CONSUMPTION
                  Part001.ROTATION_SPEED g1) as [_ PY].
      pose proof (physics_velocity_bounded Part001.FUEL_CONSUMPTION
                    Part001.ROTATION_SPEED g1) as B.
      cbv zeta in B. unfold Part001.update_physics. rewrite PY.
      set (vy := Spacecraft.velocityY
                   (spacecraft (Common.update_physics _ _ g1))) in *.
      set (vx := Spacecraft.velocityX
                   (spacecraft (Common.update_physics _ _ g1))) in *.
      change (Spacecraft.velocityX (spacecraft g1)) with 0 in B.
      change (Spacecraft.velocityY (spacecraft g1)) with 0 in B.
      change (Spacecraft.y (spacecraft g1)) with (h * 0.3).
      change (scale (Common.update_physics Part001.FUEL_CONSUMPTION
                       Part001.ROTATION_SPEED g1)) with s.
      change (scale g1) with s.
      change (Point.y (moonCenter
                         (Common.update_physics Part001.FUEL_CONSUMPTION
                            Part001.ROTATION_SPEED g1)))
        with (h + MOON_RADIUS * s * 0.8).
      unfold THRUST_FORCE, MOON_GRAVITY, dt, Part001.SPACECRAFT_HEIGHT,
        MOON_RADIUS in *.
      assert (V : vy <= 1) by nra.
      assert (vy * (1 / 60) * s <= s) by nra.
      lra.
Qed.

(** X14. In a window of any width and positive height, a game of
    [part_001] that was just reset is clear of the moon, and its first frame
    after the countdown, whatever keys are held, is the physics step alone:
    the game stays active and no dialog opens. *)
Theorem new_game_survives_its_first_frame
    (random : nat -> R) (innerWidth innerHeight : R) (g : Game) (k : Keys) :
  (forall n : nat, 0 <= random n < 1) ->
  0 <= innerWidth ->
  0 < innerHeight ->
  let g0 := with_isPaused
              (Part001.reset random (resizeCanvas innerWidth innerHeight g))
              false in
  Part001.collision g0 = None
  /\ Part001.tick g0 k = Part001.update_physics (with_keys g0 k)
  /\ isGameActive (Part001.tick g0 k) = true
  /\ modal (Part001.tick g0 k) = modal g.
Proof.
  intros U W H. cbv zeta.
  destruct (reset_game_is_high_above random
              (resizeCanvas innerWidth innerHeight g) k U) as [N0 N1].
  { cbn [scale canvas_height resizeCanvas].
    pose proof (Rmin_glb _ _ _ W (Rlt_le _ _ H)).
    pose proof (Rmin_r innerWidth innerHeight). lra. }
  { exact H. }
  split; [exact N0|].
  set (g0 := with_isPaused _ false) in *.
  assert (T : Part001.tick g0 k = Part001.update_physics (with_keys g0 k)).
  { unfold Part001.tick. rewrite part001_update_active by reflexivity.
    unfold Part001.checkCollision. now rewrite N1. }
  split; [exact T|]. rewrite T. split; reflexivity.
Qed.

(** A window of 800 by 600, the thrust key held. *)
Lemma new_game_survives_its_first_frame_witness :
  isGameActive
    (Part001.tick
       (with_isPaused
          (Part001.reset (fun _ => 0) (resizeCanvas 800 600 canvas0)) false)
       thrustKey)
  = true.
Proof.
  assert (U : forall n : nat, 0 <= (fun _ : nat => 0) n < 1)
    by (intros n; simpl; lra).
  assert (W : 0 <= 800) by lra.
  assert (H : 0 < 600) by lra.
  exact (proj1 (proj2 (proj2
           (new_game_survives_its_first_frame (fun _ => 0) 800 600 canvas0
              thrustKey U W H)))).
Defined.

(** ** Frames of [part_001] *)

Lemma physics_ignores_thrust_when_empty (fc rs : R) (g : Game) (l r u : bool) :
  Spacecraft.fuel (spacecraft g) <= 0 ->
  Common.update_physics fc rs (with_keys g (mkKeys l r u))
  = with_keys (Common.update_physics fc rs (with_keys g (mkKeys l r false)))
      (mkKeys l r u).
Proof.
  intros F. unfold Common.update_physics. cbn.
  assert (E : forall s : Spacecraft.t,
             Spacecraft.fuel s = Spacecraft.fuel (spacecraft g) ->
             JS.gtb (Spacecraft.fuel s) 0 = false).
  { intros s ->. apply ltb_false. exact F. }
  destruct l, r; cbn; rewrite E by reflexivity;
    rewrite andb_false_r; reflexivity.
Qed.

Lemma part001_checkCollision_keys (g : Game) (k : Keys) :
  Part001.checkCollision (with_keys g k) = with_keys (Part001.checkCollision g) k.
Proof.
  unfold Part001.checkCollision.
  change (Part001.collision (with_keys g k)) with (Part001.collision g).
  destruct (Part001.collision g); [|reflexivity].
  change (Part001.isInLandingZone (with_keys g k) z) with (Part001.isInLandingZone g z).
  change (Part001.isUprightLanding (with_keys g k)) with (Part001.isUprightLanding g).
  change (Part001.isSoftLanding (with_keys g k)) with (Part001.isSoftLanding g).
  destruct (_ && _); [reflexivity|].
  destruct (negb _); [reflexivity|]. destruct (negb _); reflexivity.
Qed.

(** X15. With an empty tank, a frame of [part_001] with the thrust key
    held gives the game it gives with the key up, apart from the recorded
    key. *)
Theorem thrust_is_inert_on_an_empty_tank (g : Game) (l r u : bool) :
  Spacecraft.fuel (spacecraft g) <= 0 ->
  Part001.tick g (mkKeys l r u)
  = with_keys (Part001.tick g (mkKeys l r false)) (mkKeys l r u).
Proof.
  intros F. unfold Part001.tick, Part001.update.
  change (isGameActive (with_keys g (mkKeys l r u))) with (isGameActive g).
  change (isPaused (with_keys g (mkKeys l r u))) with (isPaused g).
  change (isGameActive (with_keys g (mkKeys l r false))) with (isGameActive g).
  change (isPaused (with_keys g (mkKeys l r false))) with (isPaused g).
  destruct (negb (isGameActive g) || isPaused g); [reflexivity|].
  unfold updateDashboard, Part001.update_physics.
  rewrite (physics_ignores_thrust_when_empty _ _ g l r u F).
  apply part001_checkCollision_keys.
Qed.

(** [fresh] with an empty tank. *)
Lemma thrust_is_inert_on_an_empty_tank_witness :
  let g := with_spacecraft fresh (Spacecraft.mk 400 180 0 0 0 0) in
  Part001.tick g (mkKeys false false true)
  = with_keys (Part001.tick g (mkKeys false false false))
      (mkKeys false false true).
Proof.
  apply (thrust_is_inert_on_an_empty_tank
           (with_spacecraft fresh (Spacecraft.mk 400 180 0 0 0 0))).
  simpl. lra.
Defined.

(** X16. A craft of [part_001] straight above the moon's center, with no
    sideways velocity and the thrust key up, stays straight above it for a
    frame: only its vertical velocity grows, by [MOON_GRAVITY * dt], and it
    moves down by the new velocity times [dt] times the scale. *)
Theorem craft_above_the_center_falls_straight (g : Game) :
  isGameActive g = true ->
  isPaused g = false ->
  ArrowUp (keys g) = false ->
  Spacecraft.x (spacecraft g) = Point.x (moonCenter g) ->
  Spacecraft.y (spacecraft g) < Point.y (moonCenter g) ->
  Spacecraft.velocityX (spacecraft g) = 0 ->
  let s := spacecraft g in
  let s' := spacecraft (Part001.update g) in
  Spacecraft.x s' = Spacecraft.x s
  /\ Spacecraft.velocityX s' = 0
  /\ Spacecraft.velocityY s' = Spacecraft.velocityY s + MOON_GRAVITY * dt
  /\ Spacecraft.y s'
     = Spacecraft.y s
       + (Spacecraft.velocityY s + MOON_GRAVITY * dt) * dt * scale g.
Proof.
  intros A P U X Y V. cbv zeta.
  rewrite part001_update_spacecraft by assumption.
  destruct (physics_no_thrust Part001.FUEL_CONSUMPTION Part001.ROTATION_SPEED
              g U) as (VX & VY & PX & PY).
  unfold Part001.update_physics. rewrite PX, PY, VX, VY, X, V.
  replace (Point.x (moonCenter g) - Point.x (moonCenter g)) with 0 by ring.
  rewrite atan2_up by lra.
  unfold JS.Math_cos, JS.Math_sin. rewrite cos_PI2, sin_PI2.
  repeat split; ring.
Qed.

(** [fresh] is straight above the center, at rest. *)
Lemma craft_above_the_center_falls_straight_witness :
  Spacecraft.velocityY (spacecraft (Part001.update fresh))
  = Spacecraft.velocityY (spacecraft fresh) + MOON_GRAVITY * dt.
Proof.
  assert (Y : Spacecraft.y (spacecraft fresh) < Point.y (moonCenter fresh))
    by (simpl; unfold MOON_RADIUS; lra).
  exact (proj1 (proj2 (proj2
           (craft_above_the_center_falls_straight fresh eq_refl eq_refl
              eq_refl eq_refl Y eq_refl)))).
Defined.

Lemma part001_tick_moonRotation (g : Game) (k : Keys) :
  moonRotation (Part001.tick g k)
  = if negb (isGameActive g) || isPaused g then moonRotation g
    else moonRotation g + MOON_ROTATION_SPEED * dt * PI * 2.
Proof.
  unfold Part001.tick, Part001.update.
  change (isGameActive (with_keys g k)) with (isGameActive g).
  change (isPaused (with_keys g k)) with (isPaused g).
  destruct (negb (isGameActive g) || isPaused g); [reflexivity|].
  unfold updateDashboard.
  destruct (part001_checkCollision_frame (Part001.update_physics (with_keys g k)))
    as (_ & _ & _ & M & _).
  rewrite M. reflexivity.
Qed.

(** X17. The moon of [part_001] turns by the same angle in every active,
    unpaused frame and not at all in any other frame, so after any number of
    frames it has turned forward by at most that many steps; [reset] does not
    turn it back. *)
Theorem moon_turns_only_in_active_frames :
  (forall (g : Game) (k : Keys),
      isGameActive g = true -> isPaused g = false ->
      moonRotation (Part001.tick g k)
      = moonRotation g + MOON_ROTATION_SPEED * dt * PI * 2)
  /\ (forall (g : Game) (k : Keys),
      isGameActive g = false \/ isPaused g = true ->
      moonRotation (Part001.tick g k) = moonRotation g)
  /\ (forall (g : Game) (ks : list Keys),
      moonRotation g <= moonRotation (Part001.run g ks)
      <= moonRotation g
         + INR (List.length ks) * (MOON_ROTATION_SPEED * dt * PI * 2))
  /\ (forall (random : nat -> R) (g : Game),
      moonRotation (Part001.reset random g) = moonRotation g).
Proof.
  assert (D : 0 < MOON_ROTATION_SPEED * dt * PI * 2).
  { pose proof PI_RGT_0. unfold MOON_ROTATION_SPEED, dt. nra. }
  split; [|split; [|split]].
  - intros g k A P. rewrite part001_tick_moonRotation, A, P. reflexivity.
  - intros g k [A|P]; rewrite part001_tick_moonRotation.
    + rewrite A. reflexivity.
    + rewrite P, orb_true_r. reflexivity.
  - intros g ks. revert g. induction ks as [|k ks IH]; intros g.
    + cbn. lra.
    + change (Part001.run g (k :: ks)) with (Part001.run (Part001.tick g k) ks).
      specialize (IH (Part001.tick g k)).
      rewrite part001_tick_moonRotation in IH.
      change (List.length (k :: ks)) with (S (List.length ks)).
      rewrite S_INR.
      assert (0 <= INR (List.length ks)) by apply pos_INR.
      destruct (negb (isGameActive g) || isPaused g); nra.
  - reflexivity.
Qed.

(** A frame of [fresh]. *)
Lemma moon_turns_only_in_active_frames_witness :
  moonRotation (Part001.tick fresh thrustKey)
  = moonRotation fresh + MOON_ROTATION_SPEED * dt * PI * 2.
Proof.
  apply (proj1 moon_turns_only_in_active_frames); reflexivity.
Defined.

(** ** The two upright tests *)

(** X18. For a craft straight above the moon's center whose rotation is
    between -180 and 180, the normalized rotation of [part_001] is the
    rotation itself, so the upright tests of the two files agree. *)
Theorem upright_tests_agree_above_the_center (g : Game) :
  Spacecraft.x (spacecraft g) = Point.x (moonCenter g) ->
  Spacecraft.y (spacecraft g) < Point.y (moonCenter g) ->
  -180 <= Spacecraft.rotation (spacecraft g) <= 180 ->
  Part001.normalizedRotation g = Spacecraft.rotation (spacecraft g)
  /\ Part001.isUprightLanding g = Script.isUprightLanding g.
Proof.
  intros X Y Rg.
  pose proof (normalizedRotation_above g X Y Rg) as E.
  split; [exact E|].
  unfold Part001.isUprightLanding, Script.isUprightLanding. now rewrite E.
Qed.

(** [fresh] is straight above the center, upright. *)
Lemma upright_tests_agree_above_the_center_witness :
  Part001.normalizedRotation fresh = Spacecraft.rotation (spacecraft fresh)
  /\ Part001.isUprightLanding fresh = Script.isUprightLanding fresh.
Proof.
  apply upright_tests_agree_above_the_center.
  - reflexivity.
  - simpl. unfold MOON_RADIUS. lra.
  - simpl. lra.
Defined.

(** X19. Whole turns added to the craft's rotation change neither the
    size of the normalized rotation nor the upright verdict of [part_001].
    [script.js] compares the raw rotation: an upright craft turned by any
    nonzero number of whole turns fails its test. *)
Theorem full_turns_keep_the_radial_verdict (g : Game) (n : Z) :
  Rabs (Part001.normalizedRotation (turned g (360 * IZR n)))
  = Rabs (Part001.normalizedRotation g)
  /\ Part001.isUprightLanding (turned g (360 * IZR n))
     = Part001.isUprightLanding g
  /\ (n <> 0%Z ->
      Spacecraft.rotation (spacecraft g) = 0 ->
      Script.isUprightLanding g = true
      /\ Script.isUprightLanding (turned g (360 * IZR n)) = false).
Proof.
  assert (E : Rabs (Part001.normalizedRotation (turned g (360 * IZR n)))
              = Rabs (Part001.normalizedRotation g)).
  { destruct (normalizedRotation_congruent (turned g (360 * IZR n))) as [q1 H1].
    destruct (normalizedRotation_congruent g) as [q2 H2].
    pose proof (normalizedRotation_range (turned g (360 * IZR n))) as R1.
    pose proof (normalizedRotation_range g) as R2.
    change (Part001.angleToCenter (turned g (360 * IZR n)))
      with (Part001.angleToCenter g) in H1.
    change (Spacecraft.rotation (spacecraft (turned g (360 * IZR n))))
      with (Spacecraft.rotation (spacecraft g) + 360 * IZR n) in H1.
    set (a := Part001.normalizedRotation (turned g (360 * IZR n))) in *.
    set (b := Part001.normalizedRotation g) in *.
    assert (D : a - b = 360 * IZR (n + q1 - q2)).
    { rewrite minus_IZR, plus_IZR. lra. }
    set (z := (n + q1 - q2)%Z) in *.
    assert (Zr : (-1 <= z <= 1)%Z).
    { assert (-2 < IZR z < 2) by lra.
      destruct H as [Ha Hb]. apply lt_IZR in Ha, Hb. lia. }
    assert (Zc : z = (-1)%Z \/ z = 0%Z \/ z = 1%Z) by lia.
    destruct Zc as [Zc|[Zc|Zc]]; rewrite Zc in D; cbn [IZR IPR] in D.
    - assert (a = -180 /\ b = 180) as [-> ->] by lra.
      rewrite (Rabs_right 180), (Rabs_left (-180)); lra.
    - assert (a = b) as -> by lra. reflexivity.
    - assert (a = 180 /\ b = -180) as [-> ->] by lra.
      rewrite (Rabs_right 180), (Rabs_left (-180)); lra. }
  split; [exact E|]. split.
  - unfold Part001.isUprightLanding, JS.Math_abs. now rewrite E.
  - intros N Z0. unfold Script.isUprightLanding, JS.Math_abs, turned.
    cbn [spacecraft with_spacecraft Spacecraft.rotation Spacecraft.with_rotation].
    rewrite Z0. split.
    + apply leb_true. rewrite Rabs_R0. unfold ACCEPTABLE_LANDING_ANGLE. lra.
    + apply leb_false. unfold ACCEPTABLE_LANDING_ANGLE.
      assert (1 <= Rabs (IZR n)).
      { rewrite <- abs_IZR. apply IZR_le. lia. }
      rewrite Rplus_0_l, Rabs_mult, (Rabs_right 360) by lra. lra.
Qed.

(** [fresh] turned once around. *)
Lemma full_turns_keep_the_radial_verdict_witness :
  Script.isUprightLanding fresh = true
  /\ Script.isUprightLanding (turned fresh (360 * IZR 1)) = false.
Proof.
  apply (proj2 (proj2 (full_turns_keep_the_radial_verdict fresh 1)));
    [lia | reflexivity].
Defined.

(** ** The ring of the moon *)

(** A surface point's distance from the center is the radius plus its
    offset, so it stays within half the bumpiness of the radius. *)
Lemma surface_band (bumpiness : R) (segments : Z) (g : Game) :
  0 <= bumpiness <= 2 ->
  0 <= moonRadius g ->
  flatZoneBumpyElsewhere bumpiness segments g ->
  forall p : Point.t, In p (moonPoints g) ->
    moonRadius g * (1 - bumpiness / 2) <= centerDistance g p
    <= moonRadius g * (1 + bumpiness / 2).
Proof.
  intros Hb Hr F p I.
  destruct (In_nth_error _ _ I) as [i Hi].
  destruct (F i p Hi) as (offset & O & Zn & Nz).
  assert (P : 0 <= moonRadius g * bumpiness) by (apply Rmult_le_pos; lra).
  assert (Q : moonRadius g * bumpiness <= moonRadius g * 2)
    by (apply Rmult_le_compat_l; lra).
  assert (B : - (moonRadius g * bumpiness / 2) <= offset
              <= moonRadius g * bumpiness / 2).
  { destruct (Z_le_dec (landingZoneIndex g) (Z.of_nat i)) as [A|A];
      [destruct (Z_le_dec (Z.of_nat i) (landingZoneIndex g + 1)) as [A'|A']|].
    - destruct Zn as [-> _]; [split; assumption|]. lra.
    - apply Nz. unfold inZoneSpan. lia.
    - apply Nz. unfold inZoneSpan. lia. }
  unfold hasOffset in O. cbv zeta in O. rewrite O.
  unfold centerDistance. cbn [Point.x Point.y].
  rewrite on_circle by lra. lra.
Qed.

Lemma script_reset_surface (random : nat -> R) (g : Game) :
  (forall k : nat, 0 <= random k < 1) ->
  0 <= scale g ->
  flatZoneBumpyElsewhere Script.MOON_BUMPINESS Script.MOON_SEGMENTS
    (Script.reset random g).
Proof.
  intros U S. unfold Script.reset, Common.reset.
  apply generateMoon_surface;
    [unfold Script.MOON_BUMPINESS; lra|exact U|exact S].
Qed.

(** X20. [generateMoon] pushes exactly [MOON_SEGMENTS] points around a
    center 0.8 radii below the canvas's bottom edge, each within half the
    bumpiness of the moon's radius from it; the first point lies level
    with the center, to its right.  The craft and the moon's rotation are left as they are. *)
Theorem generated_surface_is_a_ring (bumpiness : R) (segments : Z)
    (random : nat -> R) (g : Game) :
  0 <= bumpiness <= 2 ->
  (forall k : nat, 0 <= random k < 1) ->
  0 <= scale g ->
  let m := Common.generateMoon bumpiness segments random g in
  List.length (moonPoints m) = Z.to_nat segments
  /\ moonRadius m = MOON_RADIUS * scale g
  /\ moonCenter m
     = Point.mk (canvas_width g * 0.5)
         (canvas_height g + MOON_RADIUS * scale g * 0.8)
  /\ (forall p : Point.t, In p (moonPoints m) ->
        moonRadius m * (1 - bumpiness / 2) <= centerDistance m p
        <= moonRadius m * (1 + bumpiness / 2))
  /\ (forall p : Point.t,
        nth_error (moonPoints m) 0 = Some p -> (0 < segments)%Z ->
        Point.y p = Point.y (moonCenter m)
        /\ Point.x (moonCenter m) <= Point.x p)
  /\ spacecraft m = spacecraft g
  /\ moonRotation m = moonRotation g.
Proof.
  intros Hb Hr Hs m.
  assert (R0 : 0 <= moonRadius m).
  { cbn [m moonRadius Common.generateMoon]. unfold MOON_RADIUS. lra. }
  pose proof (generateMoon_surface bumpiness segments random g
                (proj1 Hb) Hr Hs) as F.
  fold m in F.
  split; [apply generateMoon_length|].
  split; [reflexivity|]. split; [reflexivity|].
  split; [exact (surface_band bumpiness segments m Hb R0 F)|].
  split; [|split; reflexivity].
  intros p H0 Sg.
  destruct (F 0%nat p H0) as (offset & O & Zn & Nz).
  pose proof (surface_band bumpiness segments m Hb R0 F p
                (nth_error_In _ _ H0)) as B.
  unfold hasOffset in O. cbv zeta in O.
  change (IZR (Z.of_nat 0)) with 0 in O. rewrite Rmult_0_r in O.
  unfold JS.Math_cos, JS.Math_sin in O. rewrite cos_0, sin_0 in O.
  rewrite O in B |- *. cbn [Point.x Point.y].
  assert (D : centerDistance m
                (Point.mk (Point.x (moonCenter m) + 1 * (moonRadius m + offset))
                   (Point.y (moonCenter m) - 0 * (moonRadius m + offset)))
              = Rabs (moonRadius m + offset)).
  { unfold centerDistance, JS.Math_sqrt, JS.Math_pow2. cbn [Point.x Point.y].
    replace ((Point.x (moonCenter m) + 1 * (moonRadius m + offset)
              - Point.x (moonCenter m))
             * (Point.x (moonCenter m) + 1 * (moonRadius m + offset)
                - Point.x (moonCenter m))
             + (Point.y (moonCenter m) - 0 * (moonRadius m + offset)
                - Point.y (moonCenter m))
               * (Point.y (moonCenter m) - 0 * (moonRadius m + offset)
                  - Point.y (moonCenter m)))
      with (Rsqr (moonRadius m + offset)) by (unfold Rsqr; ring).
    apply sqrt_Rsqr_abs. }
  split; [ring|].
  assert (0 <= moonRadius m + offset).
  { destruct (Z_le_dec (landingZoneIndex m) (Z.of_nat 0)) as [A|A];
      [destruct (Z_le_dec (Z.of_nat 0) (landingZoneIndex m + 1)) as [A'|A']|].
    - destruct Zn as [-> _]; [split; assumption|]. lra.
    - assert (N : ~ inZoneSpan m 0) by (unfold inZoneSpan; lia).
      specialize (Nz N).
      assert (moonRadius m * bumpiness <= moonRadius m * 2)
        by (apply Rmult_le_compat_l; lra). lra.
    - assert (N : ~ inZoneSpan m 0) by (unfold inZoneSpan; lia).
      specialize (Nz N).
      assert (moonRadius m * bumpiness <= moonRadius m * 2)
        by (apply Rmult_le_compat_l; lra). lra. }
  lra.
Qed.

(** The moon of [part_001] in a window of 800 by 600. *)
Lemma generated_surface_is_a_ring_witness :
  List.length
    (moonPoints
       (Common.generateMoon Part001.MOON_BUMPINESS Part001.MOON_SEGMENTS
          (fun _ => 0) canvas0))
  = Z.to_nat Part001.MOON_SEGMENTS.
Proof.
  assert (B : 0 <= Part001.MOON_BUMPINESS <= 2)
    by (unfold Part001.MOON_BUMPINESS; lra).
  assert (U : forall k : nat, 0 <= (fun _ : nat => 0) k < 1)
    by (intros k; simpl; lra).
  assert (S : 0 <= scale canvas0) by (simpl; lra).
  exact (proj1 (generated_surface_is_a_ring Part001.MOON_BUMPINESS
                  Part001.MOON_SEGMENTS (fun _ => 0) canvas0 B U S)).
Defined.

(** The point [script.js] measures against is a surface point turned by
    the moon's rotation, which is as far from the center as before. *)
Lemma script_surfacePoint_origin (g : Game) (p : Point.t) :
  Script.surfacePoint g = Some p ->
  exists q : Point.t,
    In q (moonPoints g) /\ Script.surfaceDistance p g = centerDistance g q.
Proof.
  unfold Script.surfacePoint. destruct (_ <? 0)%Z; [discriminate|].
  intros H. apply nth_error_In in H. unfold Script.rotatedPoints in H.
  apply in_map_iff in H. destruct H as (q & <- & I).
  exists q. split; [exact I|].
  unfold Script.surfaceDistance, centerDistance, JS.Math_pow2.
  now rewrite rotatePoint_distance.
Qed.

Lemma script_surfacePoint_some (g : Game) :
  (2 <= List.length (moonPoints g))%nat ->
  exists p : Point.t, Script.surfacePoint g = Some p.
Proof.
  intros L. pose proof (script_closestSegmentIndex_range g L) as Rg.
  unfold Script.surfacePoint.
  destruct (Script.closestSegmentIndex g <? 0)%Z eqn:N;
    [apply Z.ltb_lt in N; lia|].
  destruct (nth_error (Script.rotatedPoints g)
              (Z.to_nat (Script.closestSegmentIndex g))) eqn:E;
    [now eexists|].
  apply nth_error_None in E. unfold Script.rotatedPoints in E.
  rewrite length_map in E. lia.
Qed.

Lemma script_above_the_ring (bumpiness : R) (segments : Z) (g : Game) :
  0 <= bumpiness <= 2 ->
  0 <= moonRadius g ->
  flatZoneBumpyElsewhere bumpiness segments g ->
  (2 <= List.length (moonPoints g))%nat ->
  moonRadius g * (1 + bumpiness / 2) <= Script.distanceToCenter g ->
  Script.checkCollision g = Some g.
Proof.
  intros Hb Hr F L H.
  destruct (script_surfacePoint_some g L) as [p P].
  destruct (script_surfacePoint_origin g p P) as (q & I & D).
  pose proof (surface_band bumpiness segments g Hb Hr F q I) as B.
  apply (script_no_collision g p P). lra.
Qed.

(** X21. On a surface as [generateMoon] makes it, [checkCollision] of
    [script.js] does nothing while the craft's bottom point is beyond the
    outer edge of the bumps, and ends the game once it is below their inner
    edge, as a success exactly when the three landing tests pass. *)
Theorem script_collision_is_decided_by_altitude (bumpiness : R)
    (segments : Z) (g : Game) :
  0 <= bumpiness <= 2 ->
  0 <= moonRadius g ->
  flatZoneBumpyElsewhere bumpiness segments g ->
  (2 <= List.length (moonPoints g))%nat ->
  (moonRadius g * (1 + bumpiness / 2) <= Script.distanceToCenter g ->
   Script.checkCollision g = Some g)
  /\ (Script.distanceToCenter g < moonRadius g * (1 - bumpiness / 2) ->
      exists success reason,
        Script.checkCollision g = Some (endGame g success reason)
        /\ (success = true
            <-> Script.isInLandingZone g = true
                /\ Script.isUprightLanding g = true
                /\ Script.isSoftLanding g = true)).
Proof.
  intros Hb Hr F L.
  destruct (script_surfacePoint_some g L) as [p P].
  destruct (script_surfacePoint_origin g p P) as (q & I & D).
  pose proof (surface_band bumpiness segments g Hb Hr F q I) as B.
  split; intros H.
  - now apply (script_above_the_ring bumpiness segments).
  - unfold Script.checkCollision. rewrite P.
    unfold JS.geb. rewrite (proj2 (leb_false _ _)) by lra.
    destruct (Script.isInLandingZone g), (Script.isUprightLanding g),
      (Script.isSoftLanding g); cbn [andb negb];
      eexists _, _; (split; [reflexivity|]);
      split; intros K; try discriminate; try (now repeat split);
      destruct K as (K1 & K2 & K3); discriminate.
Qed.

(** [freshScript] is 1371 from the center of a moon of radius 1200. *)
Lemma script_collision_is_decided_by_altitude_witness :
  Script.checkCollision freshScript = Some freshScript.
Proof.
  assert (B : 0 <= Script.MOON_BUMPINESS <= 2)
    by (unfold Script.MOON_BUMPINESS; lra).
  assert (R0 : 0 <= moonRadius freshScript)
    by (simpl; unfold MOON_RADIUS; lra).
  assert (F : flatZoneBumpyElsewhere Script.MOON_BUMPINESS
                Script.MOON_SEGMENTS freshScript).
  { apply (script_reset_surface (fun _ => 0) canvas0).
    - intros k. lra.
    - simpl. lra. }
  assert (L : (2 <= List.length (moonPoints freshScript))%nat)
    by (rewrite freshScript_length; lia).
  apply (proj1 (script_collision_is_decided_by_altitude
                  Script.MOON_BUMPINESS Script.MOON_SEGMENTS freshScript
                  B R0 F L)).
  unfold Script.distanceToCenter, JS.Math_sqrt, JS.Math_pow2.
  cbn. rewrite (sqrt_unique _ 1371).
  - unfold MOON_RADIUS, Script.MOON_BUMPINESS. lra.
  - lra.
  - unfold MOON_RADIUS, Script.SPACECRAFT_HEIGHT. lra.
Defined.

(** X22. The segment the scan of [part_001] reports is the first one
    the box intersects: no earlier segment is hit.  The scan reports nothing
    exactly when no pair of consecutive stored points is hit, in particular
    when there are fewer than two points, where [script.js] throws. *)
Theorem collision_reports_the_first_hit (g : Game) :
  (forall s : Z,
      Part001.collision g = Some s ->
      (0 <= s <= Z.of_nat (List.length (moonPoints g)) - 2)%Z
      /\ exists p1 p2 : Point.t,
           nth_error (Part001.rotatedPoints g) (Z.to_nat s) = Some p1
           /\ nth_error (Part001.rotatedPoints g) (S (Z.to_nat s)) = Some p2
           /\ Part001.boxIntersects (Part001.corners g) p1 p2 = true
           /\ forall (m : nat) (q1 q2 : Point.t),
                (m < Z.to_nat s)%nat ->
                nth_error (Part001.rotatedPoints g) m = Some q1 ->
                nth_error (Part001.rotatedPoints g) (S m) = Some q2 ->
                Part001.boxIntersects (Part001.corners g) q1 q2 = false)
  /\ (Part001.collision g = None
      <-> forall (m : nat) (q1 q2 : Point.t),
            nth_error (Part001.rotatedPoints g) m = Some q1 ->
            nth_error (Part001.rotatedPoints g) (S m) = Some q2 ->
            Part001.boxIntersects (Part001.corners g) q1 q2 = false)
  /\ ((List.length (moonPoints g) < 2)%nat -> Part001.collision g = None).
Proof.
  split; [|split].
  - intros s H. unfold Part001.collision in H.
    apply findCollision_some in H.
    destruct H as (n & p1 & p2 & -> & H1 & H2 & B & Fst).
    replace (Z.to_nat (0 + Z.of_nat n)) with n by lia.
    split.
    + assert (S n < List.length (Part001.rotatedPoints g))%nat
        by (apply nth_error_Some; now rewrite H2).
      unfold Part001.rotatedPoints in H. rewrite length_map in H. lia.
    + exists p1, p2. repeat split; assumption.
  - apply findCollision_none.
  - intros L. apply (proj2 (findCollision_none _ _ 0%Z)).
    intros m q1 q2 _ H2.
    assert (S m < List.length (Part001.rotatedPoints g))%nat
      by (apply nth_error_Some; now rewrite H2).
    unfold Part001.rotatedPoints in H. rewrite length_map in H. lia.
Qed.

(** [touching] hits its only segment. *)
Lemma collision_reports_the_first_hit_witness :
  (0 <= 0 <= Z.of_nat (List.length (moonPoints touching)) - 2)%Z.
Proof.
  exact (proj1 (proj1 (collision_reports_the_first_hit touching) 0%Z
                  touching_collision)).
Defined.

(** X23. In a window of any width and positive height, the first frame
    of [script.js] after the countdown's [reset], whatever keys are held,
    is the physics step alone: it returns, the game stays active and no
    dialog opens. *)
Theorem script_new_game_survives_its_first_frame
    (random : nat -> R) (innerWidth innerHeight : R) (g : Game) (k : Keys) :
  (forall n : nat, 0 <= random n < 1) ->
  0 <= innerWidth ->
  0 < innerHeight ->
  let g0 := with_keys
              (Script.reset random
                 (with_isPaused (resizeCanvas innerWidth innerHeight g) false))
              k in
  Script.update g0 = Some (Script.update_physics g0)
  /\ isGameActive (Script.update_physics g0) = true
  /\ modal (Script.update_physics g0) = modal g.
Proof.
  intros U W H. cbv zeta.
  set (c := with_isPaused (resizeCanvas innerWidth innerHeight g) false).
  set (g0 := with_keys (Script.reset random c) k).
  set (s := Rmin innerWidth innerHeight / 200).
  assert (Sc : 0 <= s <= innerHeight / 200).
  { unfold s. pose proof (Rmin_glb _ _ _ W (Rlt_le _ _ H)).
    pose proof (Rmin_r innerWidth innerHeight). lra. }
  set (g1 := Script.update_physics g0).
  assert (F : flatZoneBumpyElsewhere Script.MOON_BUMPINESS
                Script.MOON_SEGMENTS g1).
  { apply (script_reset_surface random c U). apply Sc. }
  assert (L : (2 <= List.length (moonPoints g1))%nat).
  { change (moonPoints g1) with (moonPoints (Script.reset random c)).
    rewrite script_reset_length. lia. }
  assert (Rd : moonRadius g1 = 400 * s) by (unfold MOON_RADIUS; reflexivity).
  assert (E : Script.checkCollision g1 = Some g1).
  { apply (script_above_the_ring Script.MOON_BUMPINESS Script.MOON_SEGMENTS);
      [unfold Script.MOON_BUMPINESS; lra | rewrite Rd; lra | exact F
      | exact L |].
    rewrite Rd. unfold Script.MOON_BUMPINESS.
    unfold Script.distanceToCenter, Script.spacecraftBottom, JS.Math_sqrt,
      JS.Math_pow2. cbn [Point.x Point.y].
    destruct (physics_position Script.FUEL_CONSUMPTION
                Script.ROTATION_SPEED g0) as [_ PY].
    pose proof (physics_velocity_bounded Script.FUEL_CONSUMPTION
                  Script.ROTATION_SPEED g0) as B.
    cbv zeta in B. fold Script.update_physics in PY, B. fold g1 in PY, B.
    rewrite PY.
    set (vy := Spacecraft.velocityY (spacecraft g1)) in *.
    set (vx := Spacecraft.velocityX (spacecraft g1)) in *.
    change (Spacecraft.velocityX (spacecraft g0)) with 0 in B.
    change (Spacecraft.velocityY (spacecraft g0)) with 0 in B.
    change (Spacecraft.y (spacecraft g0)) with (innerHeight * 0.3).
    change (scale g1) with s. change (scale g0) with s.
    change (Point.y (moonCenter g1)) with (innerHeight + MOON_RADIUS * s * 0.8).
    set (X := Spacecraft.x (spacecraft g1) - Point.x (moonCenter g1)).
    unfold THRUST_FORCE, MOON_GRAVITY, dt, Script.SPACECRAFT_HEIGHT,
      MOON_RADIUS in *.
    assert (V : vy <= 1) by nra.
    assert (vy * (1 / 60) * s <= s) by nra.
    set (Y := innerHeight * 0.3 + vy * (1 / 60) * s + 6 * s * 0.5
              - (innerHeight + 400 * s * 0.8)).
    assert (Yn : Y <= - (400 * s * (1 + 0.03 / 2))) by (unfold Y; lra).
    set (D := 400 * s * (1 + 0.03 / 2)) in *.
    assert (D0 : 0 <= D) by (unfold D; lra).
    rewrite <- (sqrt_square D) at 1 by exact D0.
    apply sqrt_le_1_alt. nra. }
  assert (T : Script.update g0 = Some g1).
  { unfold Script.update.
    change (negb (isGameActive g0) || isPaused g0) with false.
    cbv iota. fold g1. now rewrite E. }
  split; [exact T|]. split; reflexivity.
Qed.

(** A window of 800 by 600, the thrust key held. *)
Lemma script_new_game_survives_its_first_frame_witness :
  isGameActive
    (Script.update_physics
       (with_keys
          (Script.reset (fun _ => 0)
             (with_isPaused (resizeCanvas 800 600 canvas0) false))
          thrustKey))
  = true.
Proof.
  assert (U : forall n : nat, 0 <= (fun _ : nat => 0) n < 1)
    by (intros n; simpl; lra).
  assert (W : 0 <= 800) by lra.
  assert (H : 0 < 600) by lra.
  exact (proj1 (proj2
           (script_new_game_survives_its_first_frame (fun _ => 0) 800 600
              canvas0 thrustKey U W H))).
Defined.
